(** * LLM Court debate engine: a shallow embedding in Rocq

    The model follows the TypeScript sources of the engine
    ([apps/engine/src/...] and the shared utilities).  Conventions:
    - JS strings used as identifiers are [string]; [null] is [None];
    - JS numbers that are confidences and thresholds are exact rationals [Q]
      (the double rounding of the source is not modelled); counts are [nat];
    - a JS [Map] is an association list kept in insertion order;
    - thrown exceptions are the [Throw] constructor of a small result type. *)

From Stdlib Require Import List String Ascii Bool ZArith QArith Qround Qminmax Lia.
From Stdlib Require Import Permutation Lqa.
Import ListNotations.
Open Scope string_scope.
Open Scope list_scope.
Set Warnings "-register-all,-abstract-large-number".

(* ================================================================== *)
(** ** Shared types ([packages/shared/src/types.ts]) *)

Module Types.

Inductive Vote := yes | no | abstain.

Definition vote_eqb (a b : Vote) : bool :=
  match a, b with
  | yes, yes | no, no | abstain, abstain => true
  | _, _ => false
  end.

Inductive Status := status_ok | status_error.

Definition status_eqb (a b : Status) : bool :=
  match a, b with
  | status_ok, status_ok | status_error, status_error => true
  | _, _ => false
  end.

(** [PositionId = string | null]. *)
Definition PositionId := option string.

(** JS strict equality [===] on [string | null]. *)
Definition pid_eqb (a b : PositionId) : bool :=
  match a, b with
  | None, None => true
  | Some x, Some y => String.eqb x y
  | _, _ => false
  end.

Record TokenUsage := mkTokenUsage {
  prompt : nat; completion : nat; total : nat; estimated : bool }.

Record AgentResponse := mkAgentResponse {
  agentId : string;
  round : nat;
  positionId : PositionId;
  positionText : string;
  reasoning : string;
  vote : Vote;
  confidence : Q;
  tokenUsage : TokenUsage;
  latencyMs : nat;
  status : Status;
  error : option string }.

Record VoteTally := mkVoteTally {
  t_yes : nat;
  t_no : nat;
  t_abstain : nat;
  t_total : nat;
  t_eligible : nat;
  t_votingTotal : nat;
  t_supermajorityThreshold : Z;
  t_supermajorityReached : bool }.

Inductive Method := unanimous | supermajority | method_none.

Record ConsensusResult := mkConsensusResult {
  reached : bool;
  c_positionId : PositionId;
  c_positionText : option string;
  voteTally : VoteTally;
  method : Method }.

(** [createErrorAgentResponse] (utils.ts). *)
Definition createErrorAgentResponse (agentId : string) (round : nat)
    (err : string) : AgentResponse :=
  {| agentId := agentId; round := round; positionId := None;
     positionText := ""; reasoning := ""; vote := abstain; confidence := 0;
     tokenUsage := mkTokenUsage 0 0 0 true; latencyMs := 0;
     status := status_error; error := Some err |}.

(** [a < b] on JS numbers, here on rationals. *)
Definition Qltb (a b : Q) : bool := negb (Qle_bool b a).

End Types.
Import Types.

(* ================================================================== *)
(** ** Agent consensus ([debate/consensus.ts]) *)

Module AgentConsensus.

(** [Math.ceil(votingTotal * threshold)]. *)
Definition ceil_mul (n : nat) (threshold : Q) : Z :=
  Qceiling (inject_Z (Z.of_nat n) * threshold).

Definition is_eligible (r : AgentResponse) : bool := status_eqb (status r) status_ok.

Definition is_yes_for (cand : PositionId) (r : AgentResponse) : bool :=
  vote_eqb (vote r) yes && pid_eqb (positionId r) cand.

Definition detectAgentConsensus (responses : list AgentResponse)
    (candidatePositionId : PositionId) (threshold : Q) : ConsensusResult :=
  let eligible := filter is_eligible responses in
  let yesVotes := List.length (filter (is_yes_for candidatePositionId) eligible) in
  let noVotes := List.length (filter (fun r => vote_eqb (vote r) no) eligible) in
  let abstainVotes :=
    List.length (filter (fun r => vote_eqb (vote r) abstain) eligible) in
  let tally := {| t_yes := yesVotes; t_no := noVotes;
                  t_abstain := abstainVotes; t_total := List.length responses;
                  t_eligible := List.length eligible;
                  t_votingTotal := yesVotes + noVotes;
                  t_supermajorityThreshold := 0;
                  t_supermajorityReached := false |} in
  let not_reached t :=
    {| reached := false; c_positionId := None; c_positionText := None;
       voteTally := t; method := method_none |} in
  if pid_eqb candidatePositionId None || Nat.eqb (t_votingTotal tally) 0
  then not_reached tally
  else
    (* [tally.supermajorityThreshold = ...] mutates the tally *)
    let thr := ceil_mul (t_votingTotal tally) threshold in
    let tally := {| t_yes := yesVotes; t_no := noVotes;
                    t_abstain := abstainVotes; t_total := List.length responses;
                    t_eligible := List.length eligible;
                    t_votingTotal := yesVotes + noVotes;
                    t_supermajorityThreshold := thr;
                    t_supermajorityReached := false |} in
    if Z.geb (Z.of_nat yesVotes) thr then
      let candidateText :=
        option_map positionText
          (find (is_yes_for candidatePositionId) eligible) in
      let isUnanimous := Nat.eqb yesVotes (t_votingTotal tally) in
      {| reached := true; c_positionId := candidatePositionId;
         c_positionText := candidateText;
         voteTally := {| t_yes := yesVotes; t_no := noVotes;
                         t_abstain := abstainVotes;
                         t_total := List.length responses;
                         t_eligible := List.length eligible;
                         t_votingTotal := yesVotes + noVotes;
                         t_supermajorityThreshold := thr;
                         t_supermajorityReached := true |};
         method := if isUnanimous then unanimous else supermajority |}
    else not_reached tally.

(** [PositionScore]. *)
Record PositionScore := mkPositionScore {
  ps_positionId : string;
  ps_positionText : string;
  supportScore : Q;
  supporterCount : nat;
  avgConfidence : Q }.

(** [byPosition.get] / [set] / [push] on the grouping [Map], in insertion
    order: text of the first response, confidences in response order. *)
Fixpoint group_add (m : list (string * (string * list Q)))
    (posId text : string) (c : Q) : list (string * (string * list Q)) :=
  match m with
  | [] => [(posId, (text, [c]))]
  | (k, (t, cs)) :: rest =>
      if String.eqb k posId then (k, (t, cs ++ [c])) :: rest
      else (k, (t, cs)) :: group_add rest posId text c
  end.

Definition selectable (r : AgentResponse) : bool :=
  status_eqb (status r) status_ok && negb (vote_eqb (vote r) abstain)
  && negb (pid_eqb (positionId r) None).

Definition group_by_position (eligible : list AgentResponse)
    : list (string * (string * list Q)) :=
  fold_left (fun m r =>
    match positionId r with
    | Some p => group_add m p (positionText r) (confidence r)
    | None => m
    end) eligible [].

Definition score_of (entry : string * (string * list Q)) : PositionScore :=
  let '(pid, (text, cs)) := entry in
  let s := fold_left Qplus cs 0 in
  let n := List.length cs in
  {| ps_positionId := pid; ps_positionText := text; supportScore := s;
     supporterCount := n; avgConfidence := s / inject_Z (Z.of_nat n) |}.

(** The comparator passed to [scores.sort]: its sign as a [comparison]. *)
Definition score_cmp (a b : PositionScore) : comparison :=
  if negb (Qeq_bool (supportScore b) (supportScore a)) then
    (if Qltb (supportScore a) (supportScore b) then Gt else Lt)
  else if negb (Nat.eqb (supporterCount b) (supporterCount a)) then
    (if Nat.ltb (supporterCount a) (supporterCount b) then Gt else Lt)
  else String.compare (ps_positionId a) (ps_positionId b).

(** [Array.prototype.sort] is stable; a stable insertion sort. *)
Fixpoint insert_by {A} (cmp : A -> A -> comparison) (x : A) (l : list A)
    : list A :=
  match l with
  | [] => [x]
  | y :: l' =>
      match cmp x y with
      | Gt => y :: insert_by cmp x l'
      | _ => x :: l
      end
  end.

Fixpoint sort_by {A} (cmp : A -> A -> comparison) (l : list A) : list A :=
  match l with
  | [] => []
  | x :: l' => insert_by cmp x (sort_by cmp l')
  end.

Definition selectNextCandidate (responses : list AgentResponse)
    : option PositionScore :=
  let eligible := filter selectable responses in
  match eligible with
  | [] => None
  | _ =>
      let scores := map score_of (group_by_position eligible) in
      hd_error (sort_by score_cmp scores)
  end.

End AgentConsensus.

(* ================================================================== *)
(** ** Judge consensus ([judges/consensus.ts]) *)

Module JudgeConsensus.

Record JudgeEvaluation := mkJudgeEvaluation {
  judgeId : string;
  j_round : nat;
  selectedPositionId : PositionId;
  scoresByPositionId : list (string * nat);
  j_reasoning : string;
  j_confidence : Q;
  j_tokenUsage : TokenUsage;
  j_latencyMs : nat;
  j_status : Status;
  j_error : option string }.

Record JudgeConsensusResult := mkJudgeConsensusResult {
  jc_reached : bool;
  jc_positionId : PositionId;
  jc_positionText : option string;
  jc_confidence : Q;
  dissents : list string }.

(** [positions.get(id)] on a [Map<string, string>]. *)
Fixpoint map_get {A} (m : list (string * A)) (k : string) : option A :=
  match m with
  | [] => None
  | (k', v) :: rest => if String.eqb k' k then Some v else map_get rest k
  end.

(** [votes.set(posId, (votes.get(posId) ?? 0) + 1)]. *)
Fixpoint votes_add (m : list (string * nat)) (k : string) : list (string * nat) :=
  match m with
  | [] => [(k, 1%nat)]
  | (k', n) :: rest =>
      if String.eqb k' k then (k', S n) :: rest else (k', n) :: votes_add rest k
  end.

(** JS truthiness of a [string | null]. *)
Definition truthy (p : PositionId) : bool :=
  match p with Some s => negb (String.eqb s "") | None => false end.

Definition is_eligible (e : JudgeEvaluation) : bool :=
  status_eqb (j_status e) status_ok && negb (pid_eqb (selectedPositionId e) None).

Definition selects (p : string) (e : JudgeEvaluation) : bool :=
  pid_eqb (selectedPositionId e) (Some p).

(** [evals.reduce((sum, e) => sum + e.confidence, 0) / evals.length]. *)
Definition mean_confidence (evals : list JudgeEvaluation) : Q :=
  fold_left (fun s e => s + j_confidence e) evals 0
  / inject_Z (Z.of_nat (List.length evals)).

Definition detectJudgeConsensus (evaluations : list JudgeEvaluation)
    (positions : list (string * string)) (majorityThreshold minConfidence : Q)
    : JudgeConsensusResult :=
  let eligible := filter is_eligible evaluations in
  match eligible with
  | [] => {| jc_reached := false; jc_positionId := None;
             jc_positionText := None; jc_confidence := 0; dissents := [] |}
  | _ =>
  let requiredVotes := AgentConsensus.ceil_mul (List.length eligible)
                         majorityThreshold in
  let votes := fold_left (fun m e =>
                 match selectedPositionId e with
                 | Some p => votes_add m p | None => m end) eligible [] in
  let sortedVotes :=
    AgentConsensus.sort_by (fun a b => String.compare (fst a) (fst b)) votes in
  let '(winnerId, maxVotes) :=
    fold_left (fun '(w, mx) '(id, count) =>
                 if Nat.ltb mx count then (Some id, count) else (w, mx))
              sortedVotes (None, 0%nat) in
  let tiedPositions := filter (fun '(_, count) => Nat.eqb count maxVotes)
                         sortedVotes in
  let winnerId :=
    if Nat.ltb 1 (List.length tiedPositions) then
      fst (fold_left (fun '(w, best) '(posId, _) =>
             let avgConf := mean_confidence (filter (selects posId) eligible) in
             if Qltb best avgConf then (Some posId, avgConf) else (w, best))
           tiedPositions (winnerId, -1))
    else winnerId in
  if negb (truthy winnerId) || Z.ltb (Z.of_nat maxVotes) requiredVotes then
    {| jc_reached := false; jc_positionId := winnerId;
       jc_positionText :=
         if truthy winnerId then
           match winnerId with Some w => map_get positions w | None => None end
         else None;
       jc_confidence := 0;
       dissents := map judgeId eligible |}
  else
    let w := match winnerId with Some w => w | None => "" end in
    let avgConfidence := mean_confidence (filter (selects w) eligible) in
    let others := map judgeId (filter (fun e => negb (selects w e)) eligible) in
    if Qltb avgConfidence minConfidence then
      {| jc_reached := false; jc_positionId := winnerId;
         jc_positionText := map_get positions w;
         jc_confidence := avgConfidence; dissents := others |}
    else
      {| jc_reached := true; jc_positionId := winnerId;
         jc_positionText := map_get positions w;
         jc_confidence := avgConfidence; dissents := others |}
  end.

End JudgeConsensus.
Import JudgeConsensus.

(* ================================================================== *)
(** ** Session state ([state/manager.ts]) *)

Module State.

Inductive DebatePhase :=
  init | agent_debate | judge_evaluation | consensus_reached | deadlock.

Definition phase_eqb (a b : DebatePhase) : bool :=
  match a, b with
  | init, init | agent_debate, agent_debate
  | judge_evaluation, judge_evaluation
  | consensus_reached, consensus_reached | deadlock, deadlock => true
  | _, _ => false
  end.

(** [VALID_TRANSITIONS]. *)
Definition VALID_TRANSITIONS (p : DebatePhase) : list DebatePhase :=
  match p with
  | init => [agent_debate]
  | agent_debate => [consensus_reached; judge_evaluation; deadlock]
  | judge_evaluation => [consensus_reached; deadlock]
  | consensus_reached => []
  | deadlock => []
  end.

Inductive EngineError :=
  | InvalidStateTransitionError (from to : DebatePhase).

(** A computation that returns a value or throws. *)
Inductive Result (A : Type) := Ok (a : A) | Throw (e : EngineError).
Arguments Ok {A} a.
Arguments Throw {A} e.

Definition bind {A B} (m : Result A) (k : A -> Result B) : Result B :=
  match m with Ok a => k a | Throw e => Throw e end.

Notation "x <- m ;; k" := (bind m (fun x => k))
  (at level 61, m at next level, right associativity).

Record RoundResult := mkRoundResult {
  roundNumber : nat;
  candidatePositionId : PositionId;
  candidatePositionText : option string;
  responses : list AgentResponse;
  consensusReached : bool;
  consensusPositionId : PositionId;
  consensusPositionText : option string;
  r_voteTally : VoteTally;
  timestamp : string }.

Record JudgeRoundResult := mkJudgeRoundResult {
  jr_roundNumber : nat;
  positionIds : list string;
  evaluations : list JudgeEvaluation;
  jr_consensusReached : bool;
  jr_consensusPositionId : PositionId;
  jr_avgConfidence : Q;
  jr_timestamp : string }.

Inductive VerdictSource := agent_consensus | judge_consensus | src_deadlock.

Record FinalVerdict := mkFinalVerdict {
  v_positionId : string;
  v_positionText : string;
  v_confidence : Q;
  source : VerdictSource }.

Inductive PositionsScope := all_rounds | last_round.

(** The part of [DebateConfig] the orchestrator reads. *)
Record DebateConfig := mkDebateConfig {
  agents : list string;
  judges : list string;
  judgePanelEnabled : bool;
  maxAgentRounds : nat;
  maxJudgeRounds : nat;
  consensusThreshold : Q;
  judgeConsensusThreshold : Q;
  judgeMinConfidence : Q;
  judgePositionsScope : PositionsScope }.

Record DebateSession := mkDebateSession {
  s_id : string;
  topic : string;
  phase : DebatePhase;
  config : DebateConfig;
  agentRounds : list RoundResult;
  judgeRounds : list JudgeRoundResult;
  finalVerdict : option FinalVerdict;
  completedAt : option string;
  totalErrors : nat }.

Definition with_phase (s : DebateSession) (p : DebatePhase)
    (c : option string) : DebateSession :=
  {| s_id := s_id s; topic := topic s; phase := p; config := config s;
     agentRounds := agentRounds s; judgeRounds := judgeRounds s;
     finalVerdict := finalVerdict s; completedAt := c;
     totalErrors := totalErrors s |}.

Definition is_terminal (p : DebatePhase) : bool :=
  phase_eqb p consensus_reached || phase_eqb p deadlock.

(** [StateManager.transitionTo]; [now] is [new Date().toISOString()]. *)
Definition transitionTo (now : string) (s : DebateSession)
    (newPhase : DebatePhase) : Result DebateSession :=
  if existsb (phase_eqb newPhase) (VALID_TRANSITIONS (phase s)) then
    Ok (with_phase s newPhase
          (if is_terminal newPhase then Some now else completedAt s))
  else Throw (InvalidStateTransitionError (phase s) newPhase).

(** [setFinalVerdict]. *)
Definition setFinalVerdict (s : DebateSession) (v : FinalVerdict)
    : DebateSession :=
  {| s_id := s_id s; topic := topic s; phase := phase s; config := config s;
     agentRounds := agentRounds s; judgeRounds := judgeRounds s;
     finalVerdict := Some v; completedAt := completedAt s;
     totalErrors := totalErrors s |}.

Definition count_errors (rs : list AgentResponse) : nat :=
  List.length (filter (fun r => status_eqb (status r) status_error) rs).

(** [addAgentRound]: append and update the error counter. *)
Definition addAgentRound (s : DebateSession) (r : RoundResult)
    : DebateSession :=
  {| s_id := s_id s; topic := topic s; phase := phase s; config := config s;
     agentRounds := agentRounds s ++ [r]; judgeRounds := judgeRounds s;
     finalVerdict := finalVerdict s; completedAt := completedAt s;
     totalErrors := totalErrors s + count_errors (responses r) |}.

(** [addJudgeRound]. *)
Definition addJudgeRound (s : DebateSession) (r : JudgeRoundResult)
    : DebateSession :=
  {| s_id := s_id s; topic := topic s; phase := phase s; config := config s;
     agentRounds := agentRounds s; judgeRounds := judgeRounds s ++ [r];
     finalVerdict := finalVerdict s; completedAt := completedAt s;
     totalErrors := totalErrors s
       + List.length (filter (fun e => status_eqb (j_status e) status_error)
                       (evaluations r)) |}.

Definition getLastAgentRound (s : DebateSession) : option RoundResult :=
  last (map Some (agentRounds s)) None.

Definition getLastJudgeRound (s : DebateSession) : option JudgeRoundResult :=
  last (map Some (judgeRounds s)) None.

End State.
Import State.

(* ================================================================== *)
(** ** JSON values and [JSON.parse]

    [JSON.parse] is the JavaScript built-in (ECMA-404 grammar).  Texts are
    lists of 8-bit code units; a [\uXXXX] escape above 255 is outside
    this model and is refused.  Numbers are kept exactly as decimals
    [m * 10^e] (normalised), not rounded to doubles.  Objects keep their
    keys in first-insertion order, a repeated key overwriting the value in
    place, as [JSON.parse] does. *)

Module Json.

Inductive json :=
  | JNull
  | JBool (b : bool)
  | JNum (m e : Z)
  | JStr (s : string)
  | JArr (l : list json)
  | JObj (l : list (string * json)).

Definition code (c : ascii) : nat := nat_of_ascii c.
Definition chr (n : nat) : ascii := ascii_of_nat n.

(** The double-quote character. *)
Definition dquote : ascii := ascii_of_nat 34.

(** JSON insignificant whitespace: tab, line feed, carriage return, space. *)
Definition json_ws (c : ascii) : bool :=
  match code c with 9 | 10 | 13 | 32 => true | _ => false end%nat.

Fixpoint skip_ws (s : list ascii) : list ascii :=
  match s with
  | c :: s' => if json_ws c then skip_ws s' else s
  | [] => []
  end.

Definition is_digit (c : ascii) : bool :=
  (48 <=? code c)%nat && (code c <=? 57)%nat.

Definition digit_val (c : ascii) : Z := Z.of_nat (code c - 48).

Fixpoint take_digits (s : list ascii) : list ascii * list ascii :=
  match s with
  | c :: s' => if is_digit c then let '(d, r) := take_digits s' in (c :: d, r)
               else ([], s)
  | [] => ([], [])
  end.

Definition digits_value (d : list ascii) : Z :=
  fold_left (fun acc c => acc * 10 + digit_val c)%Z d 0%Z.

(** Remove trailing zeros of the mantissa. *)
Fixpoint normalize_num (fuel : nat) (m e : Z) : json :=
  match fuel with
  | O => JNum m e
  | S f => if Z.eqb m 0 then JNum 0 0
           else if Z.eqb (Z.rem m 10) 0 then normalize_num f (Z.quot m 10) (e + 1)
           else JNum m e
  end.

(** number = [-] int [frac] [exp] *)
Definition parse_number (s : list ascii) : option (json * list ascii) :=
  let '(neg, s) := match s with
                   | "-"%char :: s' => (true, s') | _ => (false, s) end in
  let '(ip, s) := take_digits s in
  match ip with
  | [] => None
  | "0"%char :: _ :: _ => None
  | _ =>
    let fracr := match s with
                 | "."%char :: s' =>
                     let '(fp, s'') := take_digits s' in
                     match fp with [] => None | _ => Some (fp, s'') end
                 | _ => Some ([], s) end in
    match fracr with
    | None => None
    | Some (fp, s) =>
      let expr := match s with
                  | c :: s' =>
                    if orb (Ascii.eqb c "e") (Ascii.eqb c "E") then
                      let '(eneg, s'') :=
                        match s' with
                        | "+"%char :: t => (false, t) | "-"%char :: t => (true, t)
                        | _ => (false, s') end in
                      let '(ed, t) := take_digits s'' in
                      match ed with
                      | [] => None
                      | _ => Some ((if eneg then - digits_value ed
                                    else digits_value ed)%Z, t)
                      end
                    else Some (0%Z, s)
                  | [] => Some (0%Z, [])
                  end in
      match expr with
      | None => None
      | Some (ex, rest) =>
        let m := digits_value (ip ++ fp) in
        let m := if neg then Z.opp m else m in
        Some (normalize_num (List.length (ip ++ fp))
                m (ex - Z.of_nat (List.length fp))%Z, rest)
      end
    end
  end.

Definition hex_val (c : ascii) : option nat :=
  let n := code c in
  (if (48 <=? n) && (n <=? 57) then Some (n - 48)
   else if (97 <=? n) && (n <=? 102) then Some (n - 87)
   else if (65 <=? n) && (n <=? 70) then Some (n - 55)
   else None)%nat.

(** The body of a string literal, after its opening quote. *)
Fixpoint parse_string_body (s : list ascii) : option (list ascii * list ascii) :=
  match s with
  | [] => None
  | c :: s' =>
    if Ascii.eqb c dquote then Some ([], s')
    else if Ascii.eqb c "\" then
      match s' with
      | e :: s'' =>
        let cont (x : ascii) (r : list ascii) :=
          match parse_string_body r with
          | Some (b, r') => Some (x :: b, r')
          | None => None
          end in
        match code e with
        | 34 => cont e s'' | 92 => cont e s'' | 47 => cont e s''
        | 98 => cont (chr 8) s'' | 102 => cont (chr 12) s''
        | 110 => cont (chr 10) s'' | 114 => cont (chr 13) s''
        | 116 => cont (chr 9) s''
        | 117 =>
          match s'' with
          | h1 :: h2 :: h3 :: h4 :: r =>
            match hex_val h1, hex_val h2, hex_val h3, hex_val h4 with
            | Some a, Some b, Some c3, Some d =>
              let v := ((a * 16 + b) * 16 + c3) * 16 + d in
              if v <? 256 then cont (chr v) r else None
            | _, _, _, _ => None
            end
          | _ => None
          end
        | _ => None
        end%nat
      | [] => None
      end
    else if (code c <? 32)%nat then None
    else match parse_string_body s' with
         | Some (b, r) => Some (c :: b, r)
         | None => None
         end
  end.

(** [obj[key] = value] while building an object: in place if present. *)
Fixpoint obj_set (l : list (string * json)) (k : string) (v : json)
    : list (string * json) :=
  match l with
  | [] => [(k, v)]
  | (k', v') :: rest =>
      if String.eqb k' k then (k', v) :: rest else (k', v') :: obj_set rest k v
  end.

Fixpoint starts_with (p s : list ascii) : option (list ascii) :=
  match p, s with
  | [], _ => Some s
  | a :: p', b :: s' => if Ascii.eqb a b then starts_with p' s' else None
  | _ :: _, [] => None
  end.

(** Recursive descent over the text; [fuel] bounds the nesting depth. *)
Fixpoint parse_value (fuel : nat) (s : list ascii) : option (json * list ascii) :=
  match fuel with
  | O => None
  | S f =>
    let s := skip_ws s in
    match s with
    | [] => None
    | c :: s' =>
      if Ascii.eqb c dquote then
        match parse_string_body s' with
        | Some (b, r) => Some (JStr (string_of_list_ascii b), r)
        | None => None
        end
      else if Ascii.eqb c "[" then
        let s' := skip_ws s' in
        match s' with
        | "]"%char :: r => Some (JArr [], r)
        | _ =>
          (* elements: value (',' value)* ']' *)
          let fix elems (g : nat) (t : list ascii) (acc : list json)
              : option (json * list ascii) :=
            match g with
            | O => None
            | S g' =>
              match parse_value f t with
              | None => None
              | Some (v, t) =>
                match skip_ws t with
                | ","%char :: t' => elems g' t' (acc ++ [v])
                | "]"%char :: t' => Some (JArr (acc ++ [v]), t')
                | _ => None
                end
              end
            end in
          elems (List.length s') s' []
        end
      else if Ascii.eqb c "{" then
        let s' := skip_ws s' in
        match s' with
        | "}"%char :: r => Some (JObj [], r)
        | _ =>
          (* members: string ':' value (',' string ':' value)* '}' *)
          let fix membs (g : nat) (t : list ascii) (acc : list (string * json))
              : option (json * list ascii) :=
            match g with
            | O => None
            | S g' =>
              match skip_ws t with
              | q :: t =>
                if negb (Ascii.eqb q dquote) then None else
                match parse_string_body t with
                | None => None
                | Some (k, t) =>
                  match skip_ws t with
                  | ":"%char :: t =>
                    match parse_value f t with
                    | None => None
                    | Some (v, t) =>
                      let acc := obj_set acc (string_of_list_ascii k) v in
                      match skip_ws t with
                      | ","%char :: t' => membs g' t' acc
                      | "}"%char :: t' => Some (JObj acc, t')
                      | _ => None
                      end
                    end
                  | _ => None
                  end
                end
              | _ => None
              end
            end in
          membs (List.length s') s' []
        end
      else match starts_with (list_ascii_of_string "true") s with
      | Some r => Some (JBool true, r)
      | None =>
      match starts_with (list_ascii_of_string "false") s with
      | Some r => Some (JBool false, r)
      | None =>
      match starts_with (list_ascii_of_string "null") s with
      | Some r => Some (JNull, r)
      | None => parse_number s
      end end end
    end
  end.

(** [JSON.parse(text)]: [None] when it throws a [SyntaxError]. *)
Definition JSON_parse (text : string) : option json :=
  let s := list_ascii_of_string text in
  match parse_value (S (List.length s)) s with
  | Some (v, rest) => match skip_ws rest with [] => Some v | _ => None end
  | None => None
  end.

(* ------------------------------------------------------------------ *)
(** *** [repairJson] ([adapters/json-repair.ts]) *)

(** [\s] of a JS regular expression, and the characters [String.prototype.trim]
    removes, restricted to 8-bit code units: tab, LF, VT, FF, CR, space and
    no-break space. *)
Definition js_space (c : ascii) : bool :=
  match code c with 9 | 10 | 11 | 12 | 13 | 32 | 160 => true | _ => false end%nat.

Fixpoint drop_space (s : list ascii) : list ascii :=
  match s with
  | c :: s' => if js_space c then drop_space s' else s
  | [] => []
  end.

(** [raw.trim()]. *)
Definition trim (s : list ascii) : list ascii := rev (drop_space (rev (drop_space s))).

Definition ticks : list ascii := list_ascii_of_string "```".

Definition lower (c : ascii) : ascii :=
  if (65 <=? code c)%nat && (code c <=? 90)%nat then chr (code c + 32) else c.

(** [.replace(/^```(?:json)?\s*/i, "")]. *)
Definition strip_open_fence (s : list ascii) : list ascii :=
  match starts_with ticks s with
  | None => s
  | Some r =>
    let r := match starts_with (list_ascii_of_string "json") (map lower r) with
             | Some _ => skipn 4 r
             | None => r
             end in
    drop_space r
  end.

(** [.replace(/\s*```$/i, "")]: the leftmost match takes every space that
    precedes the final fence. *)
Definition strip_close_fence (s : list ascii) : list ascii :=
  match starts_with (rev ticks) (rev s) with
  | None => s
  | Some r => rev (drop_space r)
  end.

Fixpoint index_of (p : ascii -> bool) (s : list ascii) : option nat :=
  match s with
  | [] => None
  | c :: s' => if p c then Some 0%nat
               else option_map S (index_of p s')
  end.

(** [text.match(/\{[\s\S]*\}/)]: from the first ['{'] to the last ['}']
    after it, when there is one. *)
Definition extract_braces (s : list ascii) : list ascii :=
  match index_of (fun c => Ascii.eqb c "{") s with
  | None => s
  | Some i =>
    let after := skipn i s in
    match index_of (fun c => Ascii.eqb c "}") (rev after) with
    | None => s
    | Some j => firstn (List.length after - j) after
    end
  end.

(** [.replace(/,(\s*[}\]])/g, "$1")]. *)
Fixpoint drop_trailing_commas (fuel : nat) (s : list ascii) : list ascii :=
  match fuel with
  | O => s
  | S f =>
    match s with
    | [] => []
    | c :: s' =>
      if Ascii.eqb c "," then
        let sp := drop_space s' in
        let ws := firstn (List.length s' - List.length sp) s' in
        match sp with
        | b :: rest =>
          if orb (Ascii.eqb b "}") (Ascii.eqb b "]")
          then ws ++ b :: drop_trailing_commas f rest
          else c :: drop_trailing_commas f s'
        | [] => c :: drop_trailing_commas f s'
        end
      else c :: drop_trailing_commas f s'
    end
  end.

Definition ident_start (c : ascii) : bool :=
  let n := code c in
  ((65 <=? n) && (n <=? 90) || (97 <=? n) && (n <=? 122) || (n =? 95))%nat.

Definition ident_char (c : ascii) : bool := ident_start c || is_digit c.

Fixpoint take_while (p : ascii -> bool) (s : list ascii) : list ascii * list ascii :=
  match s with
  | c :: s' => if p c then let '(a, b) := take_while p s' in (c :: a, b)
               else ([], s)
  | [] => ([], [])
  end.

(** Step 2 of [repairJson]: a ['{'] or [','], spaces, an identifier
    [[a-zA-Z_][a-zA-Z0-9_]*], spaces and a colon; the identifier is wrapped
    in double quotes and the spaces before the colon dropped. *)
Fixpoint quote_keys (fuel : nat) (s : list ascii) : list ascii :=
  match fuel with
  | O => s
  | S f =>
    match s with
    | [] => []
    | c :: s' =>
      if orb (Ascii.eqb c "{") (Ascii.eqb c ",") then
        let '(ws, t) := take_while js_space s' in
        match t with
        | i0 :: _ =>
          if ident_start i0 then
            let '(id, u) := take_while ident_char t in
            match drop_space u with
            | ":"%char :: rest =>
                c :: ws ++ dquote :: id ++ dquote :: ":"%char
                  :: quote_keys f rest
            | _ => c :: quote_keys f s'
            end
          else c :: quote_keys f s'
        | [] => c :: quote_keys f s'
        end
      else c :: quote_keys f s'
    end
  end.

Definition squote : ascii := ascii_of_nat 39.
Definition bslash : ascii := ascii_of_nat 92.

(** Line terminators, which [.] of a JS regular expression does not match. *)
Definition line_terminator (c : ascii) : bool :=
  match code c with 10 | 13 => true | _ => false end%nat.

(** The body of a single-quoted string (characters other than a quote or a
    backslash, or a backslash and any character but a line terminator) and
    its closing quote; [None] when no closing quote follows. *)
Fixpoint sq_body (s : list ascii) : option (list ascii * list ascii) :=
  match s with
  | [] => None
  | c :: s' =>
    if Ascii.eqb c squote then Some ([], s')
    else if Ascii.eqb c bslash then
      match s' with
      | d :: s'' =>
        if line_terminator d then None
        else match sq_body s'' with
             | Some (b, r) => Some (c :: d :: b, r)
             | None => None
             end
      | [] => None
      end
    else match sq_body s' with
         | Some (b, r) => Some (c :: b, r)
         | None => None
         end
  end.

(** Step 3: single-quoted strings become double-quoted. *)
Fixpoint requote (fuel : nat) (s : list ascii) : list ascii :=
  match fuel with
  | O => s
  | S f =>
    match s with
    | [] => []
    | c :: s' =>
      if Ascii.eqb c squote then
        match sq_body s' with
        | Some (b, r) => dquote :: b ++ dquote :: requote f r
        | None => c :: requote f s'
        end
      else c :: requote f s'
    end
  end.

(** Step 4: an escaped single quote loses its backslash. *)
Fixpoint unescape_squote (s : list ascii) : list ascii :=
  match s with
  | c :: ((d :: r) as s') =>
    if Ascii.eqb c bslash && Ascii.eqb d squote then d :: unescape_squote r
    else c :: unescape_squote s'
  | _ => s
  end.

(** Step 5: control characters other than tab, LF and CR are removed. *)
Definition strip_controls (s : list ascii) : list ascii :=
  filter (fun c => let n := code c in
                   negb ((n <=? 8) || (n =? 11) || (n =? 12)
                         || (14 <=? n) && (n <=? 31))%nat) s.

(** [fixUnescapedNewlines]: the scan with its [inString] and [isEscaped]
    flags. *)
Fixpoint fixUnescapedNewlines_from (inString isEscaped : bool) (s : list ascii)
    : list ascii :=
  match s with
  | [] => []
  | c :: s' =>
    if isEscaped then c :: fixUnescapedNewlines_from inString false s'
    else if Ascii.eqb c bslash then c :: fixUnescapedNewlines_from inString true s'
    else if Ascii.eqb c dquote then
      c :: fixUnescapedNewlines_from (negb inString) false s'
    else if inString && Nat.eqb (code c) 10 then
      bslash :: "n"%char :: fixUnescapedNewlines_from inString false s'
    else if inString && Nat.eqb (code c) 13 then
      fixUnescapedNewlines_from inString false s'
    else c :: fixUnescapedNewlines_from inString false s'
  end.

Definition fixUnescapedNewlines (s : list ascii) : list ascii :=
  fixUnescapedNewlines_from false false s.

Definition repairJson_list (raw : list ascii) : list ascii :=
  let text := trim raw in
  let text := strip_close_fence (strip_open_fence text) in
  let text := extract_braces text in
  let text := drop_trailing_commas (S (List.length text)) text in
  let text := quote_keys (S (List.length text)) text in
  let text := requote (S (List.length text)) text in
  let text := unescape_squote text in
  let text := strip_controls text in
  fixUnescapedNewlines text.

(** [repairJson]. *)
Definition repairJson (raw : string) : string :=
  string_of_list_ascii (repairJson_list (list_ascii_of_string raw)).

Inductive ParseResult :=
  | parse_success (data : json)
  | parse_failure (error : string) (raw : string).

(** [parseJsonWithRepair(raw, allowRepair)]. *)
Definition parseJsonWithRepair (raw : string) (allowRepair : bool) : ParseResult :=
  match JSON_parse raw with
  | Some data => parse_success data
  | None =>
    if negb allowRepair then parse_failure "Invalid JSON" raw
    else match JSON_parse (repairJson raw) with
         | Some data => parse_success data
         | None => parse_failure "SyntaxError" raw
         end
  end.

End Json.

(* ================================================================== *)
(** ** Debate engine ([debate/engine.ts]) *)

Module Engine.
Import Json.

(** The output of [AgentResponseSchema.safeParse] on success. *)
Record AgentOutput := mkAgentOutput {
  o_vote : Vote;
  targetPositionId : option string;
  newPositionText : option string;
  o_reasoning : string;
  o_confidence : Q }.

Definition json_num_Q (m e : Z) : Q :=
  if Z.leb 0 e then inject_Z (m * 10 ^ e) else Qmake m (Z.to_pos (10 ^ (- e))).

Definition str_len_between (lo hi : nat) (s : string) : bool :=
  ((lo <=? String.length s) && (String.length s <=? hi))%nat.

(** [AgentResponseSchema.safeParse(data)]: [inl] carries the issue message. *)
Definition validateAgentResponse (v : json) : string + AgentOutput :=
  match v with
  | JObj m =>
    let vote := match map_get m "vote" with
                | Some (JStr "yes") => Some yes
                | Some (JStr "no") => Some no
                | Some (JStr "abstain") => Some abstain
                | _ => None end in
    let target := match map_get m "targetPositionId" with
                  | None => Some None
                  | Some (JStr s) => if Nat.eqb (String.length s) 12
                                     then Some (Some s) else None
                  | Some _ => None end in
    let newText := match map_get m "newPositionText" with
                   | None => Some None
                   | Some (JStr s) => if str_len_between 1 4000 s
                                      then Some (Some s) else None
                   | Some _ => None end in
    let reasoning := match map_get m "reasoning" with
                     | Some (JStr s) => if str_len_between 1 8000 s
                                        then Some s else None
                     | _ => None end in
    let conf := match map_get m "confidence" with
                | Some (JNum a e) =>
                    let q := json_num_Q a e in
                    if Qle_bool 0 q && Qle_bool q 1 then Some q else None
                | _ => None end in
    match vote, target, newText, reasoning, conf with
    | Some vt, Some tg, Some nt, Some rs, Some c =>
      (* [superRefine] *)
      match vt, tg, nt with
      | yes, None, _ => inl "targetPositionId required when voting 'yes'"
      | no, _, None => inl "newPositionText required when voting 'no'"
      | _, _, _ => inr {| o_vote := vt; targetPositionId := tg;
                          newPositionText := nt; o_reasoning := rs;
                          o_confidence := c |}
      end
    | _, _, _, _, _ => inl "invalid input"
    end
  | _ => inl "Expected object"
  end.

(** What the [try] block of [runAgent] meets up to the model call:
    either something throws (adapter construction, prompt building, the
    call through the retry wrapper after its retries) with a message, or
    the call returns its content. *)
Inductive CallOutcome :=
  | call_throws (message : string)
  | call_returns (content : string) (usage : TokenUsage) (latency : nat).

Section RunAgent.

(** [generatePositionId]: SHA-256 of the normalised text, truncated. *)
Variable generatePositionId : string -> string.
Variable deterministicMode : bool.

(** [runAgent]; [elapsed] is [Date.now() - startTime] in the [catch]. *)
Definition runAgent (agentId : string) (round : nat)
    (candidatePositionText : option string) (outcome : CallOutcome)
    (elapsed : nat) : AgentResponse :=
  match outcome with
  | call_throws msg =>
    let r := createErrorAgentResponse agentId round msg in
    {| agentId := Types.agentId r; Types.round := Types.round r;
       positionId := positionId r; positionText := positionText r;
       reasoning := reasoning r; vote := vote r; confidence := confidence r;
       tokenUsage := tokenUsage r; latencyMs := elapsed; status := status r;
       error := error r |}
  | call_returns content usage latency =>
    match parseJsonWithRepair content (negb deterministicMode) with
    | parse_failure e _ =>
        createErrorAgentResponse agentId round ("Failed to parse JSON: " ++ e)
    | parse_success data =>
      match validateAgentResponse data with
      | inl msg =>
          createErrorAgentResponse agentId round
            ("Schema validation failed: " ++ msg)
      | inr d =>
        let '(pid, text) :=
          match o_vote d, targetPositionId d, newPositionText d with
          | yes, Some t, _ =>
              if negb (String.eqb t "") then
                (Some t, match candidatePositionText with
                         | Some c => c | None => "" end)
              else (None, "")
          | no, _, Some t =>
              if negb (String.eqb t "") then (Some (generatePositionId t), t)
              else (None, "")
          | abstain, _, Some t =>
              if negb (String.eqb t "") then (Some (generatePositionId t), t)
              else (None, "")
          | _, _, _ => (None, "")
          end in
        {| agentId := agentId; round := round; positionId := pid;
           positionText := text; reasoning := o_reasoning d;
           vote := o_vote d; confidence := o_confidence d;
           tokenUsage := usage; latencyMs := latency; status := status_ok;
           error := None |}
      end
    end
  end.

(** [runDebateRound]: [Promise.all] over [config.agents.map(...)] keeps
    the configuration order; [calls i id] is what agent number [i] meets
    and [elapsed i] its latency on the error path. *)
Definition runDebateRound (agents : list string) (round : nat)
    (candidatePositionId : PositionId) (candidatePositionText : option string)
    (consensusThreshold : Q) (calls : nat -> string -> CallOutcome)
    (elapsed : nat -> nat) (now : string) : RoundResult :=
  let responses :=
    map (fun '(i, a) => runAgent a round candidatePositionText (calls i a)
                          (elapsed i))
        (combine (seq 0 (List.length agents)) agents) in
  let c := AgentConsensus.detectAgentConsensus responses candidatePositionId
             consensusThreshold in
  {| roundNumber := round; candidatePositionId := candidatePositionId;
     candidatePositionText := candidatePositionText; responses := responses;
     consensusReached := reached c; consensusPositionId := c_positionId c;
     consensusPositionText := c_positionText c; r_voteTally := voteTally c;
     timestamp := now |}.

End RunAgent.

End Engine.

(* ================================================================== *)
(** ** Orchestrator ([orchestrator.ts], [judges/panel.ts]) *)

Module Orchestrator.

(** [collectPositions]: first text seen for each position id. *)
Definition collectPositions (rounds : list RoundResult) (scope : PositionsScope)
    : list (string * string) :=
  let roundsToProcess :=
    match scope with
    | last_round => match rev rounds with r :: _ => [r] | [] => [] end
    | all_rounds => rounds
    end in
  fold_left (fun positions r =>
    fold_left (fun positions resp =>
      match positionId resp with
      | Some p =>
        if status_eqb (status resp) status_ok && negb (String.eqb p "")
           && negb (String.eqb (positionText resp) "") then
          match map_get positions p with
          | Some _ => positions
          | None => positions ++ [(p, positionText resp)]
          end
        else positions
      | None => positions
      end) (responses r) positions) roundsToProcess [].

(** [getNextCandidate]. *)
Definition getNextCandidate (lastRound : RoundResult) : option (string * string) :=
  match AgentConsensus.selectNextCandidate (responses lastRound) with
  | Some c => Some (AgentConsensus.ps_positionId c,
                    AgentConsensus.ps_positionText c)
  | None => None
  end.

(** [runJudgeRound] after [Promise.all] has produced the evaluations. *)
Definition runJudgeRound (cfg : DebateConfig) (round : nat)
    (positions : list (string * string)) (evals : list JudgeEvaluation)
    (now : string) : JudgeRoundResult :=
  let c := detectJudgeConsensus evals positions (judgeConsensusThreshold cfg)
             (judgeMinConfidence cfg) in
  {| jr_roundNumber := round; positionIds := map fst positions;
     evaluations := evals; jr_consensusReached := jc_reached c;
     jr_consensusPositionId := jc_positionId c;
     jr_avgConfidence := jc_confidence c; jr_timestamp := now |}.

Definition truthy_text (t : option string) : bool :=
  match t with Some s => negb (String.eqb s "") | None => false end.

Definition yes_mean (rs : list AgentResponse) : Q :=
  let ys := filter (fun r => vote_eqb (vote r) yes) rs in
  fold_left (fun s r => s + confidence r) ys 0
  / inject_Z (Z.of_nat (List.length ys)).

Section Loops.

Variable generatePositionId : string -> string.
Variable deterministicMode : bool.
Variable now : string.
Variable cfg : DebateConfig.
(** What agent number [i] meets in round [r]: [agent_calls r i id]. *)
Variable agent_calls : nat -> nat -> string -> Engine.CallOutcome.
Variable agent_elapsed : nat -> nat -> nat.
(** The evaluations [Promise.all] returns in judge round [r]. *)
Variable judge_evals : nat -> list JudgeEvaluation.

(** The [while] loop of [runAgentDebatePhase]; [true] when it returned. *)
Fixpoint agent_loop (fuel : nat) (s : DebateSession)
    : Result (bool * DebateSession) :=
  match fuel with
  | O => Ok (false, s)
  | S f =>
    let round := S (List.length (agentRounds s)) in
    if phase_eqb (phase s) agent_debate && (round <=? maxAgentRounds cfg)%nat
    then
      let '(cid, ctext) :=
        if Nat.eqb round 1 then (None, None)
        else match getLastAgentRound s with
             | Some lr => match getNextCandidate lr with
                          | Some (i, t) => (Some i, Some t)
                          | None => (None, None)
                          end
             | None => (None, None)
             end in
      let rr := Engine.runDebateRound generatePositionId deterministicMode
                  (agents cfg) round cid ctext (consensusThreshold cfg)
                  (agent_calls round) (agent_elapsed round) now in
      let s := addAgentRound s rr in
      if consensusReached rr && truthy (consensusPositionId rr)
         && truthy_text (consensusPositionText rr) then
        s <- transitionTo now s consensus_reached ;;
        Ok (true, setFinalVerdict s
                    {| v_positionId := match consensusPositionId rr with
                                       | Some p => p | None => "" end;
                       v_positionText := match consensusPositionText rr with
                                         | Some t => t | None => "" end;
                       v_confidence := yes_mean (responses rr);
                       source := agent_consensus |})
      else agent_loop f s
    else Ok (false, s)
  end.

(** [runAgentDebatePhase]. *)
Definition runAgentDebatePhase (s : DebateSession) : Result DebateSession :=
  r <- agent_loop (S (maxAgentRounds cfg)) s ;;
  let '(returned, s) := r in
  if returned then Ok s else
  let positions := collectPositions (agentRounds s) (judgePositionsScope cfg) in
  if judgePanelEnabled cfg && (2 <=? List.length positions)%nat
     && (3 <=? List.length (judges cfg))%nat
  then transitionTo now s judge_evaluation
  else
    s <- transitionTo now s deadlock ;;
    match getLastAgentRound s with
    | Some lr =>
      match getNextCandidate lr with
      | Some (i, t) =>
          Ok (setFinalVerdict s {| v_positionId := i; v_positionText := t;
                                   v_confidence := 0; source := src_deadlock |})
      | None => Ok s
      end
    | None => Ok s
    end.

(** The [while] loop of [runJudgeEvaluationPhase]. *)
Fixpoint judge_loop (fuel : nat) (positions : list (string * string))
    (s : DebateSession) : Result (bool * DebateSession) :=
  match fuel with
  | O => Ok (false, s)
  | S f =>
    let round := S (List.length (judgeRounds s)) in
    if phase_eqb (phase s) judge_evaluation && (round <=? maxJudgeRounds cfg)%nat
    then
      let rr := runJudgeRound cfg round positions (judge_evals round) now in
      let s := addJudgeRound s rr in
      if jr_consensusReached rr && truthy (jr_consensusPositionId rr) then
        let p := match jr_consensusPositionId rr with
                 | Some p => p | None => "" end in
        s <- transitionTo now s consensus_reached ;;
        Ok (true, setFinalVerdict s
                    {| v_positionId := p;
                       v_positionText := match map_get positions p with
                                         | Some t => t | None => "" end;
                       v_confidence := jr_avgConfidence rr;
                       source := judge_consensus |})
      else judge_loop f positions s
    else Ok (false, s)
  end.

(** The tail of [runJudgeEvaluationPhase] after its loop. *)
Definition judgeDeadlock (positions : list (string * string))
    (s : DebateSession) : Result DebateSession :=
  s <- transitionTo now s deadlock ;;
  match getLastJudgeRound s with
  | Some lj =>
    if truthy (jr_consensusPositionId lj) then
      let p := match jr_consensusPositionId lj with
               | Some p => p | None => "" end in
      Ok (setFinalVerdict s
            {| v_positionId := p;
               v_positionText := match map_get positions p with
                                 | Some t => t | None => "" end;
               v_confidence := jr_avgConfidence lj;
               source := src_deadlock |})
    else Ok s
  | None => Ok s
  end.

(** [runJudgeEvaluationPhase]. *)
Definition runJudgeEvaluationPhase (s : DebateSession) : Result DebateSession :=
  let positions := collectPositions (agentRounds s) (judgePositionsScope cfg) in
  r <- judge_loop (S (maxJudgeRounds cfg)) positions s ;;
  let '(returned, s) := r in
  if returned then Ok s else judgeDeadlock positions s.

End Loops.

Record SessionOut := mkSessionOut {
  o_id : string;
  o_topic : string;
  o_phase : DebatePhase;
  o_completedAt : option string;
  o_totalErrors : nat }.

Record AgentDebateOut := mkAgentDebateOut {
  ad_rounds : list RoundResult;
  finalPositionId : PositionId;
  finalPositionText : option string }.

Record JudgeFinal := mkJudgeFinal {
  f_consensusPositionId : string;
  f_consensusPositionText : string;
  f_consensusConfidence : Q;
  f_dissents : list string }.

Record JudgePanelOut := mkJudgePanelOut {
  enabled : bool;
  jp_rounds : list JudgeRoundResult;
  final : option JudgeFinal }.

Record DebateOutput := mkDebateOutput {
  version : string;
  session : SessionOut;
  agentDebate : AgentDebateOut;
  judgePanel : JudgePanelOut;
  out_finalVerdict : FinalVerdict }.

Definition SPEC_VERSION : string := "2.3.0".

(** The verdict [buildOutput] falls back to when none was set. *)
Definition default_verdict : FinalVerdict :=
  {| v_positionId := ""; v_positionText := ""; v_confidence := 0;
     source := src_deadlock |}.

(** [buildOutput]. *)
Definition buildOutput (s : DebateSession) : DebateOutput :=
  let lastAgentRound := getLastAgentRound s in
  {| version := SPEC_VERSION;
     session := {| o_id := s_id s; o_topic := topic s; o_phase := phase s;
                   o_completedAt := completedAt s;
                   o_totalErrors := totalErrors s |};
     agentDebate :=
       {| ad_rounds := agentRounds s;
          finalPositionId :=
            match lastAgentRound with
            | Some r => consensusPositionId r | None => None end;
          finalPositionText :=
            match lastAgentRound with
            | Some r => consensusPositionText r | None => None end |};
     judgePanel :=
       {| enabled := judgePanelEnabled (config s);
          jp_rounds := judgeRounds s;
          final :=
            if (0 <? List.length (judgeRounds s))%nat then
              Some {| f_consensusPositionId :=
                        match finalVerdict s with
                        | Some v => v_positionId v | None => "" end;
                      f_consensusPositionText :=
                        match finalVerdict s with
                        | Some v => v_positionText v | None => "" end;
                      f_consensusConfidence :=
                        match finalVerdict s with
                        | Some v => v_confidence v | None => 0 end;
                      f_dissents := [] |}
            else None |};
     out_finalVerdict :=
       match finalVerdict s with Some v => v | None => default_verdict end |}.

(** [new StateManager({config})] for a fresh session. *)
Definition newSession (cfg : DebateConfig) (id topic : string) : DebateSession :=
  {| s_id := id; topic := topic; phase := init; config := cfg;
     agentRounds := []; judgeRounds := []; finalVerdict := None;
     completedAt := None; totalErrors := 0 |}.

(** The phases of [runDebate] up to [buildOutput] (checkpoint writing and
    logging left out): the session [buildOutput] is applied to. *)
Definition runPhases (generatePositionId : string -> string)
    (deterministicMode : bool) (now : string) (cfg : DebateConfig)
    (agent_calls : nat -> nat -> string -> Engine.CallOutcome)
    (agent_elapsed : nat -> nat -> nat)
    (judge_evals : nat -> list JudgeEvaluation) (s : DebateSession)
    : Result DebateSession :=
  s <- (if phase_eqb (phase s) init then transitionTo now s agent_debate
        else Ok s) ;;
  s <- (if phase_eqb (phase s) agent_debate then
          runAgentDebatePhase generatePositionId deterministicMode now cfg
            agent_calls agent_elapsed s
        else Ok s) ;;
  (if phase_eqb (phase s) judge_evaluation then
     runJudgeEvaluationPhase now cfg judge_evals s
   else Ok s).

(** [runDebate] without its file input and output (the checkpoint load,
    the checkpoint saves and the output write, modelled in
    [OrchestratorIO]): [buildOutput] of the session the phases end in. *)
Definition runDebate (generatePositionId : string -> string)
    (deterministicMode : bool) (now : string) (cfg : DebateConfig)
    (agent_calls : nat -> nat -> string -> Engine.CallOutcome)
    (agent_elapsed : nat -> nat -> nat)
    (judge_evals : nat -> list JudgeEvaluation) (s : DebateSession)
    : Result DebateOutput :=
  s <- runPhases generatePositionId deterministicMode now cfg agent_calls
         agent_elapsed judge_evals s ;;
  Ok (buildOutput s).

End Orchestrator.

(* ================================================================== *)
(** ** Checkpoints ([state/checkpoint.ts], [canonicalizeJson] of utils.ts) *)

Module Checkpoint.
Import Json.

Local Open Scope string_scope.

Fixpoint digits_pos_fuel (fuel : nat) (n : Z) (acc : string) : string :=
  match fuel with
  | O => acc
  | S f =>
    let d := String (ascii_of_nat (48 + Z.to_nat (Z.rem n 10))) "" in
    if Z.ltb n 10 then d ++ acc else digits_pos_fuel f (Z.quot n 10) (d ++ acc)
  end.

(** Decimal digits of a non-negative integer. *)
Definition digits (n : Z) : string :=
  digits_pos_fuel (S (Z.to_nat (Z.log2 (Z.max n 1)))) n "".

Fixpoint zeros (n : nat) : string :=
  match n with O => "" | S k => "0" ++ zeros k end.

(** [Number.prototype.toString] on the decimal [m * 10^e] ([m] without
    trailing zeros). *)
Definition number_to_string (m e : Z) : string :=
  if Z.eqb m 0 then "0" else
  let sign := if Z.ltb m 0 then "-" else "" in
  let ds := digits (Z.abs m) in
  let k := Z.of_nat (String.length ds) in
  let n := (e + k)%Z in
  sign ++
  (if Z.leb k n && Z.leb n 21 then ds ++ zeros (Z.to_nat (n - k))
   else if Z.ltb 0 n && Z.leb n 21 then
     substring 0 (Z.to_nat n) ds ++ "." ++ substring (Z.to_nat n) (String.length ds) ds
   else if Z.ltb (-6) n && Z.leb n 0 then "0." ++ zeros (Z.to_nat (- n)) ++ ds
   else
     let e' := (n - 1)%Z in
     (if Z.eqb k 1 then ds
      else substring 0 1 ds ++ "." ++ substring 1 (String.length ds) ds)
     ++ "e" ++ (if Z.leb 0 e' then "+" else "-") ++ digits (Z.abs e')).

Definition hex_digit (n : nat) : string :=
  String (ascii_of_nat (if (n <? 10)%nat then 48 + n else 87 + n)) "".

(** [QuoteJSONString]. *)
Fixpoint quote_body (s : string) : string :=
  match s with
  | EmptyString => ""
  | String c r =>
    let n := nat_of_ascii c in
    (match n with
     | 8 => "\b" | 9 => "\t" | 10 => "\n" | 12 => "\f" | 13 => "\r"
     | 34 => String bslash (String dquote "")
     | 92 => String bslash (String bslash "")
     | _ => if (n <? 32)%nat
            then "\u00" ++ hex_digit (n / 16) ++ hex_digit (n mod 16)
            else String c ""
     end)%nat ++ quote_body r
  end.

Definition quote (s : string) : string :=
  String dquote (quote_body s ++ String dquote "").

Fixpoint join (sep : string) (l : list string) : string :=
  match l with
  | [] => ""
  | [x] => x
  | x :: r => x ++ sep ++ join sep r
  end.

(** [canonicalizeJson]: [JSON.stringify] with every object's keys sorted
    by [Array.prototype.sort] (code-unit order). *)
Fixpoint canonicalizeJson (v : json) : string :=
  match v with
  | JNull => "null"
  | JBool true => "true"
  | JBool false => "false"
  | JNum m e => number_to_string m e
  | JStr s => quote s
  | JArr l =>
      "[" ++ join "," ((fix go (l : list json) : list string :=
                          match l with [] => [] | x :: r => canonicalizeJson x :: go r end) l)
      ++ "]"
  | JObj l =>
      let members :=
        (fix go (l : list (string * json)) : list (string * string) :=
           match l with
           | [] => []
           | (k, x) :: r => (k, canonicalizeJson x) :: go r
           end) l in
      let sorted := AgentConsensus.sort_by
                      (fun a b => String.compare (fst a) (fst b)) members in
      "{" ++ join "," (map (fun '(k, s) => quote k ++ ":" ++ s) sorted) ++ "}"
  end.

Definition phase_name (p : DebatePhase) : string :=
  match p with
  | init => "init" | agent_debate => "agent_debate"
  | judge_evaluation => "judge_evaluation"
  | consensus_reached => "consensus_reached" | deadlock => "deadlock"
  end.

Definition phase_of_name (s : string) : option DebatePhase :=
  if String.eqb s "init" then Some init
  else if String.eqb s "agent_debate" then Some agent_debate
  else if String.eqb s "judge_evaluation" then Some judge_evaluation
  else if String.eqb s "consensus_reached" then Some consensus_reached
  else if String.eqb s "deadlock" then Some deadlock
  else None.

(** [CheckpointData]; the config and rounds are kept as the JSON values
    they serialise to. *)
Record CheckpointData := mkCheckpointData {
  cd_sessionId : string;
  cd_phase : DebatePhase;
  cd_config : json;
  cd_agentRounds : list json;
  cd_judgeRounds : list json }.

Inductive CheckpointErr :=
  | CheckpointError (msg : string)
  | CheckpointVersionError (found expected : string)
  | CheckpointIntegrityError (msg : string).

Definition ENGINE_VERSION : string := "2.3.0".

Section Files.

(** The file text and the JS built-ins [JSON.stringify(x, null, 2)] and
    [JSON.parse] that write and read it. *)
Variable Text : Type.
Variable stringify : json -> Text.
Variable parse : Text -> option json.
(** [sha256] and [hmacSha256] of utils.ts (node:crypto, hex digests). *)
Variable sha256 : string -> string.
Variable hmacSha256 : string -> string -> string.
(** [process.env.LLM_COURT_CHECKPOINT_HMAC_KEY]. *)
Variable hmacKey : option string.
(** The nested zod schemas [DebateConfigSchema], [RoundResultSchema],
    [JudgeRoundResultSchema] and [z.string().datetime()]. *)
Variable configSchema : json -> option json.
Variable roundSchema : json -> option json.
Variable judgeRoundSchema : json -> option json.
Variable isDatetime : string -> bool.

Definition obind (f : json -> option json) (v : option json) : option json :=
  match v with Some x => f x | None => None end.

Fixpoint all_some (f : json -> option json) (l : list json) : option (list json) :=
  match l with
  | [] => Some []
  | x :: r => match f x, all_some f r with
              | Some y, Some ys => Some (y :: ys)
              | _, _ => None
              end
  end.

Definition str_of_len (n : nat) (v : option json) : option string :=
  match v with
  | Some (JStr s) => if Nat.eqb (String.length s) n then Some s else None
  | _ => None
  end.

(** [CheckpointSchema.safeParse]: unknown keys are dropped and the output
    lists the keys in the order of the schema. *)
Definition checkpointSchema (v : json) : option json :=
  match v with
  | JObj m =>
    match map_get m "version", map_get m "engineVersion",
          map_get m "sessionId", map_get m "timestamp", map_get m "phase",
          obind configSchema (map_get m "config"),
          str_of_len 64 (map_get m "configHash"),
          map_get m "agentRounds", map_get m "judgeRounds",
          map_get m "integrity" with
    | Some (JStr ver), Some (JStr ev), Some (JStr sid), Some (JStr ts),
      Some (JStr ph), Some cfg, Some ch, Some (JArr ars), jrs,
      Some (JObj im) =>
      let jrs' := match jrs with
                  | None => Some []
                  | Some (JArr l) => all_some judgeRoundSchema l
                  | Some _ => None end in
      let hm := match map_get im "hmac" with
                | Some JNull => Some JNull
                | h => option_map JStr (str_of_len 64 h) end in
      match String.eqb ver "2.3.0", isDatetime ts, phase_of_name ph,
            all_some roundSchema ars, jrs', str_of_len 64 (map_get im "sha256"),
            hm with
      | true, true, Some _, Some ars', Some jrs', Some sh, Some h =>
        Some (JObj [("version", JStr ver); ("engineVersion", JStr ev);
                    ("sessionId", JStr sid); ("timestamp", JStr ts);
                    ("phase", JStr ph); ("config", cfg);
                    ("configHash", JStr ch); ("agentRounds", JArr ars');
                    ("judgeRounds", JArr jrs');
                    ("integrity", JObj [("sha256", JStr sh); ("hmac", h)])])
      | _, _, _, _, _, _, _ => None
      end
    | _, _, _, _, _, _, _, _, _, _ => None
    end
  | _ => None
  end.

Definition truthy_key (k : option string) : option string :=
  match k with Some s => if String.eqb s "" then None else Some s | None => None end.

(** [saveCheckpoint]: the text written to the file; [now] is the
    [new Date().toISOString()] of the call. *)
Definition saveCheckpoint (now : string) (data : CheckpointData) : Text :=
  let configHash := sha256 (canonicalizeJson (cd_config data)) in
  let checkpoint :=
    [("version", JStr Orchestrator.SPEC_VERSION); ("engineVersion", JStr ENGINE_VERSION);
     ("sessionId", JStr (cd_sessionId data)); ("timestamp", JStr now);
     ("phase", JStr (phase_name (cd_phase data))); ("config", cd_config data);
     ("configHash", JStr configHash);
     ("agentRounds", JArr (cd_agentRounds data));
     ("judgeRounds", JArr (cd_judgeRounds data))] in
  let contentHash := sha256 (canonicalizeJson (JObj checkpoint)) in
  let hmac := match truthy_key hmacKey with
              | Some k => JStr (hmacSha256 contentHash k)
              | None => JNull end in
  stringify (JObj (checkpoint ++
                   [("integrity", JObj [("sha256", JStr contentHash);
                                        ("hmac", hmac)])])).

(** The [contentHash] that [saveCheckpoint] computes for [data] at time
    [now], and signs when an HMAC key is set. *)
Definition savedContentHash (now : string) (data : CheckpointData) : string :=
  let configHash := sha256 (canonicalizeJson (cd_config data)) in
  sha256 (canonicalizeJson (JObj
    [("version", JStr Orchestrator.SPEC_VERSION); ("engineVersion", JStr ENGINE_VERSION);
     ("sessionId", JStr (cd_sessionId data)); ("timestamp", JStr now);
     ("phase", JStr (phase_name (cd_phase data))); ("config", cd_config data);
     ("configHash", JStr configHash);
     ("agentRounds", JArr (cd_agentRounds data));
     ("judgeRounds", JArr (cd_judgeRounds data))])).

Inductive LoadResult := loaded (d : CheckpointData) | load_error (e : CheckpointErr).

(** [loadCheckpoint] on the text read from the file. *)
Definition loadCheckpoint (content : Text) : LoadResult :=
  match parse content with
  | None => load_error (CheckpointError "Failed to parse checkpoint JSON")
  | Some parsed =>
    match checkpointSchema parsed with
    | Some (JObj m) =>
      match map_get m "version", map_get m "integrity" with
      | Some (JStr ver), Some (JObj integrity) =>
        if negb (String.eqb ver Orchestrator.SPEC_VERSION)
        then load_error (CheckpointVersionError ver Orchestrator.SPEC_VERSION) else
        let rest := filter (fun kv => negb (String.eqb (fst kv) "integrity")) m in
        let expectedHash := sha256 (canonicalizeJson (JObj rest)) in
        match map_get integrity "sha256", map_get integrity "hmac" with
        | Some (JStr stored), hm =>
          if negb (String.eqb stored expectedHash)
          then load_error (CheckpointIntegrityError
                             "Checkpoint integrity check failed") else
          let hmac_ok :=
            match truthy_key hmacKey, hm with
            | Some k, Some (JStr h) =>
                if String.eqb h "" then true
                else String.eqb h (hmacSha256 stored k)
            | _, _ => true
            end in
          if negb hmac_ok
          then load_error (CheckpointIntegrityError
                             "Checkpoint HMAC verification failed") else
          match map_get m "sessionId", map_get m "phase", map_get m "config",
                map_get m "agentRounds", map_get m "judgeRounds" with
          | Some (JStr sid), Some (JStr ph), Some cfg, Some (JArr ars),
            Some (JArr jrs) =>
            match phase_of_name ph with
            | Some p => loaded {| cd_sessionId := sid; cd_phase := p;
                                  cd_config := cfg; cd_agentRounds := ars;
                                  cd_judgeRounds := jrs |}
            | None => load_error (CheckpointError "Invalid checkpoint schema")
            end
          | _, _, _, _, _ => load_error (CheckpointError "Invalid checkpoint schema")
          end
        | _, _ => load_error (CheckpointError "Invalid checkpoint schema")
        end
      | _, _ => load_error (CheckpointError "Invalid checkpoint schema")
      end
    | _ => load_error (CheckpointError "Invalid checkpoint schema")
    end
  end.

End Files.

End Checkpoint.

(* ================================================================== *)
(** ** Concrete debates (the shape of Scenario A of the design) *)

Module Scenarios.
Import Orchestrator.

(** A JSON string literal. *)
Definition jq (s : string) : string :=
  String Json.dquote (String.append s (String Json.dquote EmptyString)).

(** A model reply that abstains and proposes [text] at [conf]. *)
Definition abstain_reply (text conf : string) : string :=
  String.concat "" ["{"; jq "vote"; ":"; jq "abstain"; ",";
                    jq "newPositionText"; ":"; jq text; ",";
                    jq "reasoning"; ":"; jq "Trade-offs weighed."; ",";
                    jq "confidence"; ":"; conf; "}"].

Definition texts : list string := ["Use Postgres"; "Use MySQL"; "Use SQLite"].
Definition confs : list string := ["0.8"; "0.7"; "0.6"].

Definition usage : TokenUsage :=
  {| prompt := 100; completion := 50; total := 150; estimated := false |}.

(** Agent [i] proposes the [i]-th text, in every round. *)
Definition calls (r i : nat) (id : string) : Engine.CallOutcome :=
  Engine.call_returns (abstain_reply (nth i texts "") (nth i confs "")) usage 1200.

(** A stand-in for the 12-character hash prefix. *)
Definition gen (t : string) : string :=
  substring 0 12 (String.append t "000000000000").

Definition now : string := "2026-01-14T00:00:00.000Z".

Definition cfg (judgePanel : bool) : DebateConfig :=
  {| agents := ["agent-a"; "agent-b"; "agent-c"];
     judges := ["judge-1"; "judge-2"; "judge-3"];
     judgePanelEnabled := judgePanel; maxAgentRounds := 2; maxJudgeRounds := 1;
     consensusThreshold := 67 # 100; judgeConsensusThreshold := 6 # 10;
     judgeMinConfidence := 7 # 10; judgePositionsScope := all_rounds |}.

Definition judge_eval (id pid : string) (c : Q) : JudgeEvaluation :=
  {| judgeId := id; j_round := 1; selectedPositionId := Some pid;
     scoresByPositionId := []; j_reasoning := "Weighed the positions.";
     j_confidence := c; j_tokenUsage := usage; j_latencyMs := 900;
     j_status := status_ok; j_error := None |}.

(** Three judges, each for a different position. *)
Definition judge_evals (r : nat) : list JudgeEvaluation :=
  [judge_eval "judge-1" (gen "Use Postgres") (9 # 10);
   judge_eval "judge-2" (gen "Use MySQL") (8 # 10);
   judge_eval "judge-3" (gen "Use SQLite") (7 # 10)].

Definition start (judgePanel : bool) : DebateSession :=
  newSession (cfg judgePanel) "session-1" "Which database?".

(** The session [buildOutput] is applied to. *)
Definition final_session (judgePanel : bool) : DebateSession :=
  match runPhases gen false now (cfg judgePanel) calls (fun _ _ => 0%nat)
          judge_evals (start judgePanel) with
  | Ok s => s
  | Throw _ => start judgePanel
  end.

(** With the judge panel: the session when the agent phase hands over to
    the judges, and the session after the judge phase. *)
Definition after_agents : DebateSession :=
  match bind (transitionTo now (start true) agent_debate)
             (runAgentDebatePhase gen false now (cfg true) calls (fun _ _ => 0%nat))
  with
  | Ok s => s
  | Throw _ => start true
  end.

Definition after_judges : DebateSession :=
  match runJudgeEvaluationPhase now (cfg true) judge_evals after_agents with
  | Ok s => s
  | Throw _ => after_agents
  end.

(** The responses of the first agent round. *)
Definition round1 : list AgentResponse :=
  match agentRounds (final_session false) with
  | r :: _ => responses r
  | [] => []
  end.

End Scenarios.

(* ================================================================== *)
(** ** Utilities ([utils.ts]) *)

Module Utils.

(** [estimateTokenCount]: [Math.ceil(text.length / 4)]. *)
Definition estimateTokenCount (text : string) : nat :=
  ((String.length text + 3) / 4)%nat.

(** [String.prototype.slice(start, end)]: a negative bound counts from the
    end of the string, bounds are clamped to [0, length], and an empty
    string comes out when [end] falls before [start]. *)
Definition slice (s : string) (start end_ : Z) : string :=
  let len := Z.of_nat (String.length s) in
  let norm k := if (k <? 0)%Z then Z.max (len + k) 0 else Z.min k len in
  let a := norm start in
  let b := norm end_ in
  substring (Z.to_nat a) (Z.to_nat (b - a)) s.

(** [ToIntegerOrInfinity] of a finite number, as [slice] applies it to
    its bounds: truncation toward zero. *)
Definition toIntegerOrInfinity (q : Q) : Z :=
  if Qle_bool 0 q then Qfloor q else Qceiling q.

(** [truncateToTokenBudget]; [maxTokens] is a finite JS number. *)
Definition truncateToTokenBudget (text : string) (maxTokens : Q) : string :=
  let maxChars := (maxTokens * 4)%Q in
  if Qle_bool (inject_Z (Z.of_nat (String.length text))) maxChars then text
  else slice text 0 (toIntegerOrInfinity (maxChars - 3)) ++ "...".

(** [calculateBackoff]; [random] is the value [Math.random()] returns. *)
Definition calculateBackoff (attempt : nat) (baseDelayMs maxDelayMs : Q)
    (withJitter : bool) (random : Q) : Q :=
  let exponentialDelay :=
    Qmin (baseDelayMs * inject_Z (2 ^ Z.of_nat attempt)) maxDelayMs in
  if negb withJitter then exponentialDelay
  else exponentialDelay * ((1 # 2) + random * (1 # 2)).

End Utils.

(* ================================================================== *)
(** ** Retries ([adapters/retry.ts]) *)

Module Retry.

(** What [adapter.call] throws: a value that is not an [Error], an
    [Error] that is not a [ModelError], a [ModelError] with its
    [retryable] flag, or a [ModelRateLimitError] (always retryable) with
    its optional [retryAfterMs]. *)
Inductive Thrown :=
  | thrown_non_error
  | thrown_error (message : string)
  | model_error (message : string) (retryable : bool)
  | rate_limit_error (retryAfterMs : option Q).

Inductive CallResult (A : Type) :=
  | call_ok (a : A)
  | call_throws (e : Thrown).
Arguments call_ok {A} a.
Arguments call_throws {A} e.

Inductive Outcome (A : Type) :=
  | returned (a : A)
  | rethrown (e : Thrown).
Arguments returned {A} a.
Arguments rethrown {A} e.

Definition DEFAULT_MAX_RETRY_ATTEMPTS : nat := 2.
Definition DEFAULT_RETRY_BASE_DELAY_MS : Q := 1000.
Definition DEFAULT_RETRY_MAX_DELAY_MS : Q := 8000.

(** The [RetryConfig] fields [withRetry] reads. *)
Record RetryConfig := mkRetryConfig {
  maxAttempts : option nat;
  baseDelayMs : option Q;
  maxDelayMs : option Q }.

Definition isRetryable (e : Thrown) : bool :=
  match e with
  | model_error _ r => r
  | rate_limit_error _ => true
  | _ => false
  end.

Section WithRetry.

Context {A : Type}.
Variable config : RetryConfig.
Variable deterministicMode : bool.
(** What the wrapped adapter's call does at attempt number [k]. *)
Variable call : nat -> CallResult A.
(** The [Math.random()] drawn by [calculateBackoff] at attempt [k]. *)
Variable random : nat -> Q.

Definition effectiveMaxAttempts : nat :=
  if deterministicMode then 0%nat
  else match maxAttempts config with
       | Some n => n | None => DEFAULT_MAX_RETRY_ATTEMPTS end.

Definition effectiveBase : Q :=
  match baseDelayMs config with Some d => d | None => DEFAULT_RETRY_BASE_DELAY_MS end.

Definition effectiveMax : Q :=
  match maxDelayMs config with Some d => d | None => DEFAULT_RETRY_MAX_DELAY_MS end.

(** The [for] loop of the wrapped [call] from attempt [attempt] on, with
    [n] iterations left: the outcome and the [onRetry(attempt + 1, error,
    delayMs)] notifications, each followed by [sleep(delayMs)]. *)
Fixpoint retry_loop (n attempt : nat) (lastError : option Thrown)
    : Outcome A * list (nat * Thrown * Q) :=
  match n with
  | O => (rethrown (match lastError with
                    | Some e => e
                    | None => thrown_error "Unexpected retry loop exit" end), [])
  | S n' =>
    match call attempt with
    | call_ok a => (returned a, [])
    | call_throws thrown_non_error => (rethrown thrown_non_error, [])
    | call_throws e =>
      if negb (isRetryable e) || (effectiveMaxAttempts <=? attempt)%nat
      then (rethrown e, [])
      else
        let delayMs := Utils.calculateBackoff attempt effectiveBase effectiveMax
                         (negb deterministicMode) (random attempt) in
        let delayMs := match e with
                       | rate_limit_error (Some ra) =>
                           if Qeq_bool ra 0 then delayMs else Qmax delayMs ra
                       | _ => delayMs end in
        let '(o, notes) := retry_loop n' (S attempt) (Some e) in
        (o, (S attempt, e, delayMs) :: notes)
    end
  end.

(** [withRetry(adapter, ...).call(options)]. *)
Definition withRetry_call : Outcome A * list (nat * Thrown * Q) :=
  retry_loop (S effectiveMaxAttempts) 0 None.

End WithRetry.

End Retry.

(* ================================================================== *)
(** ** Command line ([cli.ts]) *)

Module Cli.

Definition EXIT_CODE_SUCCESS : nat := 0.
Definition EXIT_CODE_ERROR : nat := 1.
Definition EXIT_CODE_DEADLOCK : nat := 2.

(** The exit code of the [debate] command after [runDebate] returned. *)
Definition exitCodeOf (p : DebatePhase) : nat :=
  if phase_eqb p consensus_reached then EXIT_CODE_SUCCESS
  else if phase_eqb p deadlock then EXIT_CODE_DEADLOCK
  else EXIT_CODE_ERROR.

End Cli.

(** Error responses and error evaluations recorded in a list of rounds. *)
Definition judge_round_errors (r : JudgeRoundResult) : nat :=
  List.length (filter (fun e => status_eqb (j_status e) status_error)
                 (evaluations r)).

Definition recorded_errors (ars : list RoundResult)
    (jrs : list JudgeRoundResult) : nat :=
  (list_sum (map (fun r => count_errors (responses r)) ars)
   + list_sum (map judge_round_errors jrs))%nat.

(** A response [collectPositions] may take the text of position [p]
    from: status ok, id [p] non-empty, text non-empty. *)
Definition offers (p : string) (resp : AgentResponse) : bool :=
  pid_eqb (positionId resp) (Some p) && status_eqb (status resp) status_ok
  && negb (String.eqb p "") && negb (String.eqb (positionText resp) "").

(* ================================================================== *)
(** ** [runDebate] with its file input and output ([orchestrator.ts]) *)

Module OrchestratorIO.
Import Orchestrator.

(** How the promise of [runDebate] is rejected: by an error of the state
    machine, or by the error of [loadCheckpoint] or of a file-system call
    ([mkdir], [writeFile]). *)
Inductive RunError (IOError : Type) :=
  | engine_error (e : EngineError)
  | io_error (e : IOError).
Arguments engine_error {IOError} e.
Arguments io_error {IOError} e.

(** An async computation that resolves to a value or is rejected. *)
Inductive Run (IOError A : Type) :=
  | run_ok (a : A)
  | run_throw (e : RunError IOError).
Arguments run_ok {IOError A} a.
Arguments run_throw {IOError A} e.

Definition run_bind {E A B} (m : Run E A) (k : A -> Run E B) : Run E B :=
  match m with run_ok a => k a | run_throw e => run_throw e end.

Notation "x <<- m ;;; k" := (run_bind m (fun x => k))
  (at level 61, m at next level, right associativity).

(** A synchronous step of the state machine inside an async function. *)
Definition lift {E A} (m : Result A) : Run E A :=
  match m with Ok a => run_ok a | Throw e => run_throw (engine_error e) end.

(** [m] agrees with the computation [p] that leaves the file I/O out:
    same value, same engine error, or an I/O error of its own. *)
Definition refines {E A} (m : Run E A) (p : Result A) : Prop :=
  match m with
  | run_ok a => p = Ok a
  | run_throw (engine_error e) => p = Throw e
  | run_throw (io_error _) => True
  end.

(** [m] is not rejected with an I/O error. *)
Definition no_io_error {E A} (m : Run E A) : Prop :=
  match m with run_throw (io_error _) => False | _ => True end.

(** The [CheckpointData] the orchestrator hands to [saveCheckpoint] and
    gets back from [loadCheckpoint]; [ck_topic] is the [topic] of its
    [config]. *)
Record CheckpointData := mkCheckpointData {
  ck_sessionId : string;
  ck_phase : DebatePhase;
  ck_config : DebateConfig;
  ck_topic : string;
  ck_agentRounds : list RoundResult;
  ck_judgeRounds : list JudgeRoundResult }.

(** [new StateManager({config: d.config, sessionId: d.sessionId,
    initialPhase: d.phase, agentRounds: d.agentRounds,
    judgeRounds: d.judgeRounds})]. *)
Definition restoreSession (d : CheckpointData) : DebateSession :=
  {| s_id := ck_sessionId d; topic := ck_topic d; phase := ck_phase d;
     config := ck_config d; agentRounds := ck_agentRounds d;
     judgeRounds := ck_judgeRounds d; finalVerdict := None;
     completedAt := None; totalErrors := 0 |}.

Section IO.

Variable IOError : Type.
Variable generatePositionId : string -> string.
Variable deterministicMode : bool.
Variable now : string.
(** The [config] argument of [runDebate]; [topic] is its [topic]. *)
Variable cfg : DebateConfig.
Variable topic : string.
Variable agent_calls : nat -> nat -> string -> Engine.CallOutcome.
Variable agent_elapsed : nat -> nat -> nat.
Variable judge_evals : nat -> list JudgeEvaluation.
(** [config.checkpointDir]. *)
Variable checkpointDir : option string.
(** [path.resolve(dir, file)]. *)
Variable resolve : string -> string -> string.
(** [saveCheckpoint(path, data)]: [None] when it resolves, [Some e] when
    its [mkdir] or [writeFile] rejects with [e]. *)
Variable saveCheckpoint : string -> CheckpointData -> option IOError.
(** [loadCheckpoint(path)]: the data, or the error it rejects with. *)
Variable loadCheckpoint : string -> CheckpointData + IOError.
(** [writeFile(path, JSON.stringify(output, null, 2), "utf-8")]. *)
Variable writeFile : string -> DebateOutput -> option IOError.

(** [getCheckpointPath]. *)
Definition getCheckpointPath (dir sessionId : string) : string :=
  resolve dir (sessionId ++ ".checkpoint.json").

(** The [if (config.checkpointDir)] block after each round. *)
Definition saveIfConfigured (s : DebateSession) : Run IOError unit :=
  match checkpointDir with
  | Some dir =>
    if String.eqb dir "" then run_ok tt else
    match saveCheckpoint (getCheckpointPath dir (s_id s))
            {| ck_sessionId := s_id s; ck_phase := phase s; ck_config := cfg;
               ck_topic := topic; ck_agentRounds := agentRounds s;
               ck_judgeRounds := judgeRounds s |} with
    | None => run_ok tt
    | Some e => run_throw (io_error e)
    end
  | None => run_ok tt
  end.

(** The [while] loop of [runAgentDebatePhase], with its checkpoint. *)
Fixpoint agent_loop (fuel : nat) (s : DebateSession)
    : Run IOError (bool * DebateSession) :=
  match fuel with
  | O => run_ok (false, s)
  | S f =>
    let round := S (List.length (agentRounds s)) in
    if phase_eqb (phase s) agent_debate && (round <=? maxAgentRounds cfg)%nat
    then
      let '(cid, ctext) :=
        if Nat.eqb round 1 then (None, None)
        else match getLastAgentRound s with
             | Some lr => match getNextCandidate lr with
                          | Some (i, t) => (Some i, Some t)
                          | None => (None, None)
                          end
             | None => (None, None)
             end in
      let rr := Engine.runDebateRound generatePositionId deterministicMode
                  (agents cfg) round cid ctext (consensusThreshold cfg)
                  (agent_calls round) (agent_elapsed round) now in
      let s := addAgentRound s rr in
      _ <<- saveIfConfigured s ;;;
      if consensusReached rr && truthy (consensusPositionId rr)
         && truthy_text (consensusPositionText rr) then
        s <<- lift (transitionTo now s consensus_reached) ;;;
        run_ok (true, setFinalVerdict s
                        {| v_positionId := match consensusPositionId rr with
                                           | Some p => p | None => "" end;
                           v_positionText := match consensusPositionText rr with
                                             | Some t => t | None => "" end;
                           v_confidence := yes_mean (responses rr);
                           source := agent_consensus |})
      else agent_loop f s
    else run_ok (false, s)
  end.

(** [runAgentDebatePhase]; after the loop it does no I/O. *)
Definition runAgentDebatePhase (s : DebateSession) : Run IOError DebateSession :=
  r <<- agent_loop (S (maxAgentRounds cfg)) s ;;;
  let '(returned, s) := r in
  if returned then run_ok s else
  let positions := collectPositions (agentRounds s) (judgePositionsScope cfg) in
  lift
    (if judgePanelEnabled cfg && (2 <=? List.length positions)%nat
        && (3 <=? List.length (judges cfg))%nat
     then transitionTo now s judge_evaluation
     else
       s <- transitionTo now s deadlock ;;
       match getLastAgentRound s with
       | Some lr =>
         match getNextCandidate lr with
         | Some (i, t) =>
             Ok (setFinalVerdict s {| v_positionId := i; v_positionText := t;
                                      v_confidence := 0; source := src_deadlock |})
         | None => Ok s
         end
       | None => Ok s
       end).

(** The [while] loop of [runJudgeEvaluationPhase], with its checkpoint. *)
Fixpoint judge_loop (fuel : nat) (positions : list (string * string))
    (s : DebateSession) : Run IOError (bool * DebateSession) :=
  match fuel with
  | O => run_ok (false, s)
  | S f =>
    let round := S (List.length (judgeRounds s)) in
    if phase_eqb (phase s) judge_evaluation && (round <=? maxJudgeRounds cfg)%nat
    then
      let rr := runJudgeRound cfg round positions (judge_evals round) now in
      let s := addJudgeRound s rr in
      _ <<- saveIfConfigured s ;;;
      if jr_consensusReached rr && truthy (jr_consensusPositionId rr) then
        let p := match jr_consensusPositionId rr with
                 | Some p => p | None => "" end in
        s <<- lift (transitionTo now s consensus_reached) ;;;
        run_ok (true, setFinalVerdict s
                        {| v_positionId := p;
                           v_positionText := match map_get positions p with
                                             | Some t => t | None => "" end;
                           v_confidence := jr_avgConfidence rr;
                           source := judge_consensus |})
      else judge_loop f positions s
    else run_ok (false, s)
  end.

(** [runJudgeEvaluationPhase]. *)
Definition runJudgeEvaluationPhase (s : DebateSession)
    : Run IOError DebateSession :=
  let positions := collectPositions (agentRounds s) (judgePositionsScope cfg) in
  r <<- judge_loop (S (maxJudgeRounds cfg)) positions s ;;;
  let '(returned, s) := r in
  if returned then run_ok s else lift (judgeDeadlock now positions s).

(** The state [runDebate] starts from: restored from [resumeFrom] when
    it is set, fresh otherwise ([freshId] is the [generateSessionId()] of
    the new [StateManager]). *)
Definition startSession (resumeFrom : option string) (freshId : string)
    : Run IOError DebateSession :=
  match resumeFrom with
  | Some path =>
    if String.eqb path "" then run_ok (newSession cfg freshId topic) else
    match loadCheckpoint path with
    | inl d => run_ok (restoreSession d)
    | inr e => run_throw (io_error e)
    end
  | None => run_ok (newSession cfg freshId topic)
  end.

(** [runDebate] from the state it starts from: the phases, [buildOutput],
    and the output file when [outputPath] is set. *)
Definition runFrom (outputPath : option string) (s : DebateSession)
    : Run IOError DebateOutput :=
  s <<- (if phase_eqb (phase s) init then lift (transitionTo now s agent_debate)
         else run_ok s) ;;;
  s <<- (if phase_eqb (phase s) agent_debate then runAgentDebatePhase s
         else run_ok s) ;;;
  s <<- (if phase_eqb (phase s) judge_evaluation then runJudgeEvaluationPhase s
         else run_ok s) ;;;
  let output := buildOutput s in
  match outputPath with
  | Some path =>
    if String.eqb path "" then run_ok output else
    match writeFile path output with
    | None => run_ok output
    | Some e => run_throw (io_error e)
    end
  | None => run_ok output
  end.

(** [runDebate(config, {outputPath, resumeFrom})]. *)
Definition runDebate (resumeFrom outputPath : option string) (freshId : string)
    : Run IOError DebateOutput :=
  s <<- startSession resumeFrom freshId ;;;
  runFrom outputPath s.

End IO.

End OrchestratorIO.

(* ================================================================== *)
(** * Properties *)

Open Scope nat_scope.

Module AgentConsensusFacts.
Import AgentConsensus.

Lemma length_filter_filter {A} (p q : A -> bool) (l : list A) :
  List.length (filter p (filter q l)) =
  List.length (filter (fun x => q x && p x) l).
Proof.
  induction l as [|a l IH]; simpl; [reflexivity|].
  destruct (q a); simpl; [destruct (p a); simpl|]; rewrite ?IH; reflexivity.
Qed.

Lemma eligible_plus_errors (l : list AgentResponse) :
  List.length (filter is_eligible l) + count_errors l = List.length l.
Proof.
  unfold count_errors; induction l as [|a l IH]; simpl; [reflexivity|].
  unfold is_eligible in *; destruct (status a); simpl; lia.
Qed.

Lemma vote_counts_le (cand : PositionId) (l : list AgentResponse) :
  List.length (filter (is_yes_for cand) l)
  + List.length (filter (fun r => vote_eqb (vote r) no) l)
  + List.length (filter (fun r => vote_eqb (vote r) abstain) l)
  <= List.length l.
Proof.
  induction l as [|a l IH]; simpl; [lia|].
  unfold is_yes_for at 1; destruct (vote a); simpl;
    try destruct (pid_eqb (positionId a) cand); simpl; lia.
Qed.

Ltac split_ifs :=
  repeat match goal with
         | |- context [if ?b then _ else _] =>
             let E := fresh "E" in destruct b eqn:E
         end.

(** The tally's fields, on every path of [detectAgentConsensus]. *)
Lemma detect_tally (rs : list AgentResponse) (cand : PositionId) (thr : Q) :
  let t := voteTally (detectAgentConsensus rs cand thr) in
  let eligible := filter is_eligible rs in
  t_yes t = List.length (filter (is_yes_for cand) eligible) /\
  t_no t = List.length (filter (fun r => vote_eqb (vote r) no) eligible) /\
  t_abstain t =
    List.length (filter (fun r => vote_eqb (vote r) abstain) eligible) /\
  t_total t = List.length rs /\
  t_eligible t = List.length eligible /\
  t_votingTotal t = t_yes t + t_no t.
Proof.
  unfold detectAgentConsensus; cbv zeta; split_ifs; simpl; repeat split.
Qed.

Lemma length_filter_ext {A} (f g : A -> bool) (l : list A) :
  (forall x, f x = g x) ->
  List.length (filter f l) = List.length (filter g l).
Proof.
  intro H; induction l as [|a l IH]; simpl; [reflexivity|].
  rewrite H; destruct (g a); simpl; rewrite IH; reflexivity.
Qed.

Lemma pid_eqb_None (p : PositionId) : pid_eqb p None = true <-> p = None.
Proof. destruct p; simpl; split; congruence. Qed.

(** [Math.ceil(n * 1) = n]. *)
Lemma ceil_mul_one (n : nat) (thr : Q) :
  (thr == 1)%Q -> ceil_mul n thr = Z.of_nat n.
Proof.
  intro H; unfold ceil_mul.
  rewrite (Qceiling_comp _ (inject_Z (Z.of_nat n))).
  - apply Qceiling_Z.
  - rewrite H; apply Qmult_1_r.
Qed.

Lemma In_insert_by {A} (cmp : A -> A -> comparison) (x a : A) (l : list A) :
  In x (insert_by cmp a l) <-> a = x \/ In x l.
Proof.
  induction l as [|y l IH]; simpl; [tauto|].
  destruct (cmp a y); simpl; try rewrite IH; intuition.
Qed.

Lemma In_sort_by {A} (cmp : A -> A -> comparison) (x : A) (l : list A) :
  In x (sort_by cmp l) <-> In x l.
Proof.
  induction l as [|a l IH]; simpl; [tauto|].
  rewrite In_insert_by, IH; intuition.
Qed.

Lemma insert_by_not_nil {A} (cmp : A -> A -> comparison) (a : A) (l : list A) :
  insert_by cmp a l <> [].
Proof. destruct l; simpl; [|destruct (cmp a a0)]; discriminate. Qed.

Lemma sort_by_nil {A} (cmp : A -> A -> comparison) (l : list A) :
  sort_by cmp l = [] <-> l = [].
Proof.
  destruct l; simpl; split; intro H; try reflexivity; try discriminate.
  exfalso; exact (insert_by_not_nil cmp a (sort_by cmp l) H).
Qed.

Lemma group_add_keys (m : list (string * (string * list Q))) p t c k :
  In k (map fst (group_add m p t c)) <-> In k (map fst m) \/ p = k.
Proof.
  induction m as [|[k' [t' cs]] m IH]; simpl; [tauto|].
  destruct (String.eqb k' p) eqn:E; simpl.
  - apply String.eqb_eq in E; subst; tauto.
  - rewrite IH; tauto.
Qed.

Lemma group_add_not_nil (m : list (string * (string * list Q))) p t c :
  group_add m p t c <> [].
Proof. destruct m as [|[k [t' cs]] m]; simpl; [|destruct (String.eqb k p)]; discriminate. Qed.

Definition group_step (m : list (string * (string * list Q))) (r : AgentResponse) :=
  match positionId r with
  | Some p => group_add m p (positionText r) (confidence r)
  | None => m
  end.

Lemma group_fold_keys (l : list AgentResponse) m k :
  In k (map fst (fold_left group_step l m)) ->
  In k (map fst m) \/ exists r, In r l /\ positionId r = Some k.
Proof.
  revert m; induction l as [|r l IH]; simpl; intros m H; [tauto|].
  destruct (IH _ H) as [Hk|(r' & Hr' & Hp)]; [|right; eauto].
  unfold group_step in Hk; destruct (positionId r) as [p|] eqn:Ep; [|tauto].
  apply group_add_keys in Hk; destruct Hk as [Hk | ->]; [tauto|right; eauto].
Qed.

Lemma group_fold_not_nil (l : list AgentResponse) m :
  m <> [] -> fold_left group_step l m <> [].
Proof.
  revert m; induction l as [|r l IH]; simpl; intros m H; [exact H|].
  apply IH; unfold group_step; destruct (positionId r); [apply group_add_not_nil|exact H].
Qed.

Lemma filter_nil_forall {A} (f : A -> bool) (l : list A) :
  filter f l = [] <-> forall x, In x l -> f x = false.
Proof.
  induction l as [|a l IH]; simpl; [split; [contradiction|reflexivity]|].
  destruct (f a) eqn:E; split; intro H.
  - discriminate.
  - rewrite (H a (or_introl eq_refl)) in E; discriminate.
  - intros x [<-|Hx]; [exact E|]; apply IH; assumption.
  - apply IH; intros x Hx; apply H; right; exact Hx.
Qed.

Lemma selectable_spec (r : AgentResponse) :
  selectable r = true <->
  status r = status_ok /\ vote r <> abstain /\ positionId r <> None.
Proof.
  unfold selectable; destruct (status r), (vote r), (positionId r); simpl;
    intuition congruence.
Qed.

End AgentConsensusFacts.

(** ** C1 *)

(** Claim C1, as stated: [total = yes + no + abstain] for every response
    list.  A single error response (the engine's own error response) is
    counted in [total] but in none of [yes], [no] and [abstain]. *)
Lemma C1_counterexample :
  ~ (forall (rs : list AgentResponse) (cand : PositionId) (thr : Q),
       let t := voteTally (AgentConsensus.detectAgentConsensus rs cand thr) in
       t_total t = t_yes t + t_no t + t_abstain t).
Proof.
  intro H.
  specialize (H [createErrorAgentResponse "agent-1" 2 "timeout"] None (67 # 100)%Q).
  vm_compute in H. discriminate H.
Qed.

(** Claim C1, amended: for every response list and candidate, the tally of
    [detectAgentConsensus] has [total] = number of responses = eligible
    (status ok) + error responses; [yes], [no] and [abstain] count eligible
    responses only, so an error response (vote abstain) is not counted in
    [abstain]; [votingTotal = yes + no]; [yes + no + abstain <= eligible];
    hence [votingTotal <= eligible]. *)
Theorem C1_tally_amended (rs : list AgentResponse) (cand : PositionId) (thr : Q) :
  let t := voteTally (AgentConsensus.detectAgentConsensus rs cand thr) in
  t_total t = List.length rs /\
  t_total t = t_eligible t + count_errors rs /\
  t_abstain t = List.length (filter (fun r => status_eqb (status r) status_ok
                                 && vote_eqb (vote r) abstain) rs) /\
  t_votingTotal t = t_yes t + t_no t /\
  t_yes t + t_no t + t_abstain t <= t_eligible t /\
  t_votingTotal t <= t_eligible t.
Proof.
  pose proof (AgentConsensusFacts.detect_tally rs cand thr) as D.
  cbv zeta in *. destruct D as (Hy & Hn & Ha & Ht & He & Hv).
  pose proof (AgentConsensusFacts.eligible_plus_errors rs).
  pose proof (AgentConsensusFacts.vote_counts_le cand
                (filter AgentConsensus.is_eligible rs)).
  repeat split; try lia.
  rewrite Ha; apply AgentConsensusFacts.length_filter_filter.
Qed.

(** ** C3 *)

(** Claim C3: [detectAgentConsensus] counts a yes only from an eligible
    response voting yes whose positionId equals the candidate, and no and
    abstain only from eligible responses; it reports consensus reached iff
    the candidate is non-null, [votingTotal > 0] and
    [yes >= ceil(votingTotal * threshold)]; when reached, the method is
    unanimous iff [yes = votingTotal] and supermajority otherwise; with
    threshold 1 consensus is reached only when every voting participant
    votes yes. *)
Theorem C3_consensus_rule (rs : list AgentResponse) (cand : PositionId) (thr : Q) :
  let c := AgentConsensus.detectAgentConsensus rs cand thr in
  let t := voteTally c in
  t_yes t = List.length (filter (fun r => status_eqb (status r) status_ok
              && vote_eqb (vote r) yes && pid_eqb (positionId r) cand) rs) /\
  t_no t = List.length (filter (fun r => status_eqb (status r) status_ok
              && vote_eqb (vote r) no) rs) /\
  t_abstain t = List.length (filter (fun r => status_eqb (status r) status_ok
              && vote_eqb (vote r) abstain) rs) /\
  t_votingTotal t = t_yes t + t_no t /\
  (reached c = true <->
     cand <> None /\ 0 < t_votingTotal t /\
     (Z.of_nat (t_yes t)
        >= Qceiling (inject_Z (Z.of_nat (t_votingTotal t)) * thr))%Z) /\
  (reached c = true ->
     method c = if Nat.eqb (t_yes t) (t_votingTotal t)
                then unanimous else supermajority) /\
  ((thr == 1)%Q -> reached c = true ->
     t_yes t = t_votingTotal t /\ method c = unanimous).
Proof.
  pose proof (AgentConsensusFacts.detect_tally rs cand thr) as D.
  cbv zeta in *. destruct D as (Hy & Hn & Ha & Ht & He & Hv).
  assert (Ry : t_yes (voteTally (AgentConsensus.detectAgentConsensus rs cand thr))
     = List.length (filter (fun r => status_eqb (status r) status_ok
              && vote_eqb (vote r) yes && pid_eqb (positionId r) cand) rs)).
  { rewrite Hy, AgentConsensusFacts.length_filter_filter.
    apply AgentConsensusFacts.length_filter_ext; intro x.
    unfold AgentConsensus.is_eligible, AgentConsensus.is_yes_for.
    apply andb_assoc. }
  assert (Rn : t_no (voteTally (AgentConsensus.detectAgentConsensus rs cand thr))
     = List.length (filter (fun r => status_eqb (status r) status_ok
              && vote_eqb (vote r) no) rs)).
  { rewrite Hn; apply AgentConsensusFacts.length_filter_filter. }
  assert (Ra : t_abstain (voteTally (AgentConsensus.detectAgentConsensus rs cand thr))
     = List.length (filter (fun r => status_eqb (status r) status_ok
              && vote_eqb (vote r) abstain) rs)).
  { rewrite Ha; apply AgentConsensusFacts.length_filter_filter. }
  split; [exact Ry|]. split; [exact Rn|]. split; [exact Ra|].
  split; [exact Hv|].
  clear Ry Rn Ra Ht He Ha Hn Hy Hv.
  unfold AgentConsensus.detectAgentConsensus in *; cbv zeta in *.
  destruct (pid_eqb cand None) eqn:E1; simpl orb.
  - apply AgentConsensusFacts.pid_eqb_None in E1; subst cand; simpl.
    split; [split; [discriminate|intros (C & _); congruence]|].
    split; intros; discriminate.
  - assert (Hc : cand <> None)
      by (intro; subst; discriminate).
    destruct (Nat.eqb _ 0) eqn:E2; simpl.
    + apply Nat.eqb_eq in E2.
      split; [split; [discriminate|intros (_ & P & _); lia]|].
      split; intros; discriminate.
    + apply Nat.eqb_neq in E2.
      destruct (Z.geb _ _) eqn:E3; simpl.
      * apply Z.geb_le in E3.
        split; [split; [intros _; unfold AgentConsensus.ceil_mul in E3; repeat split; auto; lia|reflexivity]|].
        split; [reflexivity|].
        intros Hthr _.
        rewrite AgentConsensusFacts.ceil_mul_one in E3 by exact Hthr.
        assert (Heq : List.length (filter (AgentConsensus.is_yes_for cand)
                         (filter AgentConsensus.is_eligible rs))
                      = List.length (filter (AgentConsensus.is_yes_for cand)
                         (filter AgentConsensus.is_eligible rs))
                        + List.length (filter (fun r => vote_eqb (vote r) no)
                         (filter AgentConsensus.is_eligible rs))) by lia.
        rewrite <- Heq, Nat.eqb_refl. split; reflexivity.
      * rewrite Z.geb_leb, Z.leb_gt in E3.
        split; [split; [discriminate|intros (_ & _ & P); unfold AgentConsensus.ceil_mul in E3; lia]|].
        split; intros; discriminate.
Qed.

(** ** C7 *)

(** Claim C7: [transitionTo] succeeds exactly on the edges
    init -> agent_debate, agent_debate -> consensus_reached | judge_evaluation
    | deadlock and judge_evaluation -> consensus_reached | deadlock; on any
    other request (in particular out of a terminal phase) it throws
    [InvalidStateTransitionError] and yields no new session, so the
    manager's session and its phase stay as they were.  On success the new
    phase is the requested one, every other field is kept, and [completedAt]
    is set to the current time on entry to consensus_reached or deadlock and
    kept otherwise. *)
Theorem C7_transitions (now : string) (s : DebateSession) (p : DebatePhase) :
  ((exists s', transitionTo now s p = Ok s') <->
     In (phase s, p)
       [(init, agent_debate); (agent_debate, consensus_reached);
        (agent_debate, judge_evaluation); (agent_debate, deadlock);
        (judge_evaluation, consensus_reached); (judge_evaluation, deadlock)]) /\
  (forall e, transitionTo now s p = Throw e ->
     e = InvalidStateTransitionError (phase s) p) /\
  ((phase s = consensus_reached \/ phase s = deadlock) ->
     transitionTo now s p = Throw (InvalidStateTransitionError (phase s) p)) /\
  (forall s', transitionTo now s p = Ok s' ->
     phase s' = p /\
     s' = with_phase s p (completedAt s') /\
     ((p = consensus_reached \/ p = deadlock) -> completedAt s' = Some now) /\
     ((p <> consensus_reached /\ p <> deadlock) ->
        completedAt s' = completedAt s)).
Proof.
  unfold transitionTo.
  destruct (phase s) eqn:Hp, p; simpl;
    repeat split; intros;
    repeat match goal with
           | H : exists _, _ |- _ => destruct H
           | H : _ /\ _ |- _ => destruct H
           | H : _ \/ _ |- _ => destruct H
           | H : (_, _) = (_, _) |- _ => inversion H; clear H
           | H : Ok _ = Ok _ |- _ => inversion H; clear H; subst
           | H : Throw _ = Throw _ |- _ => inversion H; clear H; subst
           end;
    try discriminate; try contradiction; try congruence; eauto; simpl;
    try reflexivity;
    repeat (solve [left; reflexivity] || right).
Qed.

(** ** C2 *)

(** Claim C2, as stated, fails on the first round of a concrete debate:
    three agents return well-formed replies that abstain and propose
    "Use Postgres", "Use MySQL" and "Use SQLite" at 0.8, 0.7 and 0.6.  All
    three responses are eligible, abstain and carry distinct non-null
    position ids, yet [selectNextCandidate] returns no candidate, and the
    orchestrator runs round 2 with a null candidate. *)
Lemma C2_counterexample :
  Forall (fun r => status r = status_ok /\ vote r = abstain) Scenarios.round1 /\
  map positionId Scenarios.round1 =
    [Some "Use Postgres"; Some "Use MySQL000"; Some "Use SQLite00"] /\
  map confidence Scenarios.round1 = [8 # 10; 7 # 10; 6 # 10]%Q /\
  AgentConsensus.selectNextCandidate Scenarios.round1 = None /\
  map candidatePositionId (agentRounds (Scenarios.final_session false))
    = [None; None].
Proof.
  vm_compute.
  repeat split; repeat constructor.
Qed.

(** Claim C2, amended: [selectNextCandidate] considers only eligible
    responses that do not abstain and carry a non-null positionId; it
    returns null exactly when there is none (so in particular when every
    eligible response abstains, whatever positions they propose), and
    otherwise returns a position proposed by one of them. *)
Theorem C2_candidate_amended (rs : list AgentResponse) :
  (AgentConsensus.selectNextCandidate rs = None <->
     forall r, In r rs ->
       ~ (status r = status_ok /\ vote r <> abstain /\ positionId r <> None)) /\
  ((forall r, In r rs -> status r = status_ok -> vote r = abstain) ->
     AgentConsensus.selectNextCandidate rs = None) /\
  (forall c, AgentConsensus.selectNextCandidate rs = Some c ->
     exists r, In r rs /\ status r = status_ok /\ vote r <> abstain /\
               positionId r = Some (AgentConsensus.ps_positionId c)).
Proof.
  assert (Hnone : AgentConsensus.selectNextCandidate rs = None <->
                  filter AgentConsensus.selectable rs = []).
  { unfold AgentConsensus.selectNextCandidate.
    destruct (filter AgentConsensus.selectable rs) as [|r0 l] eqn:E;
      [split; reflexivity|].
    split; [|discriminate]; intro H.
    assert (Hr0 : AgentConsensus.selectable r0 = true).
    { assert (In r0 (filter AgentConsensus.selectable rs)) by (rewrite E; left; reflexivity).
      apply filter_In in H0; tauto. }
    apply AgentConsensusFacts.selectable_spec in Hr0.
    destruct Hr0 as (_ & _ & Hp).
    exfalso; revert H.
    change (AgentConsensus.group_by_position (r0 :: l)) with
      (fold_left AgentConsensusFacts.group_step l
         (AgentConsensusFacts.group_step [] r0)).
    destruct (fold_left AgentConsensusFacts.group_step l
                (AgentConsensusFacts.group_step [] r0)) as [|g gs] eqn:G.
    - exfalso; revert G; apply AgentConsensusFacts.group_fold_not_nil.
      unfold AgentConsensusFacts.group_step; destruct (positionId r0);
        [discriminate|contradiction].
    - simpl map.
      destruct (AgentConsensus.sort_by AgentConsensus.score_cmp
                  (AgentConsensus.score_of g :: map AgentConsensus.score_of gs))
        as [|h t] eqn:S; [|discriminate].
      apply AgentConsensusFacts.sort_by_nil in S; discriminate. }
  split; [|split].
  - rewrite Hnone, AgentConsensusFacts.filter_nil_forall.
    split; intros H r Hr.
    + rewrite <- AgentConsensusFacts.selectable_spec; rewrite (H r Hr); discriminate.
    + destruct (AgentConsensus.selectable r) eqn:E; [|reflexivity].
      exfalso; apply (H r Hr); apply AgentConsensusFacts.selectable_spec; exact E.
  - intro H; apply Hnone, AgentConsensusFacts.filter_nil_forall; intros r Hr.
    destruct (AgentConsensus.selectable r) eqn:E; [|reflexivity].
    apply AgentConsensusFacts.selectable_spec in E; destruct E as (E1 & E2 & _).
    exfalso; apply E2, H; assumption.
  - intros c Hc.
    unfold AgentConsensus.selectNextCandidate in Hc.
    destruct (filter AgentConsensus.selectable rs) as [|r0 l] eqn:E;
      [discriminate|].
    assert (Hin : In c (AgentConsensus.sort_by AgentConsensus.score_cmp
                         (map AgentConsensus.score_of
                            (AgentConsensus.group_by_position (r0 :: l))))).
    { destruct (AgentConsensus.sort_by _ _) as [|h t]; [discriminate|].
      simpl in Hc; inversion Hc; left; reflexivity. }
    apply AgentConsensusFacts.In_sort_by, in_map_iff in Hin.
    destruct Hin as ([k [t cs]] & Hsc & Hg).
    assert (Hk : In k (map fst (AgentConsensus.group_by_position (r0 :: l))))
      by (apply in_map_iff; exists (k, (t, cs)); auto).
    apply AgentConsensusFacts.group_fold_keys in Hk.
    destruct Hk as [[]|(r & Hr & Hp)].
    rewrite <- E in Hr; apply filter_In in Hr; destruct Hr as (Hr & Hs).
    apply AgentConsensusFacts.selectable_spec in Hs.
    exists r; subst c; simpl; tauto.
Qed.

(** ** C9 *)

(** Claim C9: a session that ends in a terminal phase with no final verdict
    is emitted with the fixed verdict: empty positionId and positionText,
    confidence 0, source deadlock. *)
Theorem C9_default_verdict (s : DebateSession)
    (Hterm : phase s = consensus_reached \/ phase s = deadlock)
    (Hnone : finalVerdict s = None) :
  Orchestrator.out_finalVerdict (Orchestrator.buildOutput s) =
    {| v_positionId := ""; v_positionText := ""; v_confidence := 0%Q;
       source := src_deadlock |} /\
  v_positionId (Orchestrator.out_finalVerdict (Orchestrator.buildOutput s)) = "" /\
  Orchestrator.o_phase (Orchestrator.session (Orchestrator.buildOutput s))
    = phase s.
Proof.
  unfold Orchestrator.buildOutput; simpl; rewrite Hnone; simpl.
  repeat split; reflexivity.
Qed.

(** C9 holds of a reachable session: the debate of [Scenarios] without a
    judge panel deadlocks after its two all-abstain rounds and sets no
    verdict. *)
Lemma C9_witness :
  (phase (Scenarios.final_session false) = consensus_reached \/
   phase (Scenarios.final_session false) = deadlock) /\
  finalVerdict (Scenarios.final_session false) = None /\
  Orchestrator.out_finalVerdict (Orchestrator.buildOutput (Scenarios.final_session false)) =
    {| v_positionId := ""; v_positionText := ""; v_confidence := 0%Q;
       source := src_deadlock |}.
Proof.
  assert (Ht : phase (Scenarios.final_session false) = consensus_reached \/
               phase (Scenarios.final_session false) = deadlock)
    by (right; vm_compute; reflexivity).
  assert (Hn : finalVerdict (Scenarios.final_session false) = None)
    by (vm_compute; reflexivity).
  split; [exact Ht|]. split; [exact Hn|].
  exact (proj1 (C9_default_verdict (Scenarios.final_session false) Ht Hn)).
Defined.

(** ** C10 *)

(** Claim C10: in every output [runDebate] returns, [judgePanel.final] is
    non-null exactly when at least one judge round was run, and then its
    [dissents] is the empty list, whatever the judges voted. *)
Theorem C10_final_no_dissents (gen : string -> string) (det : bool)
    (now : string) (cfg : DebateConfig)
    (calls : nat -> nat -> string -> Engine.CallOutcome)
    (elapsed : nat -> nat -> nat) (evals : nat -> list JudgeEvaluation)
    (s0 : DebateSession) :
  match Orchestrator.runDebate gen det now cfg calls elapsed evals s0 with
  | Ok out =>
      match Orchestrator.final (Orchestrator.judgePanel out) with
      | Some f => Orchestrator.jp_rounds (Orchestrator.judgePanel out) <> [] /\
                  Orchestrator.f_dissents f = []
      | None => Orchestrator.jp_rounds (Orchestrator.judgePanel out) = []
      end
  | Throw _ => True
  end.
Proof.
  unfold Orchestrator.runDebate.
  destruct (Orchestrator.runPhases gen det now cfg calls elapsed evals s0)
    as [s|e]; simpl; [|exact I].
  unfold Orchestrator.buildOutput; simpl.
  destruct (judgeRounds s); simpl; [reflexivity|].
  split; [discriminate|reflexivity].
Qed.

(** ** C5 *)

(** Claim C5, as stated, fails on the valid JSON text consisting of the
    string literal holding the two characters [{}]: it parses to that
    string, but [repairJson] cuts out the brace span, whose parse is the
    empty object. *)
Lemma C5_counterexample :
  let x := String Json.dquote (String.append "{}" (String Json.dquote EmptyString)) in
  Json.JSON_parse x = Some (Json.JStr "{}") /\
  Json.repairJson x = "{}" /\
  Json.JSON_parse (Json.repairJson x) = Some (Json.JObj []) /\
  ~ (forall (y : string) (v : Json.json), Json.JSON_parse y = Some v ->
       Json.JSON_parse (Json.repairJson y) = Some v).
Proof.
  cbv zeta.
  assert (P : Json.JSON_parse
                (String Json.dquote (String.append "{}" (String Json.dquote EmptyString)))
              = Some (Json.JStr "{}")) by (vm_compute; reflexivity).
  assert (R : Json.JSON_parse (Json.repairJson
                (String Json.dquote (String.append "{}" (String Json.dquote EmptyString))))
              = Some (Json.JObj [])) by (vm_compute; reflexivity).
  split; [exact P|]. split; [vm_compute; reflexivity|]. split; [exact R|].
  intro H. specialize (H _ _ P). rewrite R in H. discriminate H.
Qed.

(** Claim C5, amended: [parseJsonWithRepair] returns the value of
    [JSON.parse] whenever the raw text parses, with or without repair
    allowed: the repair is applied only after a parse failure. *)
Theorem C5_parse_before_repair (x : string) (v : Json.json) (allowRepair : bool)
    (H : Json.JSON_parse x = Some v) :
  Json.parseJsonWithRepair x allowRepair = Json.parse_success v.
Proof. unfold Json.parseJsonWithRepair; rewrite H; reflexivity. Qed.

(** On the text of [C5_counterexample] with repair allowed, the parse
    keeps the string. *)
Lemma C5_witness :
  let x := String Json.dquote (String.append "{}" (String Json.dquote EmptyString)) in
  Json.JSON_parse x = Some (Json.JStr "{}") /\
  Json.parseJsonWithRepair x true = Json.parse_success (Json.JStr "{}").
Proof.
  cbv zeta.
  assert (P : Json.JSON_parse
                (String Json.dquote (String.append "{}" (String Json.dquote EmptyString)))
              = Some (Json.JStr "{}")) by (vm_compute; reflexivity).
  split; [exact P|].
  exact (C5_parse_before_repair _ _ true P).
Defined.

Module EngineFacts.
Import Engine.

Ltac destruct_runAgent :=
  unfold runAgent;
  repeat match goal with
         | |- context [match ?o with call_throws _ => _ | call_returns _ _ _ => _ end] =>
             destruct o
         | |- context [match Json.parseJsonWithRepair ?c ?b with _ => _ end] =>
             destruct (Json.parseJsonWithRepair c b)
         | |- context [match validateAgentResponse ?d with _ => _ end] =>
             destruct (validateAgentResponse d)
         | |- context [let '(_, _) := ?m in _] => destruct m
         end.

Lemma runAgent_agentId gen det a round ctext o e :
  agentId (runAgent gen det a round ctext o e) = a.
Proof. destruct_runAgent; reflexivity. Qed.

Lemma runAgent_error gen det a round ctext o e :
  status (runAgent gen det a round ctext o e) = status_error ->
  vote (runAgent gen det a round ctext o e) = abstain /\
  positionId (runAgent gen det a round ctext o e) = None.
Proof. destruct_runAgent; simpl; intro H; try discriminate; split; reflexivity. Qed.

Lemma map_combine_seq {B} (f : nat * string -> B) (g : B -> string)
    (Hg : forall i a, g (f (i, a)) = a) (l : list string) (k : nat) :
  map g (map f (combine (seq k (List.length l)) l)) = l.
Proof.
  revert k; induction l as [|a l IH]; intro k; simpl; [reflexivity|].
  rewrite Hg, IH; reflexivity.
Qed.

Lemma length_combine_seq (l : list string) (k : nat) :
  List.length (combine (seq k (List.length l)) l) = List.length l.
Proof.
  revert k; induction l as [|a l IH]; intro k; simpl; [reflexivity|].
  rewrite IH; reflexivity.
Qed.

Lemma nth_error_combine_seq (l : list string) (k i : nat) (a : string) :
  nth_error l i = Some a ->
  nth_error (combine (seq k (List.length l)) l) i = Some (k + i, a).
Proof.
  revert k i; induction l as [|b l IH]; intros k i H; [destruct i; discriminate|].
  destruct i as [|i]; simpl in *.
  - inversion H; subst; rewrite Nat.add_0_r; reflexivity.
  - rewrite (IH (S k) i H); f_equal; f_equal; lia.
Qed.

End EngineFacts.

(** ** C8 *)

(** Claim C8: [runDebateRound] over the configured agents returns one
    response per agent, in configuration order, whatever their calls do; an
    agent whose call throws gets an error response (status error, vote
    abstain, null positionId, the thrown message), and every error response
    of the round, whatever its cause, abstains with a null positionId. *)
Theorem C8_round_cardinality (gen : string -> string) (det : bool)
    (agents : list string) (round : nat) (cid : PositionId)
    (ctext : option string) (thr : Q) (calls : nat -> string -> Engine.CallOutcome)
    (elapsed : nat -> nat) (now : string) :
  let rs := responses (Engine.runDebateRound gen det agents round cid ctext thr
                         calls elapsed now) in
  List.length rs = List.length agents /\
  map agentId rs = agents /\
  (forall i a msg, nth_error agents i = Some a ->
     calls i a = Engine.call_throws msg ->
     exists r, nth_error rs i = Some r /\ agentId r = a /\
       status r = status_error /\ vote r = abstain /\ positionId r = None /\
       error r = Some msg) /\
  (forall r, In r rs -> status r = status_error ->
     vote r = abstain /\ positionId r = None).
Proof.
  cbv zeta; unfold Engine.runDebateRound; simpl responses.
  split; [|split; [|split]].
  - rewrite length_map; apply EngineFacts.length_combine_seq.
  - apply EngineFacts.map_combine_seq.
    intros i a; apply EngineFacts.runAgent_agentId.
  - intros i a msg Ha Hc.
    rewrite nth_error_map, (EngineFacts.nth_error_combine_seq _ 0 i a Ha).
    simpl. rewrite Hc.
    eexists; split; [reflexivity|]; simpl; repeat split.
  - intros r Hr Hs.
    apply in_map_iff in Hr; destruct Hr as ([i a] & <- & _).
    apply EngineFacts.runAgent_error; exact Hs.
Qed.

Module JudgeFacts.

Definition cnt (m : list (string * nat)) (k : string) : nat :=
  match map_get m k with Some n => n | None => 0 end.

Lemma votes_add_keys (m : list (string * nat)) p k :
  In k (map fst (votes_add m p)) <-> In k (map fst m) \/ p = k.
Proof.
  induction m as [|[k' n] m IH]; simpl; [tauto|].
  destruct (String.eqb k' p) eqn:E; simpl.
  - apply String.eqb_eq in E; subst; tauto.
  - rewrite IH; tauto.
Qed.

Lemma votes_add_nodup (m : list (string * nat)) p :
  NoDup (map fst m) -> NoDup (map fst (votes_add m p)).
Proof.
  induction m as [|[k' n] m IH]; simpl; intro H.
  - constructor; [intros []|constructor].
  - inversion H; subst.
    destruct (String.eqb k' p) eqn:E; simpl; constructor; auto.
    rewrite votes_add_keys; intros [Hin|Heq]; [contradiction|].
    subst; rewrite String.eqb_refl in E; discriminate.
Qed.

Lemma map_get_votes_add (m : list (string * nat)) p k :
  map_get (votes_add m p) k =
  if String.eqb p k then Some (S (cnt m k)) else map_get m k.
Proof.
  unfold cnt; induction m as [|[k' n] m IH]; simpl.
  - destruct (String.eqb p k); reflexivity.
  - destruct (String.eqb k' p) eqn:E1; simpl.
    + apply String.eqb_eq in E1; subst k'.
      destruct (String.eqb p k); reflexivity.
    + rewrite IH. destruct (String.eqb k' k) eqn:E2; [|reflexivity].
      apply String.eqb_eq in E2; subst k'.
      destruct (String.eqb p k) eqn:E3; [|reflexivity].
      apply String.eqb_eq in E3; subst p; rewrite String.eqb_refl in E1;
        discriminate.
Qed.

Definition vote_step (m : list (string * nat)) (e : JudgeEvaluation) :=
  match selectedPositionId e with Some p => votes_add m p | None => m end.

Lemma cnt_fold (l : list JudgeEvaluation) (m : list (string * nat)) k :
  cnt (fold_left vote_step l m) k = cnt m k + List.length (filter (selects k) l).
Proof.
  revert m; induction l as [|e l IH]; intro m; simpl; [lia|].
  rewrite IH. unfold selects, vote_step.
  destruct (selectedPositionId e) as [p|]; simpl; [|reflexivity].
  unfold cnt at 1; rewrite map_get_votes_add.
  destruct (String.eqb p k) eqn:E; simpl; [unfold cnt; lia|reflexivity].
Qed.

Lemma nodup_fold (l : list JudgeEvaluation) (m : list (string * nat)) :
  NoDup (map fst m) -> NoDup (map fst (fold_left vote_step l m)).
Proof.
  revert m; induction l as [|e l IH]; intros m H; simpl; [exact H|].
  apply IH; unfold vote_step; destruct (selectedPositionId e);
    [apply votes_add_nodup|]; exact H.
Qed.

Lemma map_get_In (m : list (string * nat)) k n :
  NoDup (map fst m) -> In (k, n) m -> map_get m k = Some n.
Proof.
  induction m as [|[k' n'] m IH]; simpl; intros Hd Hin; [contradiction|].
  inversion Hd; subst.
  destruct Hin as [Heq|Hin].
  - inversion Heq; subst; rewrite String.eqb_refl; reflexivity.
  - destruct (String.eqb k' k) eqn:E; [|auto].
    apply String.eqb_eq in E; subst k'.
    exfalso; apply H1; apply in_map_iff; exists (k, n); auto.
Qed.

(** The first loop of [detectJudgeConsensus] keeps its start or takes an
    entry of the list. *)
Lemma first_loop (sv : list (string * nat)) w0 mx0 w mx :
  fold_left (fun '(w, mx) '(id, count) =>
               if Nat.ltb mx count then (Some id, count) else (w, mx))
            sv (w0, mx0) = (w, mx) ->
  (w = w0 /\ mx = mx0) \/ (exists id, w = Some id /\ In (id, mx) sv).
Proof.
  revert w0 mx0; induction sv as [|[id c] sv IH]; simpl; intros w0 mx0 H.
  - inversion H; left; auto.
  - destruct (Nat.ltb mx0 c); apply IH in H;
      destruct H as [[-> ->]|(i & -> & Hi)]; eauto.
Qed.

(** A loop whose step keeps the current winner or takes the entry's id
    (the tie-break loop) ends on its start or on an id of the list. *)
Lemma fold_pick {B} (g : option string * B -> string * nat -> option string * B)
    (Hg : forall w b id c, fst (g (w, b) (id, c)) = w \/
                           fst (g (w, b) (id, c)) = Some id)
    (tied : list (string * nat)) w0 b0 :
  fst (fold_left g tied (w0, b0)) = w0 \/
  exists id c, fst (fold_left g tied (w0, b0)) = Some id /\ In (id, c) tied.
Proof.
  revert w0 b0; induction tied as [|[id c] tied IH]; simpl; intros w0 b0;
    [left; reflexivity|].
  pose proof (Hg w0 b0 id c) as G.
  destruct (g (w0, b0) (id, c)) as [w1 b1]; simpl in G.
  destruct (IH w1 b1) as [H|(i & c' & H & Hi)]; [|right; eauto].
  rewrite H; destruct G as [-> | ->]; [left; reflexivity|right; eauto].
Qed.

(** With a truthy winner, [detectJudgeConsensus] reports confidence 0 when
    the winner's vote count (the largest count) is below [requiredVotes],
    and the mean confidence of the winner's voters otherwise. *)
Lemma winner_confidence (evals : list JudgeEvaluation)
    (positions : list (string * string)) (thr minc : Q) (w : string) :
  jc_positionId (detectJudgeConsensus evals positions thr minc) = Some w ->
  w <> "" ->
  jc_confidence (detectJudgeConsensus evals positions thr minc) =
  if Z.ltb (Z.of_nat (List.length (filter (selects w) (filter is_eligible evals))))
           (AgentConsensus.ceil_mul (List.length (filter is_eligible evals)) thr)
  then 0%Q
  else mean_confidence (filter (selects w) (filter is_eligible evals)).
Proof.
  intros Hw Hne; revert Hw.
  unfold detectJudgeConsensus; cbv zeta.
  destruct (filter is_eligible evals) as [|e0 el0] eqn:Hel;
    [simpl; discriminate|].
  set (el := e0 :: el0).
  change (fold_left ?f el []) with (fold_left vote_step el []).
  set (votes := fold_left vote_step el []).
  set (sv := AgentConsensus.sort_by _ votes).
  match goal with
  | |- context [fold_left ?f sv (None, 0%nat)] =>
      destruct (fold_left f sv (None, 0%nat)) as [w1 mx] eqn:F1
  end.
  apply first_loop in F1.
  assert (Hcount : forall id, In (id, mx) sv ->
                   mx = List.length (filter (selects id) el)).
  { intros id Hin.
    apply AgentConsensusFacts.In_sort_by in Hin.
    apply map_get_In in Hin; [|apply nodup_fold; constructor].
    pose proof (cnt_fold el [] id) as C.
    unfold cnt in C at 1; fold votes in C; rewrite Hin in C.
    exact C. }
  assert (Hwin : forall W, (W = w1 \/ exists id c, W = Some id /\
                    In (id, c) (filter (fun '(_, count) => Nat.eqb count mx) sv)) ->
                 W = Some w -> mx = List.length (filter (selects w) el)).
  { intros W [->|(id & c & -> & Hin)] HW.
    - destruct F1 as [[-> _]|(id & -> & Hin)]; [discriminate|].
      inversion HW; subst; apply Hcount; exact Hin.
    - inversion HW; subst id.
      apply filter_In in Hin; destruct Hin as (Hin & Hc).
      apply Nat.eqb_eq in Hc; subst c; apply Hcount; exact Hin. }
  match goal with
  | |- context [if Nat.ltb 1 ?n then fst (fold_left ?g ?t (w1, ?b)) else w1] =>
      assert (HW : let W := if Nat.ltb 1 n then fst (fold_left g t (w1, b)) else w1 in
                   W = w1 \/ exists id c, W = Some id /\
                     In (id, c) (filter (fun '(_, count) => Nat.eqb count mx) sv))
        by (cbv zeta; destruct (Nat.ltb 1 n);
            [apply fold_pick; intros w' b' id c;
             simpl; destruct (Qltb _ _); [right|left]; reflexivity
            |left; reflexivity]);
      destruct (if Nat.ltb 1 n then fst (fold_left g t (w1, b)) else w1) as [W|]
  end;
    [|simpl; intro H; discriminate].
  cbv zeta in HW.
  assert (HneW : truthy (Some w) = true)
    by (simpl; destruct (String.eqb w "") eqn:E;
        [apply String.eqb_eq in E; contradiction|reflexivity]).
  destruct (negb (truthy (Some W)) || Z.ltb (Z.of_nat mx) _) eqn:Ec.
  - cbn [jc_positionId jc_confidence]; intro H; inversion H; subst W.
    rewrite HneW in Ec; cbn [negb orb] in Ec.
    rewrite <- (Hwin _ HW eq_refl), Ec; reflexivity.
  - intro H.
    assert (HS : Some W = Some w)
      by (destruct (Qltb _ minc); exact H).
    inversion HS; subst W.
    rewrite HneW in Ec; cbn [negb orb] in Ec.
    rewrite <- (Hwin _ HW eq_refl), Ec.
    destruct (Qltb _ minc); reflexivity.
Qed.

End JudgeFacts.

Module JudgeLoopFacts.
Import Orchestrator.

Lemma getLastJudgeRound_add (s : DebateSession) (r : JudgeRoundResult) :
  getLastJudgeRound (addJudgeRound s r) = Some r.
Proof.
  unfold getLastJudgeRound, addJudgeRound; simpl.
  rewrite map_app; simpl; apply last_last.
Qed.

Lemma transitionTo_phase now s p s' :
  transitionTo now s p = Ok s' -> phase s' = p.
Proof.
  unfold transitionTo; destruct (existsb _ _); intro H; inversion H; reflexivity.
Qed.

(** A judge loop that does not return keeps the phase, the verdict and
    [completedAt], and its last judge round, if it ran one, is a
    [runJudgeRound] over the judges' evaluations of that round. *)
Lemma judge_loop_spec now cfg ev fuel positions s b s1 :
  judge_loop now cfg ev fuel positions s = Ok (b, s1) ->
  (b = true /\ phase s1 = consensus_reached) \/
  (b = false /\ phase s1 = phase s /\ finalVerdict s1 = finalVerdict s /\
   completedAt s1 = completedAt s /\
   (getLastJudgeRound s1 = getLastJudgeRound s \/
    exists k, getLastJudgeRound s1 =
              Some (runJudgeRound cfg k positions (ev k) now))).
Proof.
  revert s; induction fuel as [|f IH]; intros s H; simpl in H.
  - inversion H; subst; right; repeat split; auto.
  - destruct (phase_eqb (phase s) judge_evaluation && _)%bool;
      [|inversion H; subst; right; repeat split; auto].
    match type of H with
    | (if ?c then _ else judge_loop _ _ _ _ _ _) = _ => destruct c
    end.
    + destruct (transitionTo now _ consensus_reached) as [s2|e] eqn:T;
        simpl in H; [|discriminate].
      inversion H; subst; left; split; [reflexivity|].
      apply transitionTo_phase in T; exact T.
    + apply IH in H.
      destruct H as [H|(Hb & Hp & Hv & Hc & Hl)]; [left; exact H|].
      right; repeat split; auto.
      right; destruct Hl as [Hl|Hl]; [|exact Hl].
      rewrite Hl, getLastJudgeRound_add; eauto.
Qed.

End JudgeLoopFacts.

(** ** C4 *)

(** Claim C4, as stated, fails on the debate of [Scenarios] with the judge
    panel: the judge phase runs its single round, three judges pick three
    different positions (the winner has 1 vote, [requiredVotes] is 2), the
    session deadlocks with the verdict on the plurality winner, and its
    confidence is 0, not the mean confidence 0.9 of the winner's voter. *)
Lemma C4_counterexample :
  phase Scenarios.after_agents = judge_evaluation /\
  phase Scenarios.after_judges = deadlock /\
  List.length (judgeRounds Scenarios.after_judges)
    = maxJudgeRounds (Scenarios.cfg true) /\
  map jr_consensusReached (judgeRounds Scenarios.after_judges) = [false] /\
  finalVerdict Scenarios.after_judges =
    Some {| v_positionId := "Use Postgres"; v_positionText := "Use Postgres";
            v_confidence := 0%Q; source := src_deadlock |} /\
  (mean_confidence (filter (selects "Use Postgres") (Scenarios.judge_evals 1))
     == 9 # 10)%Q /\
  ~ (0 == 9 # 10)%Q.
Proof.
  vm_compute. repeat split; try reflexivity; discriminate.
Qed.

(** Claim C4, amended: when the judge phase ends in deadlock,
    [completedAt] is stamped.  The last judge round is either the one the
    session already held (restored from a checkpoint) or the
    [runJudgeRound] of some round [k] of this phase.  When its plurality
    winner [w] is truthy the final verdict is [w] with source deadlock and
    the round's recorded confidence; for a round [k] of this phase that
    confidence is 0 if [w]'s vote count among eligible judges is below
    [requiredVotes = ceil(eligible * judgeConsensusThreshold)], and the
    mean confidence of [w]'s voters otherwise.  When there is no truthy
    winner no verdict is set. *)
Theorem C4_deadlock_verdict (now : string) (cfg : DebateConfig)
    (ev : nat -> list JudgeEvaluation) (s s' : DebateSession)
    (Hphase : phase s = judge_evaluation)
    (Hrun : Orchestrator.runJudgeEvaluationPhase now cfg ev s = Ok s')
    (Hdead : phase s' = deadlock) :
  let positions :=
    Orchestrator.collectPositions (agentRounds s) (judgePositionsScope cfg) in
  completedAt s' = Some now /\
  match getLastJudgeRound s' with
  | None => finalVerdict s' = finalVerdict s
  | Some lr =>
      (getLastJudgeRound s = Some lr \/
       exists k, lr = Orchestrator.runJudgeRound cfg k positions (ev k) now) /\
      (forall w, jr_consensusPositionId lr = Some w -> w <> "" ->
         finalVerdict s' =
           Some {| v_positionId := w;
                   v_positionText :=
                     match map_get positions w with Some t => t | None => "" end;
                   v_confidence := jr_avgConfidence lr;
                   source := src_deadlock |} /\
         (forall k, lr = Orchestrator.runJudgeRound cfg k positions (ev k) now ->
            let el := filter is_eligible (ev k) in
            jr_avgConfidence lr =
              if (Z.of_nat (List.length (filter (selects w) el))
                  <? Qceiling (inject_Z (Z.of_nat (List.length el))
                               * judgeConsensusThreshold cfg))%Z
              then 0%Q
              else mean_confidence (filter (selects w) el))) /\
      (truthy (jr_consensusPositionId lr) = false ->
         finalVerdict s' = finalVerdict s)
  end.
Proof.
  cbv zeta.
  unfold Orchestrator.runJudgeEvaluationPhase in Hrun; cbv zeta in Hrun.
  destruct (Orchestrator.judge_loop now cfg ev (S (maxJudgeRounds cfg))
              (Orchestrator.collectPositions (agentRounds s)
                 (judgePositionsScope cfg)) s) as [[b s1]|e] eqn:L;
    simpl in Hrun; [|discriminate].
  apply JudgeLoopFacts.judge_loop_spec in L.
  destruct L as [(-> & P)|(-> & Hp & Hv & Hc & Hl)].
  - inversion Hrun; subst; rewrite P in Hdead; discriminate.
  - unfold Orchestrator.judgeDeadlock in Hrun.
    destruct (transitionTo now s1 deadlock) as [s2|e] eqn:T;
      simpl in Hrun; [|discriminate].
    assert (Hc2 : completedAt s2 = Some now)
      by (unfold transitionTo in T; rewrite Hp, Hphase in T; simpl in T;
          inversion T; reflexivity).
    assert (Hl2 : getLastJudgeRound s2 = getLastJudgeRound s1)
      by (unfold transitionTo in T; rewrite Hp, Hphase in T; simpl in T;
          inversion T; reflexivity).
    assert (Hv2 : finalVerdict s2 = finalVerdict s1)
      by (unfold transitionTo in T; rewrite Hp, Hphase in T; simpl in T;
          inversion T; reflexivity).
    rewrite Hl2 in Hrun.
    assert (Horig : forall lr, getLastJudgeRound s1 = Some lr ->
              getLastJudgeRound s = Some lr \/
              exists k, lr = Orchestrator.runJudgeRound cfg k
                (Orchestrator.collectPositions (agentRounds s)
                   (judgePositionsScope cfg)) (ev k) now).
    { intros lr E; destruct Hl as [Hl|(k & Hl)]; rewrite E in Hl;
        [left; symmetry; exact Hl|right; exists k; congruence]. }
    assert (Hform : forall lr w k,
              jr_consensusPositionId lr = Some w -> w <> "" ->
              lr = Orchestrator.runJudgeRound cfg k
                     (Orchestrator.collectPositions (agentRounds s)
                        (judgePositionsScope cfg)) (ev k) now ->
              jr_avgConfidence lr =
              if (Z.of_nat (List.length (filter (selects w)
                                           (filter is_eligible (ev k))))
                  <? Qceiling (inject_Z (Z.of_nat (List.length
                                 (filter is_eligible (ev k))))
                               * judgeConsensusThreshold cfg))%Z
              then 0%Q
              else mean_confidence (filter (selects w)
                                      (filter is_eligible (ev k)))).
    { intros lr w k Hw Hne ->; simpl in Hw |- *.
      apply JudgeFacts.winner_confidence; assumption. }
    destruct (getLastJudgeRound s1) as [lr|] eqn:E1.
    + specialize (Horig lr eq_refl).
      destruct (truthy (jr_consensusPositionId lr)) eqn:Ht.
      * inversion Hrun; subst s'.
        assert (E2 : forall v, getLastJudgeRound (setFinalVerdict s2 v)
                               = getLastJudgeRound s1) by (intro; rewrite E1; exact Hl2).
        rewrite E2, E1; split; [exact Hc2|].
        split; [exact Horig|]; split; [|intro; congruence].
        intros w Hw Hne; rewrite Hw; split; [reflexivity|].
        intros k Hk; exact (Hform lr w k Hw Hne Hk).
      * inversion Hrun; subst s'.
        rewrite Hl2; split; [exact Hc2|].
        split; [exact Horig|]; split.
        -- intros w Hw Hne; exfalso.
           rewrite Hw in Ht; simpl in Ht.
           destruct (String.eqb w "") eqn:E; [|discriminate].
           apply String.eqb_eq in E; contradiction.
        -- intros _; congruence.
    + inversion Hrun; subst s'.
      rewrite Hl2; split; [exact Hc2|congruence].
Qed.

(** The debate of [Scenarios] with the judge panel meets the hypotheses. *)
Lemma C4_witness :
  phase Scenarios.after_agents = judge_evaluation /\
  Orchestrator.runJudgeEvaluationPhase Scenarios.now (Scenarios.cfg true)
    Scenarios.judge_evals Scenarios.after_agents = Ok Scenarios.after_judges /\
  phase Scenarios.after_judges = deadlock /\
  completedAt Scenarios.after_judges = Some Scenarios.now.
Proof.
  assert (H1 : phase Scenarios.after_agents = judge_evaluation)
    by (vm_compute; reflexivity).
  assert (H3 : Orchestrator.runJudgeEvaluationPhase Scenarios.now
                 (Scenarios.cfg true) Scenarios.judge_evals
                 Scenarios.after_agents = Ok Scenarios.after_judges)
    by (vm_compute; reflexivity).
  assert (H4 : phase Scenarios.after_judges = deadlock)
    by (vm_compute; reflexivity).
  split; [exact H1|]. split; [exact H3|].
  split; [exact H4|].
  exact (proj1 (C4_deadlock_verdict Scenarios.now (Scenarios.cfg true)
                  Scenarios.judge_evals Scenarios.after_agents
                  Scenarios.after_judges H1 H3 H4)).
Defined.

Module CheckpointFacts.
Import Json Checkpoint.

Lemma all_some_id (f : json -> option json) (l : list json) :
  Forall (fun x => f x = Some x) l -> all_some f l = Some l.
Proof.
  induction 1 as [|x l Hx _ IH]; simpl; [reflexivity|].
  rewrite Hx, IH; reflexivity.
Qed.

Lemma phase_of_name_phase_name (p : DebatePhase) :
  phase_of_name (phase_name p) = Some p.
Proof. destruct p; reflexivity. Qed.

Lemma str_of_len_JStr (s : string) :
  str_of_len (String.length s) (Some (JStr s)) = Some s.
Proof. simpl; rewrite Nat.eqb_refl; reflexivity. Qed.

End CheckpointFacts.

(** ** C6 *)

(** Claim C6: for a schema-valid checkpoint state [S], loading the text
    that [saveCheckpoint] writes for [S] passes the schema, version, SHA-256
    and HMAC checks and returns [S].  The file text, the JSON built-ins, the
    crypto digests, the HMAC key of the environment (the same at save and
    load) and the nested zod schemas are parameters; the hypotheses say
    that [JSON.parse] reads back what [JSON.stringify] wrote, that the hex
    digests have 64 characters, that the save time is an ISO datetime, and
    that [S] is schema-valid: the nested schemas return its config and
    rounds unchanged. *)
Theorem C6_checkpoint_roundtrip (Text : Type) (stringify : Json.json -> Text)
    (parse : Text -> option Json.json) (sha256 : string -> string)
    (hmacSha256 : string -> string -> string) (hmacKey : option string)
    (configSchema roundSchema judgeRoundSchema : Json.json -> option Json.json)
    (isDatetime : string -> bool) (now : string) (S : Checkpoint.CheckpointData)
    (Hparse : forall v, parse (stringify v) = Some v)
    (Hsha : forall x, String.length (sha256 x) = 64)
    (Hhmac : forall x k, String.length (hmacSha256 x k) = 64)
    (Hnow : isDatetime now = true)
    (Hcfg : configSchema (Checkpoint.cd_config S) = Some (Checkpoint.cd_config S))
    (Hars : Forall (fun r => roundSchema r = Some r) (Checkpoint.cd_agentRounds S))
    (Hjrs : Forall (fun r => judgeRoundSchema r = Some r)
              (Checkpoint.cd_judgeRounds S)) :
  Checkpoint.loadCheckpoint Text parse sha256 hmacSha256 hmacKey configSchema
    roundSchema judgeRoundSchema isDatetime
    (Checkpoint.saveCheckpoint Text stringify sha256 hmacSha256 hmacKey now S)
  = Checkpoint.loaded S.
Proof.
  destruct S as [sid ph cfg ars jrs]; simpl in *.
  unfold Checkpoint.loadCheckpoint, Checkpoint.saveCheckpoint.
  rewrite Hparse.
  set (ch := sha256 (Checkpoint.canonicalizeJson cfg)).
  set (body := [("version", Json.JStr Orchestrator.SPEC_VERSION);
                ("engineVersion", Json.JStr Checkpoint.ENGINE_VERSION);
                ("sessionId", Json.JStr sid); ("timestamp", Json.JStr now);
                ("phase", Json.JStr (Checkpoint.phase_name ph));
                ("config", cfg); ("configHash", Json.JStr ch);
                ("agentRounds", Json.JArr ars);
                ("judgeRounds", Json.JArr jrs)]).
  set (h := sha256 (Checkpoint.canonicalizeJson (Json.JObj body))).
  assert (Hch : String.length ch = 64) by apply Hsha.
  assert (Hh : String.length h = 64) by apply Hsha.
  destruct (Checkpoint.truthy_key hmacKey) as [k|] eqn:Hk;
  lazymatch goal with
  | |- context [Checkpoint.checkpointSchema ?a ?b ?c ?d ?x] =>
      assert (HS : Checkpoint.checkpointSchema a b c d x = Some x)
  end.
  1, 3: unfold Checkpoint.checkpointSchema, body; cbn -[Checkpoint.canonicalizeJson];
    rewrite Hcfg, !Hsha, Hnow, CheckpointFacts.phase_of_name_phase_name,
      (CheckpointFacts.all_some_id _ _ Hars),
      (CheckpointFacts.all_some_id _ _ Hjrs);
    try rewrite Hhmac; reflexivity.
  all: rewrite HS; unfold body; cbn -[Checkpoint.canonicalizeJson];
    rewrite ?String.eqb_refl, CheckpointFacts.phase_of_name_phase_name;
    cbn -[Checkpoint.canonicalizeJson];
    try destruct (String.eqb _ ""); reflexivity.
Qed.

(** Witness for C6: a session saved with an HMAC key set, loaded back. *)
Lemma C6_witness :
  let S0 := {| Checkpoint.cd_sessionId := "session-1";
               Checkpoint.cd_phase := State.deadlock;
               Checkpoint.cd_config :=
                 Json.JObj [("topic", Json.JStr "Which database?")];
               Checkpoint.cd_agentRounds := [];
               Checkpoint.cd_judgeRounds := [] |} in
  Checkpoint.loadCheckpoint Json.json Some (fun _ => Checkpoint.zeros 64)
    (fun _ _ => Checkpoint.zeros 64) (Some "secret") Some Some Some
    (fun _ => true)
    (Checkpoint.saveCheckpoint Json.json (fun v => v) (fun _ => Checkpoint.zeros 64)
       (fun _ _ => Checkpoint.zeros 64) (Some "secret") Scenarios.now S0)
  = Checkpoint.loaded S0.
Proof.
  intros S0.
  apply (C6_checkpoint_roundtrip Json.json (fun v => v) Some
           (fun _ => Checkpoint.zeros 64) (fun _ _ => Checkpoint.zeros 64) (Some "secret")
           Some Some Some (fun _ => true) Scenarios.now S0).
  - intros v; reflexivity.
  - intros x; reflexivity.
  - intros x k; reflexivity.
  - reflexivity.
  - reflexivity.
  - constructor.
  - constructor.
Defined.

(* ================================================================== *)
(** * Further properties of the code *)

Module UtilsFacts.
Import Utils.

Lemma length_append (a b : string) :
  String.length (a ++ b) = String.length a + String.length b.
Proof. induction a as [|c a IH]; simpl; [reflexivity | rewrite IH; reflexivity]. Qed.

Lemma length_substring0 (n : nat) (s : string) :
  String.length (substring 0 n s) = Nat.min n (String.length s).
Proof.
  revert n; induction s as [|c s IH]; intros [|n]; simpl; try reflexivity.
  rewrite IH; reflexivity.
Qed.

Lemma length_slice0 (s : string) (e : Z) :
  String.length (slice s 0 e)
  = Z.to_nat (if (e <? 0)%Z then Z.max (Z.of_nat (String.length s) + e) 0
              else Z.min e (Z.of_nat (String.length s))).
Proof.
  unfold slice; cbv zeta.
  replace (if (0 <? 0)%Z then _ else _) with 0%Z
    by (simpl; destruct (String.length s); reflexivity).
  rewrite Z.sub_0_r; simpl Z.to_nat at 1.
  rewrite length_substring0.
  destruct (e <? 0)%Z eqn:E; [apply Z.ltb_lt in E|]; lia.
Qed.

(** [estimateTokenCount] of a text of at most [4 * m] characters is at
    most [ceil(m)]. *)
Lemma estimate_ceil (x : string) (m : Q) :
  (inject_Z (Z.of_nat (String.length x)) <= m * 4)%Q ->
  (Z.of_nat (estimateTokenCount x) <= Qceiling m)%Z.
Proof.
  intros Hn. unfold estimateTokenCount.
  rewrite Nat2Z.inj_div, Nat2Z.inj_add; simpl (Z.of_nat 4); simpl (Z.of_nat 3).
  apply Z.lt_succ_r, Z.div_lt_upper_bound; [lia|].
  assert (Hc := Qle_ceiling m).
  assert (H4 : (inject_Z (Z.of_nat (String.length x)) <= inject_Z (4 * Qceiling m))%Q).
  { rewrite inject_Z_mult. replace (inject_Z 4) with (4 # 1) by reflexivity.
    apply Qle_trans with (m * 4)%Q; [exact Hn|].
    rewrite Qmult_comm. apply Qmult_le_l; [reflexivity|exact Hc]. }
  rewrite <- Zle_Qle in H4. lia.
Qed.

(** [z = floor(q)] from [z <= q < z + 1]. *)
Lemma Qfloor_unique (q : Q) (z : Z) :
  (inject_Z z <= q)%Q -> (q < inject_Z (z + 1))%Q -> Qfloor q = z.
Proof.
  intros H1 H2.
  assert (A := Qfloor_resp_le _ _ H1). rewrite Qfloor_Z in A.
  assert (B := Qfloor_le q).
  assert (C : (inject_Z (Qfloor q) < inject_Z (z + 1))%Q) by (eapply Qle_lt_trans; eauto).
  rewrite <- Zlt_Qlt in C. lia.
Qed.

Lemma backoff_bounds (attempt : nat) (baseDelayMs maxDelayMs : Q)
    (withJitter : bool) (random : Q)
    (Hbase : (0 <= baseDelayMs)%Q) (Hmax : (0 <= maxDelayMs)%Q)
    (Hr0 : (0 <= random)%Q) (Hr1 : (random < 1)%Q) :
  let d := Qmin (baseDelayMs * inject_Z (2 ^ Z.of_nat attempt)) maxDelayMs in
  (0 <= d /\ d <= maxDelayMs /\
   (withJitter = false ->
      Utils.calculateBackoff attempt baseDelayMs maxDelayMs withJitter random = d) /\
   (1 # 2) * d
     <= Utils.calculateBackoff attempt baseDelayMs maxDelayMs withJitter random
   <= d)%Q.
Proof.
  cbv zeta.
  set (d := Qmin _ _).
  assert (Hd0 : (0 <= d)%Q).
  { apply Q.min_glb; [|exact Hmax].
    apply Qmult_le_0_compat; [exact Hbase|].
    unfold Qle; simpl; rewrite Z.mul_1_r.
    apply Z.pow_nonneg; lia. }
  assert (Hd1 : (d <= maxDelayMs)%Q) by apply Q.le_min_r.
  unfold Utils.calculateBackoff; fold d.
  split; [exact Hd0|]. split; [exact Hd1|].
  destruct withJitter; simpl.
  - split; [discriminate|]. split; nra.
  - split; [reflexivity|]. split; nra.
Qed.

End UtilsFacts.

(** For a budget [maxTokens] of at least 3/4 token, the text
    [truncateToTokenBudget] returns has at most [4 * maxTokens] characters,
    so [estimateTokenCount] puts it within [ceil(maxTokens)] tokens (within
    the budget when it is a whole number): a text that fits is returned as
    it is, a longer one is cut to [floor(4 * maxTokens)] characters, the
    last three of them the dots.  Below 3/4 token a text that does not fit
    comes out over budget, since the three dots alone make one token. *)
Theorem truncateToTokenBudget_budget (text : string) (maxTokens : Q) :
  let r := Utils.truncateToTokenBudget text maxTokens in
  let len := inject_Z (Z.of_nat (String.length text)) in
  ((len <= maxTokens * 4 -> r = text) /\
   (maxTokens * 4 < len -> 3 # 4 <= maxTokens ->
      Z.of_nat (String.length r) = Qfloor (maxTokens * 4)) /\
   (3 # 4 <= maxTokens ->
      inject_Z (Z.of_nat (String.length r)) <= maxTokens * 4 /\
      (Z.of_nat (Utils.estimateTokenCount r) <= Qceiling maxTokens)%Z) /\
   (maxTokens < 3 # 4 -> maxTokens * 4 < len ->
      maxTokens < inject_Z (Z.of_nat (Utils.estimateTokenCount r))))%Q.
Proof.
  cbv zeta; unfold Utils.truncateToTokenBudget; cbv zeta.
  set (L := String.length text).
  destruct (Qle_bool (inject_Z (Z.of_nat L)) (maxTokens * 4)) eqn:E.
  - apply Qle_bool_iff in E.
    split; [intros _; reflexivity|]. split; [intros H; exfalso; lra|].
    split; [intros _; split; [exact E|apply UtilsFacts.estimate_ceil; exact E]|].
    intros H1 H2; exfalso; lra.
  - assert (E' : (maxTokens * 4 < inject_Z (Z.of_nat L))%Q).
    { apply Qnot_le_lt; intros H; apply Qle_bool_iff in H; congruence. }
    split; [intros H; exfalso; lra|].
    rewrite UtilsFacts.length_append, UtilsFacts.length_slice0.
    simpl (String.length "...").
    fold L.
    (* budget of at least 3/4: the end bound is floor(4m) - 3, inside the text *)
    assert (Big : (3 # 4 <= maxTokens)%Q ->
              Z.of_nat (Z.to_nat (if (Utils.toIntegerOrInfinity (maxTokens * 4 - 3) <? 0)%Z
                 then Z.max (Z.of_nat L + Utils.toIntegerOrInfinity (maxTokens * 4 - 3)) 0
                 else Z.min (Utils.toIntegerOrInfinity (maxTokens * 4 - 3)) (Z.of_nat L))
                 + 3) = Qfloor (maxTokens * 4)).
    { intros Hm.
      unfold Utils.toIntegerOrInfinity.
      replace (Qle_bool 0 (maxTokens * 4 - 3)) with true
        by (symmetry; apply Qle_bool_iff; lra).
      set (t := Qfloor (maxTokens * 4 - 3)).
      assert (T1 := Qfloor_le (maxTokens * 4 - 3)); fold t in T1.
      assert (T2 := Qlt_floor (maxTokens * 4 - 3)); fold t in T2.
      assert (T0 : (0 <= t)%Z).
      { unfold t. rewrite <- (Qfloor_Z 0). apply Qfloor_resp_le. change (inject_Z 0) with (0 # 1). lra. }
      assert (TL : (t < Z.of_nat L)%Z).
      { rewrite Zlt_Qlt. lra. }
      replace (t <? 0)%Z with false by (symmetry; apply Z.ltb_ge; lia).
      rewrite Z.min_l by lia.
      rewrite Nat2Z.inj_add, Z2Nat.id by lia. change (Z.of_nat 3) with 3%Z.
      symmetry; apply UtilsFacts.Qfloor_unique.
      - rewrite inject_Z_plus. change (inject_Z 3) with (3 # 1). lra.
      - rewrite !inject_Z_plus. rewrite inject_Z_plus in T2.
        change (inject_Z 3) with (3 # 1). change (inject_Z 1) with (1 # 1) in *. lra. }
    split; [intros _ Hm; exact (Big Hm)|].
    split.
    + intros Hm. specialize (Big Hm).
      assert (Hl : (inject_Z (Z.of_nat (Z.to_nat (if (Utils.toIntegerOrInfinity (maxTokens * 4 - 3) <? 0)%Z
                 then Z.max (Z.of_nat L + Utils.toIntegerOrInfinity (maxTokens * 4 - 3)) 0
                 else Z.min (Utils.toIntegerOrInfinity (maxTokens * 4 - 3)) (Z.of_nat L))
                 + 3)) <= maxTokens * 4)%Q).
      { rewrite Big. apply Qfloor_le. }
      split; [exact Hl|].
      apply UtilsFacts.estimate_ceil.
      rewrite UtilsFacts.length_append, UtilsFacts.length_slice0; exact Hl.
    + intros Hm _.
      unfold Utils.estimateTokenCount.
      rewrite UtilsFacts.length_append, UtilsFacts.length_slice0; simpl (String.length "...").
      match goal with |- context [((?n + 3 + 3) / 4)%nat] =>
        assert (H1 : (1 <= (n + 3 + 3) / 4)%nat)
          by (apply (Nat.div_le_lower_bound _ 4); lia) end.
      apply Qlt_le_trans with (1 # 1); [lra|].
      change (1 # 1)%Q with (inject_Z (Z.of_nat 1)).
      rewrite <- Zle_Qle. lia.
Qed.

(** [calculateBackoff] with a non-negative base and cap and a
    [Math.random()] value in [0, 1): the delay is the capped exponential
    delay [min(baseDelayMs * 2^attempt, maxDelayMs)] without jitter and
    between half of it and all of it with jitter, so it never exceeds
    [maxDelayMs]. *)
Theorem calculateBackoff_bounds (attempt : nat) (baseDelayMs maxDelayMs : Q)
    (withJitter : bool) (random : Q)
    (Hbase : (0 <= baseDelayMs)%Q) (Hmax : (0 <= maxDelayMs)%Q)
    (Hr0 : (0 <= random)%Q) (Hr1 : (random < 1)%Q) :
  let d := Qmin (baseDelayMs * inject_Z (2 ^ Z.of_nat attempt)) maxDelayMs in
  (0 <= d /\ d <= maxDelayMs /\
   (withJitter = false ->
      Utils.calculateBackoff attempt baseDelayMs maxDelayMs withJitter random = d) /\
   (1 # 2) * d
     <= Utils.calculateBackoff attempt baseDelayMs maxDelayMs withJitter random
   <= d)%Q.
Proof.
  exact (UtilsFacts.backoff_bounds attempt baseDelayMs maxDelayMs withJitter random
           Hbase Hmax Hr0 Hr1).
Qed.

(** The jitter of a fourth attempt: [min(1000 * 2^3, 8000) = 8000] times
    [0.5 + 0.5 * 0.5]. *)
Lemma calculateBackoff_bounds_witness :
  (Utils.calculateBackoff 3 1000 8000 true (1 # 2) == 6000)%Q /\
  (let d := Qmin (1000 * inject_Z (2 ^ Z.of_nat 3)) 8000 in
   (0 <= d /\ d <= 8000 /\
    (true = false -> Utils.calculateBackoff 3 1000 8000 true (1 # 2) = d) /\
    (1 # 2) * d <= Utils.calculateBackoff 3 1000 8000 true (1 # 2) <= d)%Q).
Proof.
  split; [vm_compute; reflexivity|].
  apply (calculateBackoff_bounds 3 1000 8000 true (1 # 2));
    vm_compute; first [reflexivity | discriminate].
Defined.

Module RetryFacts.
Import Retry.

Lemma isRetryable_non_error : isRetryable thrown_non_error = false.
Proof. reflexivity. Qed.

(** The trace of the retry loop: attempts [attempt], [attempt + 1], ...
    are made, each notification is for an attempt that threw a retryable
    error, and the outcome is the one of the last attempt. *)
Lemma retry_loop_spec {A} cfg det (call : nat -> CallResult A) random n attempt
    last :
  n + attempt = S (effectiveMaxAttempts cfg det) ->
  attempt <= effectiveMaxAttempts cfg det ->
  let '(o, notes) := retry_loop cfg det call random n attempt last in
  map (fun '(k, _, _) => k) notes = seq (S attempt) (List.length notes) /\
  attempt + List.length notes <= effectiveMaxAttempts cfg det /\
  (forall k e d, In (k, e, d) notes ->
     call (k - 1) = call_throws e /\ isRetryable e = true) /\
  (forall a, o = returned a -> call (attempt + List.length notes) = call_ok a) /\
  (forall e, o = rethrown e ->
     call (attempt + List.length notes) = call_throws e).
Proof.
  revert attempt last; induction n as [|n IH]; intros attempt last Hn Ha;
    [lia|].
  simpl.
  destruct (call attempt) as [a|e] eqn:C.
  - rewrite Nat.add_0_r; simpl.
    repeat split; intros; simpl in *; try lia; try contradiction;
      try discriminate;
      match goal with Hx : returned _ = returned _ |- _ =>
        inversion Hx; subst; exact C end.
  - assert (Hstop : forall o, (o = rethrown e) ->
              map (fun '(k, _, _) => k) ([] : list (nat * Thrown * Q))
                = seq (S attempt) 0 /\
              attempt + 0 <= effectiveMaxAttempts cfg det /\
              (forall k e' d, In (k, e', d) ([] : list (nat * Thrown * Q)) ->
                 call (k - 1) = call_throws e' /\ isRetryable e' = true) /\
              (forall a, o = returned a -> call (attempt + 0) = call_ok a) /\
              (forall e', o = rethrown e' -> call (attempt + 0) = call_throws e')).
    { intros o ->; rewrite Nat.add_0_r.
      repeat split; intros; simpl in *; try lia; try contradiction;
        try discriminate;
        match goal with Hx : rethrown _ = rethrown _ |- _ =>
          inversion Hx; subst; exact C end. }
    destruct e as [|m|m r|ra]; [exact (Hstop _ eq_refl)| | |].
    all: destruct (negb (isRetryable _) || (effectiveMaxAttempts cfg det <=? attempt))
           eqn:Stop; [exact (Hstop _ eq_refl)|].
    all: apply orb_false_iff in Stop; destruct Stop as [Hr Hlt];
         apply negb_false_iff in Hr; apply Nat.leb_gt in Hlt.
    all: match goal with
         | |- context [retry_loop _ _ _ _ ?m (S ?a) ?l] =>
           specialize (IH (S a) l ltac:(lia) ltac:(lia));
           destruct (retry_loop _ _ _ _ m (S a) l) as [o notes]
         end.
    all: destruct IH as (Hk & Hlen & Hin & Hret & Hthr); simpl List.length.
    all: split; [simpl; rewrite Hk; reflexivity|].
    all: split; [lia|].
    all: split; [intros k' e' d' [Hkd|Hkd];
                 [inversion Hkd; subst; simpl; rewrite Nat.sub_0_r; split;
                  [exact C|exact Hr]
                 |exact (Hin _ _ _ Hkd)]|].
    all: split; intros ? Ho; rewrite <- Nat.add_succ_comm;
           [apply Hret|apply Hthr]; exact Ho.
Qed.

End RetryFacts.

Module RetryFacts2.
Import Retry.

Lemma retry_loop_delays {A} cfg det (call : nat -> CallResult A) random n
    attempt last
    (Hbase : (0 <= effectiveBase cfg)%Q) (Hmax : (0 <= effectiveMax cfg)%Q)
    (Hr : forall k, (0 <= random k)%Q /\ (random k < 1)%Q) :
  forall k e d, In (k, e, d) (snd (retry_loop cfg det call random n attempt last)) ->
  (0 <= d /\ d <= effectiveMax cfg)%Q \/ e = rate_limit_error (Some d).
Proof.
  revert attempt last; induction n as [|n IH]; intros attempt last k e d Hin;
    simpl in Hin; [contradiction|].
  destruct (call attempt) as [a|e0]; [contradiction|].
  assert (Hb : forall w, (0 <= Utils.calculateBackoff attempt (effectiveBase cfg)
                                 (effectiveMax cfg) w (random attempt)
                          <= effectiveMax cfg)%Q).
  { intros w; destruct (Hr attempt) as [H0 H1].
    destruct (UtilsFacts.backoff_bounds attempt _ _ w _ Hbase Hmax H0 H1)
      as (Hd0 & Hd1 & _ & Hlo & Hhi).
    split; [|eapply Qle_trans; [exact Hhi|exact Hd1]].
    eapply Qle_trans; [|exact Hlo].
    apply Qmult_le_0_compat; [discriminate|exact Hd0]. }
  destruct e0 as [|m|m r|ra]; [contradiction| | |].
  all: destruct (negb (isRetryable _) || (effectiveMaxAttempts cfg det <=? attempt));
         [contradiction|].
  all: match type of Hin with
       | context [retry_loop _ _ _ _ ?m (S ?a) ?l] =>
         specialize (IH (S a) l); destruct (retry_loop _ _ _ _ m (S a) l) as [o notes]
       end.
  all: simpl in Hin; destruct Hin as [Hin|Hin]; [|exact (IH _ _ _ Hin)].
  all: inversion Hin; subst.
  1, 2: left; apply Hb.
  destruct ra as [ra|]; [|left; apply Hb].
  destruct (Qeq_bool ra 0); [left; apply Hb|].
  unfold Qmax, GenericMinMax.gmax.
  destruct (Qcompare _ ra); [left; apply Hb|right; reflexivity|left; apply Hb].
Qed.

End RetryFacts2.

(** [withRetry]: the wrapped call makes attempts [0, 1, ..., k] with
    [k <= maxAttempts] (0 in deterministic mode, otherwise
    [config.maxAttempts], 2 by default); each attempt before the last threw
    a retryable error and was announced to [onRetry] with the number
    [attempt + 1]; the call returns the value, or rethrows the error, of
    the last attempt. *)
Theorem withRetry_trace {A} (cfg : Retry.RetryConfig) (det : bool)
    (call : nat -> Retry.CallResult A) (random : nat -> Q) :
  let '(o, notes) := Retry.withRetry_call cfg det call random in
  map (fun '(k, _, _) => k) notes = seq 1 (List.length notes) /\
  List.length notes <= Retry.effectiveMaxAttempts cfg det /\
  (forall k e d, In (k, e, d) notes ->
     call (k - 1) = Retry.call_throws e /\ Retry.isRetryable e = true) /\
  (forall a, o = Retry.returned a -> call (List.length notes) = Retry.call_ok a) /\
  (forall e, o = Retry.rethrown e ->
     call (List.length notes) = Retry.call_throws e).
Proof.
  unfold Retry.withRetry_call.
  exact (RetryFacts.retry_loop_spec cfg det call random
           (S (Retry.effectiveMaxAttempts cfg det)) 0 None
           ltac:(lia) ltac:(lia)).
Qed.

(** In deterministic mode the wrapped call is a single call of the
    adapter: its value is returned or its error rethrown, and [onRetry]
    and [sleep] are never called. *)
Theorem withRetry_deterministic {A} (cfg : Retry.RetryConfig)
    (call : nat -> Retry.CallResult A) (random : nat -> Q) :
  Retry.withRetry_call cfg true call random
  = (match call 0 with
     | Retry.call_ok a => Retry.returned a
     | Retry.call_throws e => Retry.rethrown e
     end, []).
Proof.
  unfold Retry.withRetry_call, Retry.effectiveMaxAttempts; simpl.
  destruct (call 0) as [a|[| | |]]; try reflexivity;
    rewrite orb_true_r; reflexivity.
Qed.

(** With a non-negative base delay and cap, and [Math.random()] values in
    [0, 1), every delay [withRetry] waits before a retry is between 0 and
    [maxDelayMs], except when the error was a [ModelRateLimitError] whose
    [retryAfterMs] hint is larger: the delay is then that hint. *)
Theorem withRetry_delays {A} (cfg : Retry.RetryConfig) (det : bool)
    (call : nat -> Retry.CallResult A) (random : nat -> Q)
    (Hbase : (0 <= Retry.effectiveBase cfg)%Q)
    (Hmax : (0 <= Retry.effectiveMax cfg)%Q)
    (Hr : forall k, (0 <= random k)%Q /\ (random k < 1)%Q) :
  forall k e d, In (k, e, d) (snd (Retry.withRetry_call cfg det call random)) ->
  (0 <= d /\ d <= Retry.effectiveMax cfg)%Q \/
  e = Retry.rate_limit_error (Some d).
Proof.
  exact (RetryFacts2.retry_loop_delays cfg det call random _ 0 None Hbase Hmax Hr).
Qed.

Lemma withRetry_delays_witness :
  let cfg := {| Retry.maxAttempts := None; Retry.baseDelayMs := None;
                Retry.maxDelayMs := None |} in
  let call := fun k : nat =>
    match k with
    | O => Retry.call_throws (Retry.rate_limit_error (Some 20000%Q))
    | 1 => Retry.call_throws (Retry.model_error "timeout" true)
    | _ => Retry.call_ok 7
    end in
  List.length (snd (Retry.withRetry_call cfg false call (fun _ => 1 # 2))) = 2 /\
  forall k e d,
    In (k, e, d) (snd (Retry.withRetry_call cfg false call (fun _ => 1 # 2))) ->
    (0 <= d /\ d <= Retry.effectiveMax cfg)%Q \/
    e = Retry.rate_limit_error (Some d).
Proof.
  intros cfg call; split; [vm_compute; reflexivity|].
  apply (withRetry_delays cfg false call (fun _ => 1 # 2)).
  - vm_compute; discriminate.
  - vm_compute; discriminate.
  - intros k; split; vm_compute; first [reflexivity | discriminate].
Defined.

Module OrchestratorFacts.
Import Orchestrator.

Lemma recorded_errors_app_agent l j r :
  recorded_errors (l ++ [r]) j = recorded_errors l j + count_errors (responses r).
Proof.
  unfold recorded_errors; rewrite map_app, list_sum_app; simpl; lia.
Qed.

Lemma recorded_errors_app_judge l j r :
  recorded_errors l (j ++ [r]) = recorded_errors l j + judge_round_errors r.
Proof.
  unfold recorded_errors; rewrite map_app, list_sum_app; simpl; lia.
Qed.

(** The agent loop never throws; it keeps the judge rounds, adds agent
    rounds only up to [maxAgentRounds], counts the error responses of the
    rounds it adds, and either returns in [consensus_reached] with an
    agent-consensus verdict or leaves the phase, the verdict and
    [completedAt] as they were. *)
Lemma agent_loop_spec gen det now cfg calls el fuel s :
  exists b s1,
    agent_loop gen det now cfg calls el fuel s = Ok (b, s1) /\
    judgeRounds s1 = judgeRounds s /\
    totalErrors s1 + recorded_errors (agentRounds s) (judgeRounds s)
      = totalErrors s + recorded_errors (agentRounds s1) (judgeRounds s1) /\
    List.length (agentRounds s1)
      <= Nat.max (List.length (agentRounds s)) (maxAgentRounds cfg) /\
    ((b = true /\ phase s1 = consensus_reached /\ completedAt s1 = Some now /\
      exists v, finalVerdict s1 = Some v /\ source v = agent_consensus) \/
     (b = false /\ phase s1 = phase s /\ finalVerdict s1 = finalVerdict s /\
      completedAt s1 = completedAt s)).
Proof.
  revert s; induction fuel as [|f IH]; intros s; cbn [agent_loop].
  - exists false, s; repeat split; try lia; right; repeat split.
  - destruct (phase_eqb (phase s) agent_debate
              && (S (List.length (agentRounds s)) <=? maxAgentRounds cfg))
      eqn:G; [|exists false, s; repeat split; try lia; right; repeat split].
    apply andb_true_iff in G; destruct G as [Gp Gr].
    apply Nat.leb_le in Gr.
    assert (Hp : phase s = agent_debate) by (destruct (phase s); try discriminate; reflexivity).
    destruct (if S _ =? 1 then _ else _) as [cid ctext].
    match goal with |- context [Engine.runDebateRound ?a ?b ?c ?d ?e ?f ?g ?h ?i ?j] =>
      set (rr := Engine.runDebateRound a b c d e f g h i j) end.
    clearbody rr.
    destruct (consensusReached rr && _ && _).
    + assert (T : transitionTo now (addAgentRound s rr) consensus_reached
                  = Ok (with_phase (addAgentRound s rr) consensus_reached (Some now)))
        by (unfold transitionTo; simpl; rewrite Hp; reflexivity).
      rewrite T; cbn [bind].
      eexists _, _; split; [reflexivity|]; simpl.
      rewrite recorded_errors_app_agent, length_app; simpl.
      split; [reflexivity|]; split; [lia|]; split; [lia|].
      left; repeat split; eexists; split; reflexivity.
    + destruct (IH (addAgentRound s rr)) as (b & s1 & E & J & Er & L & P).
      exists b, s1; split; [exact E|]; simpl in J, Er, L, P.
      rewrite recorded_errors_app_agent, length_app in *; simpl in L.
      split; [exact J|]; split; [lia|]; split; [lia|].
      rewrite Hp in P; simpl in P; rewrite Hp; exact P.
Qed.

(** The judge loop never throws; it keeps the agent rounds, adds judge
    rounds only up to [maxJudgeRounds], counts their error evaluations, and
    either returns in [consensus_reached] with a judge-consensus verdict or
    leaves the phase, the verdict and [completedAt] as they were. *)
Lemma judge_loop_total now cfg ev fuel positions s :
  exists b s1,
    judge_loop now cfg ev fuel positions s = Ok (b, s1) /\
    agentRounds s1 = agentRounds s /\
    totalErrors s1 + recorded_errors (agentRounds s) (judgeRounds s)
      = totalErrors s + recorded_errors (agentRounds s1) (judgeRounds s1) /\
    List.length (judgeRounds s1)
      <= Nat.max (List.length (judgeRounds s)) (maxJudgeRounds cfg) /\
    ((b = true /\ phase s1 = consensus_reached /\ completedAt s1 = Some now /\
      exists v, finalVerdict s1 = Some v /\ source v = judge_consensus) \/
     (b = false /\ phase s1 = phase s /\ finalVerdict s1 = finalVerdict s /\
      completedAt s1 = completedAt s)).
Proof.
  revert s; induction fuel as [|f IH]; intros s; cbn [judge_loop].
  - exists false, s; repeat split; try lia; right; repeat split.
  - destruct (phase_eqb (phase s) judge_evaluation
              && (S (List.length (judgeRounds s)) <=? maxJudgeRounds cfg))
      eqn:G; [|exists false, s; repeat split; try lia; right; repeat split].
    apply andb_true_iff in G; destruct G as [Gp Gr].
    apply Nat.leb_le in Gr.
    assert (Hp : phase s = judge_evaluation) by (destruct (phase s); try discriminate; reflexivity).
    set (rr := runJudgeRound cfg _ positions _ now); clearbody rr.
    destruct (jr_consensusReached rr && _).
    + assert (T : transitionTo now (addJudgeRound s rr) consensus_reached
                  = Ok (with_phase (addJudgeRound s rr) consensus_reached (Some now)))
        by (unfold transitionTo; simpl; rewrite Hp; reflexivity).
      rewrite T; cbn [bind].
      eexists _, _; split; [reflexivity|]; simpl.
      rewrite recorded_errors_app_judge, length_app; unfold judge_round_errors; simpl.
      split; [reflexivity|]; split; [lia|]; split; [lia|].
      left; repeat split; eexists; split; reflexivity.
    + destruct (IH (addJudgeRound s rr)) as (b & s1 & E & J & Er & L & P).
      exists b, s1; split; [exact E|]; simpl in J, Er, L, P.
      rewrite recorded_errors_app_judge, length_app in *; unfold judge_round_errors in Er;
        simpl in L.
      split; [exact J|]; split; [lia|]; split; [lia|].
      rewrite Hp in P; simpl in P; rewrite Hp; exact P.
Qed.

Lemma transitionTo_with now s p :
  existsb (phase_eqb p) (VALID_TRANSITIONS (phase s)) = true ->
  transitionTo now s p = Ok (with_phase s p (if is_terminal p then Some now else completedAt s)).
Proof. unfold transitionTo; intros ->; reflexivity. Qed.

Lemma runAgentDebatePhase_spec gen det now cfg calls el s :
  phase s = agent_debate ->
  exists s',
    runAgentDebatePhase gen det now cfg calls el s = Ok s' /\
    judgeRounds s' = judgeRounds s /\
    totalErrors s' + recorded_errors (agentRounds s) (judgeRounds s)
      = totalErrors s + recorded_errors (agentRounds s') (judgeRounds s') /\
    List.length (agentRounds s')
      <= Nat.max (List.length (agentRounds s)) (maxAgentRounds cfg) /\
    ((phase s' = consensus_reached /\ completedAt s' = Some now /\
      exists v, finalVerdict s' = Some v /\ source v = agent_consensus) \/
     (phase s' = judge_evaluation /\ judgePanelEnabled cfg = true /\
      3 <= List.length (judges cfg) /\
      finalVerdict s' = finalVerdict s /\ completedAt s' = completedAt s) \/
     (phase s' = deadlock /\ completedAt s' = Some now /\
      (finalVerdict s' = finalVerdict s \/
       exists v, finalVerdict s' = Some v /\ source v = src_deadlock))).
Proof.
  intros Hp; unfold runAgentDebatePhase.
  destruct (agent_loop_spec gen det now cfg calls el (S (maxAgentRounds cfg)) s)
    as (b & s1 & E & J & Er & L & P).
  rewrite E; cbn [bind].
  destruct P as [(-> & P1 & P2 & P3)|(-> & P1 & P2 & P3)].
  - exists s1; split; [reflexivity|]; repeat (split; [assumption|]); left; auto.
  - rewrite Hp in P1.
    destruct (judgePanelEnabled cfg && _ && (3 <=? List.length (judges cfg))) eqn:C.
    + apply andb_true_iff in C; destruct C as [C C3]; apply andb_true_iff in C;
        destruct C as [C _]; apply Nat.leb_le in C3.
      rewrite transitionTo_with by (rewrite P1; reflexivity).
      eexists; split; [reflexivity|]; simpl.
      repeat (split; [assumption|]); right; left; repeat split; congruence.
    + rewrite transitionTo_with by (rewrite P1; reflexivity); cbn [bind].
      destruct (getLastAgentRound (with_phase s1 deadlock _)) as [lr|];
        [destruct (getNextCandidate lr) as [[i t]|]|];
        eexists; (split; [reflexivity|]); simpl;
        repeat (split; [assumption|]); right; right; split; try reflexivity;
        split; try reflexivity; eauto.
Qed.

Lemma runJudgeEvaluationPhase_spec now cfg ev s :
  phase s = judge_evaluation ->
  exists s',
    runJudgeEvaluationPhase now cfg ev s = Ok s' /\
    agentRounds s' = agentRounds s /\
    totalErrors s' + recorded_errors (agentRounds s) (judgeRounds s)
      = totalErrors s + recorded_errors (agentRounds s') (judgeRounds s') /\
    List.length (judgeRounds s')
      <= Nat.max (List.length (judgeRounds s)) (maxJudgeRounds cfg) /\
    completedAt s' = Some now /\
    ((phase s' = consensus_reached /\
      exists v, finalVerdict s' = Some v /\ source v = judge_consensus) \/
     (phase s' = deadlock /\
      (finalVerdict s' = finalVerdict s \/
       exists v, finalVerdict s' = Some v /\ source v = src_deadlock))).
Proof.
  intros Hp; unfold runJudgeEvaluationPhase.
  destruct (judge_loop_total now cfg ev (S (maxJudgeRounds cfg))
              (collectPositions (agentRounds s) (judgePositionsScope cfg)) s)
    as (b & s1 & E & J & Er & L & P).
  rewrite E; cbn [bind].
  destruct P as [(-> & P1 & P2 & P3)|(-> & P1 & P2 & P3)].
  - exists s1; split; [reflexivity|]; repeat (split; [assumption|]); left; auto.
  - rewrite Hp in P1; unfold judgeDeadlock.
    rewrite transitionTo_with by (rewrite P1; reflexivity); cbn [bind].
    destruct (getLastJudgeRound (with_phase s1 deadlock _)) as [lj|];
      [destruct (truthy (jr_consensusPositionId lj))|];
      eexists; (split; [reflexivity|]); simpl;
      repeat (split; [assumption|]); (split; [reflexivity|]); right;
      split; try reflexivity; eauto.
Qed.

Lemma agent_then_judge_spec gen det now cfg calls el ev s :
  phase s = agent_debate ->
  exists s',
    (s2 <- runAgentDebatePhase gen det now cfg calls el s ;;
     if phase_eqb (phase s2) judge_evaluation
     then runJudgeEvaluationPhase now cfg ev s2 else Ok s2) = Ok s' /\
    (phase s' = consensus_reached \/ phase s' = deadlock) /\
    totalErrors s' + recorded_errors (agentRounds s) (judgeRounds s)
      = totalErrors s + recorded_errors (agentRounds s') (judgeRounds s') /\
    List.length (agentRounds s')
      <= Nat.max (List.length (agentRounds s)) (maxAgentRounds cfg) /\
    List.length (judgeRounds s')
      <= Nat.max (List.length (judgeRounds s)) (maxJudgeRounds cfg) /\
    ((judgePanelEnabled cfg = false \/ List.length (judges cfg) < 3) ->
     judgeRounds s' = judgeRounds s) /\
    completedAt s' = Some now /\
    (finalVerdict s = None ->
     (phase s' = consensus_reached -> exists v, finalVerdict s' = Some v /\
        (source v = agent_consensus \/ source v = judge_consensus)) /\
     (phase s' = deadlock -> forall v, finalVerdict s' = Some v ->
        source v = src_deadlock)).
Proof.
  intros Hp.
  destruct (runAgentDebatePhase_spec gen det now cfg calls el s Hp)
    as (s2 & E & J & Er & L & P).
  rewrite E; cbn [bind].
  destruct P as [(P1 & P2 & v & P3 & P4)|[(P1 & P2 & P3 & P4 & P5)|(P1 & P2 & P3)]].
  - rewrite P1; simpl; exists s2; split; [reflexivity|].
    split; [left; exact P1|]; split; [exact Er|]; split; [exact L|].
    rewrite J; split; [lia|]; split; [reflexivity|]; split; [exact P2|].
    intros _; split; [intros _; exists v; auto|congruence].
  - rewrite P1; simpl.
    destruct (runJudgeEvaluationPhase_spec now cfg ev s2 P1)
      as (s3 & E3 & A3 & Er3 & L3 & C3 & Q3).
    exists s3; split; [exact E3|].
    rewrite A3, J in *.
    split; [destruct Q3 as [[Q _]|[Q _]]; auto|].
    split; [lia|]; split; [lia|]; split; [lia|].
    split; [intros [H|H]; [congruence|lia]|]; split; [exact C3|].
    intros Hv; rewrite P4, Hv in Q3.
    destruct Q3 as [(Q & w & Q1 & Q2)|(Q & [Q1|(w & Q1 & Q2)])];
      (split; intros Hph; [|intros v Hw]); try congruence.
    all: exists w; auto.
  - rewrite P1; simpl; exists s2; split; [reflexivity|].
    split; [right; exact P1|]; split; [exact Er|]; split; [exact L|].
    rewrite J; split; [lia|]; split; [reflexivity|]; split; [exact P2|].
    intros Hv; split; [congruence|]; intros _ w Hw.
    destruct P3 as [P3|(u & P3 & P4)]; congruence.
Qed.

(** The phases of [runDebate], from any session: they never throw and end
    in a terminal phase. *)
Lemma runPhases_spec gen det now cfg calls el ev s :
  exists s',
    runPhases gen det now cfg calls el ev s = Ok s' /\
    (phase s' = consensus_reached \/ phase s' = deadlock) /\
    totalErrors s' + recorded_errors (agentRounds s) (judgeRounds s)
      = totalErrors s + recorded_errors (agentRounds s') (judgeRounds s') /\
    List.length (agentRounds s')
      <= Nat.max (List.length (agentRounds s)) (maxAgentRounds cfg) /\
    List.length (judgeRounds s')
      <= Nat.max (List.length (judgeRounds s)) (maxJudgeRounds cfg) /\
    (phase s <> judge_evaluation ->
     (judgePanelEnabled cfg = false \/ List.length (judges cfg) < 3) ->
     judgeRounds s' = judgeRounds s) /\
    (is_terminal (phase s) = false -> completedAt s' = Some now) /\
    (is_terminal (phase s) = false -> finalVerdict s = None ->
     (phase s' = consensus_reached -> exists v, finalVerdict s' = Some v /\
        (source v = agent_consensus \/ source v = judge_consensus)) /\
     (phase s' = deadlock -> forall v, finalVerdict s' = Some v ->
        source v = src_deadlock)).
Proof.
  unfold runPhases; destruct (phase s) eqn:Hp; cbn [phase_eqb].
  - rewrite transitionTo_with by (rewrite Hp; reflexivity); cbn [bind].
    destruct (agent_then_judge_spec gen det now cfg calls el ev
                (with_phase s agent_debate (completedAt s)) eq_refl)
      as (s' & E & R); simpl in E, R.
    exists s'; split; [exact E|].
    destruct R as (R1 & R2 & R3 & R4 & R5 & R6 & R7).
    split; [exact R1|]; split; [exact R2|]; split; [exact R3|];
      split; [exact R4|]; split; [intros _; exact R5|];
      split; [intros _; exact R6|]; intros _; exact R7.
  - repeat (cbn [bind phase_eqb]; rewrite ?Hp; cbn [bind phase_eqb]).
    destruct (agent_then_judge_spec gen det now cfg calls el ev s Hp)
      as (s' & E & R).
    exists s'; split; [exact E|].
    destruct R as (R1 & R2 & R3 & R4 & R5 & R6 & R7).
    split; [exact R1|]; split; [exact R2|]; split; [exact R3|];
      split; [exact R4|]; split; [intros _; exact R5|];
      split; [intros _; exact R6|]; intros _; exact R7.
  - repeat (cbn [bind phase_eqb]; rewrite ?Hp; cbn [bind phase_eqb]).
    destruct (runJudgeEvaluationPhase_spec now cfg ev s Hp)
      as (s' & E & A & Er & L & C & Q).
    exists s'; split; [exact E|]; rewrite A in Er |- *.
    split; [destruct Q as [[Q _]|[Q _]]; auto|].
    split; [exact Er|]; split; [lia|]; split; [exact L|].
    split; [congruence|]; split; [intros; exact C|].
    intros _ Hv; rewrite Hv in Q.
    destruct Q as [(Q & w & Q1 & Q2)|(Q & [Q1|(w & Q1 & Q2)])];
      (split; intros Hph; [|intros v Hw]); try congruence.
    all: exists w; auto.
  - repeat (cbn [bind phase_eqb]; rewrite ?Hp; cbn [bind phase_eqb]).
    exists s; repeat split; auto; try lia; discriminate.
  - repeat (cbn [bind phase_eqb]; rewrite ?Hp; cbn [bind phase_eqb]).
    exists s; repeat split; auto; try lia; discriminate.
Qed.

End OrchestratorFacts.

Module OrchestratorIOFacts.
Import Orchestrator OrchestratorIO.

Lemma bind_assoc {A B C} (m : Result A) (k : A -> Result B) (k2 : B -> Result C) :
  bind (bind m k) k2 = bind m (fun a => bind (k a) k2).
Proof. destruct m; reflexivity. Qed.

Lemma refines_bind {E A B} (m : Run E A) (p : Result A) (k : A -> Run E B)
    (k' : A -> Result B) :
  refines m p -> (forall a, refines (k a) (k' a)) ->
  refines (run_bind m k) (bind p k').
Proof.
  destruct m as [a|[e|e]]; cbn [refines run_bind]; intros H Hk;
    [subst p; apply Hk|subst p; reflexivity|exact I].
Qed.

Lemma refines_lift {E A} (p : Result A) : refines (E:=E) (lift p) p.
Proof. destruct p; reflexivity. Qed.

Lemma lift_bind {E A B} (m : Result A) (k : A -> Result B) :
  lift (E:=E) (bind m k) = run_bind (lift m) (fun a => lift (k a)).
Proof. destruct m; reflexivity. Qed.

Section Refine.

Variable IOError : Type.
Variable gen : string -> string.
Variable det : bool.
Variable now : string.
Variable cfg : DebateConfig.
Variable topic : string.
Variable calls : nat -> nat -> string -> Engine.CallOutcome.
Variable el : nat -> nat -> nat.
Variable ev : nat -> list JudgeEvaluation.
Variable dir : option string.
Variable resolve : string -> string -> string.
Variable save : string -> OrchestratorIO.CheckpointData -> option IOError.
Variable load : string -> OrchestratorIO.CheckpointData + IOError.
Variable write : string -> DebateOutput -> option IOError.

Lemma save_refines {A} (s : DebateSession) (m : Run IOError A) (p : Result A) :
  refines m p ->
  refines (run_bind (saveIfConfigured IOError cfg topic dir resolve save s)
             (fun _ => m)) p.
Proof.
  intros H; unfold saveIfConfigured.
  destruct dir as [d|]; [|exact H].
  destruct (String.eqb d ""); [exact H|].
  destruct (save _ _); [exact I|exact H].
Qed.

Lemma agent_loop_refines (f : nat) (s : DebateSession) :
  refines (OrchestratorIO.agent_loop IOError gen det now cfg topic calls el dir
             resolve save f s)
          (Orchestrator.agent_loop gen det now cfg calls el f s).
Proof.
  revert s; induction f as [|f IH]; intros s; [reflexivity|].
  cbn [OrchestratorIO.agent_loop Orchestrator.agent_loop].
  destruct (phase_eqb _ _ && _)%bool; [|reflexivity].
  destruct (if Nat.eqb _ 1 then _ else _) as [cid ctext].
  apply save_refines.
  destruct (_ && _ && _)%bool; [|apply IH].
  apply refines_bind; [apply refines_lift|intros a; reflexivity].
Qed.

Lemma judge_loop_refines (f : nat) positions (s : DebateSession) :
  refines (OrchestratorIO.judge_loop IOError now cfg topic ev dir resolve save
             f positions s)
          (Orchestrator.judge_loop now cfg ev f positions s).
Proof.
  revert s; induction f as [|f IH]; intros s; [reflexivity|].
  cbn [OrchestratorIO.judge_loop Orchestrator.judge_loop].
  destruct (phase_eqb _ _ && _)%bool; [|reflexivity].
  apply save_refines.
  destruct (_ && _)%bool; [|apply IH].
  apply refines_bind; [apply refines_lift|intros a; reflexivity].
Qed.

Lemma runAgentDebatePhase_refines (s : DebateSession) :
  refines (OrchestratorIO.runAgentDebatePhase IOError gen det now cfg topic
             calls el dir resolve save s)
          (Orchestrator.runAgentDebatePhase gen det now cfg calls el s).
Proof.
  unfold OrchestratorIO.runAgentDebatePhase, Orchestrator.runAgentDebatePhase.
  apply refines_bind; [apply agent_loop_refines|].
  intros [[|] s1]; cbv beta iota; [reflexivity|apply refines_lift].
Qed.

Lemma runJudgeEvaluationPhase_refines (s : DebateSession) :
  refines (OrchestratorIO.runJudgeEvaluationPhase IOError now cfg topic ev dir
             resolve save s)
          (Orchestrator.runJudgeEvaluationPhase now cfg ev s).
Proof.
  unfold OrchestratorIO.runJudgeEvaluationPhase,
    Orchestrator.runJudgeEvaluationPhase; cbv zeta.
  apply refines_bind; [apply judge_loop_refines|].
  intros [[|] s1]; cbv beta iota; [reflexivity|apply refines_lift].
Qed.

Lemma runFrom_refines (outputPath : option string) (s : DebateSession) :
  refines (OrchestratorIO.runFrom IOError gen det now cfg topic calls el ev dir
             resolve save write outputPath s)
          (Orchestrator.runDebate gen det now cfg calls el ev s).
Proof.
  unfold OrchestratorIO.runFrom, Orchestrator.runDebate, Orchestrator.runPhases.
  rewrite bind_assoc; apply refines_bind.
  { destruct (phase_eqb (phase s) init); [apply refines_lift|reflexivity]. }
  intros s1; rewrite bind_assoc; apply refines_bind.
  { destruct (phase_eqb (phase s1) agent_debate);
      [apply runAgentDebatePhase_refines|reflexivity]. }
  intros s2; apply refines_bind.
  { destruct (phase_eqb (phase s2) judge_evaluation);
      [apply runJudgeEvaluationPhase_refines|reflexivity]. }
  intros s3; cbv beta zeta.
  destruct outputPath as [p|]; [|reflexivity].
  destruct (String.eqb p ""); [reflexivity|].
  destruct (write p _); [exact I|reflexivity].
Qed.

Lemma no_io_bind {A B} (m : Run IOError A) (k : A -> Run IOError B) :
  no_io_error m -> (forall a, no_io_error (k a)) -> no_io_error (run_bind m k).
Proof. destruct m as [a|[e|e]]; cbn; auto. Qed.

Lemma no_io_lift {A} (p : Result A) : no_io_error (E:=IOError) (lift p).
Proof. destruct p; exact I. Qed.

Section NoIOFailure.

Hypothesis Hsave : forall p d, save p d = None.
Hypothesis Hwrite : forall p o, write p o = None.

Lemma save_no_io (s : DebateSession) :
  no_io_error (saveIfConfigured IOError cfg topic dir resolve save s).
Proof.
  unfold saveIfConfigured.
  destruct dir as [d|]; [|exact I].
  destruct (String.eqb d ""); [exact I|rewrite Hsave; exact I].
Qed.

Lemma agent_loop_no_io (f : nat) (s : DebateSession) :
  no_io_error (OrchestratorIO.agent_loop IOError gen det now cfg topic calls el
                 dir resolve save f s).
Proof.
  revert s; induction f as [|f IH]; intros s; [exact I|].
  cbn [OrchestratorIO.agent_loop].
  destruct (phase_eqb _ _ && _)%bool; [|exact I].
  destruct (if Nat.eqb _ 1 then _ else _) as [cid ctext].
  apply no_io_bind; [apply save_no_io|intros _].
  destruct (_ && _ && _)%bool; [|apply IH].
  apply no_io_bind; [apply no_io_lift|intros; exact I].
Qed.

Lemma judge_loop_no_io (f : nat) positions (s : DebateSession) :
  no_io_error (OrchestratorIO.judge_loop IOError now cfg topic ev dir resolve
                 save f positions s).
Proof.
  revert s; induction f as [|f IH]; intros s; [exact I|].
  cbn [OrchestratorIO.judge_loop].
  destruct (phase_eqb _ _ && _)%bool; [|exact I].
  apply no_io_bind; [apply save_no_io|intros _].
  destruct (_ && _)%bool; [|apply IH].
  apply no_io_bind; [apply no_io_lift|intros; exact I].
Qed.

Lemma runFrom_no_io (outputPath : option string) (s : DebateSession) :
  no_io_error (OrchestratorIO.runFrom IOError gen det now cfg topic calls el ev
                 dir resolve save write outputPath s).
Proof.
  unfold OrchestratorIO.runFrom.
  apply no_io_bind.
  { destruct (phase_eqb (phase s) init); [apply no_io_lift|exact I]. }
  intros s1; apply no_io_bind.
  { destruct (phase_eqb (phase s1) agent_debate); [|exact I].
    unfold OrchestratorIO.runAgentDebatePhase.
    apply no_io_bind; [apply agent_loop_no_io|].
    intros [[|] s2]; [exact I|apply no_io_lift]. }
  intros s2; apply no_io_bind.
  { destruct (phase_eqb (phase s2) judge_evaluation); [|exact I].
    unfold OrchestratorIO.runJudgeEvaluationPhase; cbv zeta.
    apply no_io_bind; [apply judge_loop_no_io|].
    intros [[|] s3]; [exact I|apply no_io_lift]. }
  intros s3; cbv beta zeta.
  destruct outputPath as [p|]; [|exact I].
  destruct (String.eqb p ""); [exact I|rewrite Hwrite; exact I].
Qed.

End NoIOFailure.

(** [runDebate] resolves to [buildOutput] of the session the phases end
    in, from the session it starts from, or is rejected with an I/O
    error. *)
Lemma runDebate_cases (resumeFrom outputPath : option string) (freshId : string) :
  match OrchestratorIO.runDebate IOError gen det now cfg topic calls el ev dir
          resolve save load write resumeFrom outputPath freshId with
  | run_ok out =>
      exists s0 s,
        startSession IOError cfg topic load resumeFrom freshId = run_ok s0 /\
        runPhases gen det now cfg calls el ev s0 = Ok s /\ out = buildOutput s
  | run_throw e => exists ioe, e = io_error ioe
  end.
Proof.
  unfold OrchestratorIO.runDebate.
  destruct (startSession IOError cfg topic load resumeFrom freshId) as [s0|e] eqn:St.
  - cbn [run_bind].
    pose proof (runFrom_refines outputPath s0) as R.
    destruct (OrchestratorFacts.runPhases_spec gen det now cfg calls el ev s0)
      as (s & E & _).
    unfold Orchestrator.runDebate in R; rewrite E in R; cbn [bind] in R.
    destruct (OrchestratorIO.runFrom IOError gen det now cfg topic calls el ev dir
                resolve save write outputPath s0) as [o|[e|e]];
      cbn [refines] in R.
    + exists s0, s; split; [reflexivity|]; split; [exact E|].
      inversion R; reflexivity.
    + discriminate R.
    + exists e; reflexivity.
  - cbn [run_bind]. unfold startSession in St.
    destruct resumeFrom as [p|]; [|discriminate St].
    destruct (String.eqb p ""); [discriminate St|].
    destruct (load p) as [d|ioe]; [discriminate St|].
    inversion St; exists ioe; reflexivity.
Qed.

End Refine.

End OrchestratorIOFacts.

(** [runDebate] is never rejected with an engine error, whatever session
    it resumes from and whatever the agents and judges answer: it either
    resolves to an output whose session is in [consensus_reached] or
    [deadlock], so that the [debate] command exits with 0 or 2, never with
    [EXIT_CODE.ERROR], or it is rejected by a checkpoint load or save or by
    the output write.  When every checkpoint save, the output write and
    the checkpoint load succeed, it resolves. *)
Theorem runDebate_terminal (IOError : Type) (gen : string -> string)
    (det : bool) (now : string) (cfg : DebateConfig) (topic : string)
    (calls : nat -> nat -> string -> Engine.CallOutcome)
    (elapsed : nat -> nat -> nat) (evals : nat -> list JudgeEvaluation)
    (checkpointDir : option string) (resolve : string -> string -> string)
    (save : string -> OrchestratorIO.CheckpointData -> option IOError)
    (load : string -> OrchestratorIO.CheckpointData + IOError)
    (write : string -> Orchestrator.DebateOutput -> option IOError)
    (resumeFrom outputPath : option string) (freshId : string) :
  let r := OrchestratorIO.runDebate IOError gen det now cfg topic calls elapsed
             evals checkpointDir resolve save load write resumeFrom outputPath
             freshId in
  match r with
  | OrchestratorIO.run_ok out =>
      (Orchestrator.o_phase (Orchestrator.session out) = consensus_reached \/
       Orchestrator.o_phase (Orchestrator.session out) = deadlock) /\
      Cli.exitCodeOf (Orchestrator.o_phase (Orchestrator.session out))
        <> Cli.EXIT_CODE_ERROR
  | OrchestratorIO.run_throw e => exists ioe, e = OrchestratorIO.io_error ioe
  end /\
  ((forall p d, save p d = None) -> (forall p o, write p o = None) ->
   (forall p, exists d, load p = inl d) ->
   exists out, r = OrchestratorIO.run_ok out).
Proof.
  cbv zeta.
  pose proof (OrchestratorIOFacts.runDebate_cases IOError gen det now cfg topic
                calls elapsed evals checkpointDir resolve save load write
                resumeFrom outputPath freshId) as H.
  assert (N : (forall p d, save p d = None) -> (forall p o, write p o = None) ->
              (forall p, exists d, load p = inl d) ->
              OrchestratorIO.no_io_error
                (OrchestratorIO.runDebate IOError gen det now cfg topic calls
                   elapsed evals checkpointDir resolve save load write
                   resumeFrom outputPath freshId)).
  { intros Hs Hw Hl; unfold OrchestratorIO.runDebate, OrchestratorIO.startSession.
    destruct resumeFrom as [p|].
    - destruct (String.eqb p "");
        [|destruct (Hl p) as (d & ->)]; cbn [OrchestratorIO.run_bind];
        apply OrchestratorIOFacts.runFrom_no_io; assumption.
    - cbn [OrchestratorIO.run_bind];
        apply OrchestratorIOFacts.runFrom_no_io; assumption. }
  destruct (OrchestratorIO.runDebate _ _ _ _ _ _ _ _ _ _ _ _ _ _ _ _ _)
    as [out|e].
  - split; [|intros; exists out; reflexivity].
    destruct H as (s0 & s & _ & E & ->).
    destruct (OrchestratorFacts.runPhases_spec gen det now cfg calls elapsed
                evals s0) as (s' & E' & P & _).
    rewrite E in E'; inversion E'; subst s'; simpl.
    split; [exact P|].
    destruct P as [P|P]; rewrite P; unfold Cli.exitCodeOf; simpl; discriminate.
  - split; [exact H|].
    intros Hs Hw Hl; specialize (N Hs Hw Hl).
    destruct H as (ioe & ->); destruct N.
Qed.

(** A debate that starts fresh (no [resumeFrom]) and resolves records at
    most [maxAgentRounds] agent rounds and at most [maxJudgeRounds] judge
    rounds, and no judge round at all when the judge panel is disabled or
    has fewer than three judges; otherwise it is rejected with an I/O
    error. *)
Theorem runDebate_fresh_rounds (IOError : Type) (gen : string -> string)
    (det : bool) (now : string) (cfg : DebateConfig) (topic : string)
    (calls : nat -> nat -> string -> Engine.CallOutcome)
    (elapsed : nat -> nat -> nat) (evals : nat -> list JudgeEvaluation)
    (checkpointDir : option string) (resolve : string -> string -> string)
    (save : string -> OrchestratorIO.CheckpointData -> option IOError)
    (load : string -> OrchestratorIO.CheckpointData + IOError)
    (write : string -> Orchestrator.DebateOutput -> option IOError)
    (outputPath : option string) (freshId : string) :
  match OrchestratorIO.runDebate IOError gen det now cfg topic calls elapsed
          evals checkpointDir resolve save load write None outputPath
          freshId with
  | OrchestratorIO.run_ok out =>
      List.length (Orchestrator.ad_rounds (Orchestrator.agentDebate out))
        <= maxAgentRounds cfg /\
      List.length (Orchestrator.jp_rounds (Orchestrator.judgePanel out))
        <= maxJudgeRounds cfg /\
      ((judgePanelEnabled cfg = false \/ List.length (judges cfg) < 3) ->
       Orchestrator.jp_rounds (Orchestrator.judgePanel out) = [])
  | OrchestratorIO.run_throw e => exists ioe, e = OrchestratorIO.io_error ioe
  end.
Proof.
  pose proof (OrchestratorIOFacts.runDebate_cases IOError gen det now cfg topic
                calls elapsed evals checkpointDir resolve save load write
                None outputPath freshId) as H.
  destruct (OrchestratorIO.runDebate _ _ _ _ _ _ _ _ _ _ _ _ _ _ _ _ _)
    as [out|e]; [|exact H].
  destruct H as (s0 & s & St & E & ->).
  cbn in St; inversion St; subst s0.
  destruct (OrchestratorFacts.runPhases_spec gen det now cfg calls elapsed evals
              (Orchestrator.newSession cfg freshId topic))
    as (s' & E' & _ & _ & La & Lj & J & _).
  rewrite E in E'; inversion E'; subst s'; simpl in *.
  split; [exact La|]; split; [exact Lj|].
  intros H; apply J; [discriminate|exact H].
Qed.

(** When a debate that starts fresh resolves, the [totalErrors] counter of
    its output equals the number of agent responses and judge evaluations
    with status [error] in the rounds the output lists; otherwise it is
    rejected with an I/O error. *)
Theorem runDebate_fresh_errors (IOError : Type) (gen : string -> string)
    (det : bool) (now : string) (cfg : DebateConfig) (topic : string)
    (calls : nat -> nat -> string -> Engine.CallOutcome)
    (elapsed : nat -> nat -> nat) (evals : nat -> list JudgeEvaluation)
    (checkpointDir : option string) (resolve : string -> string -> string)
    (save : string -> OrchestratorIO.CheckpointData -> option IOError)
    (load : string -> OrchestratorIO.CheckpointData + IOError)
    (write : string -> Orchestrator.DebateOutput -> option IOError)
    (outputPath : option string) (freshId : string) :
  match OrchestratorIO.runDebate IOError gen det now cfg topic calls elapsed
          evals checkpointDir resolve save load write None outputPath
          freshId with
  | OrchestratorIO.run_ok out =>
      Orchestrator.o_totalErrors (Orchestrator.session out)
      = recorded_errors (Orchestrator.ad_rounds (Orchestrator.agentDebate out))
          (Orchestrator.jp_rounds (Orchestrator.judgePanel out))
  | OrchestratorIO.run_throw e => exists ioe, e = OrchestratorIO.io_error ioe
  end.
Proof.
  pose proof (OrchestratorIOFacts.runDebate_cases IOError gen det now cfg topic
                calls elapsed evals checkpointDir resolve save load write
                None outputPath freshId) as H.
  destruct (OrchestratorIO.runDebate _ _ _ _ _ _ _ _ _ _ _ _ _ _ _ _ _)
    as [out|e]; [|exact H].
  destruct H as (s0 & s & St & E & ->).
  cbn in St; inversion St; subst s0.
  destruct (OrchestratorFacts.runPhases_spec gen det now cfg calls elapsed evals
              (Orchestrator.newSession cfg freshId topic))
    as (s' & E' & _ & Er & _).
  rewrite E in E'; inversion E'; subst s'; simpl in *.
  unfold recorded_errors in Er at 1; simpl in Er; lia.
Qed.

(** When a debate that starts fresh resolves, its output is stamped with
    [completedAt], and the source of its final verdict matches the phase:
    an agent or judge consensus when the phase is [consensus_reached],
    [deadlock] when the phase is [deadlock]; otherwise it is rejected with
    an I/O error. *)
Theorem runDebate_fresh_verdict (IOError : Type) (gen : string -> string)
    (det : bool) (now : string) (cfg : DebateConfig) (topic : string)
    (calls : nat -> nat -> string -> Engine.CallOutcome)
    (elapsed : nat -> nat -> nat) (evals : nat -> list JudgeEvaluation)
    (checkpointDir : option string) (resolve : string -> string -> string)
    (save : string -> OrchestratorIO.CheckpointData -> option IOError)
    (load : string -> OrchestratorIO.CheckpointData + IOError)
    (write : string -> Orchestrator.DebateOutput -> option IOError)
    (outputPath : option string) (freshId : string) :
  match OrchestratorIO.runDebate IOError gen det now cfg topic calls elapsed
          evals checkpointDir resolve save load write None outputPath
          freshId with
  | OrchestratorIO.run_ok out =>
      Orchestrator.o_completedAt (Orchestrator.session out) = Some now /\
      (Orchestrator.o_phase (Orchestrator.session out) = consensus_reached ->
       source (Orchestrator.out_finalVerdict out) = agent_consensus \/
       source (Orchestrator.out_finalVerdict out) = judge_consensus) /\
      (Orchestrator.o_phase (Orchestrator.session out) = deadlock ->
       source (Orchestrator.out_finalVerdict out) = src_deadlock)
  | OrchestratorIO.run_throw e => exists ioe, e = OrchestratorIO.io_error ioe
  end.
Proof.
  pose proof (OrchestratorIOFacts.runDebate_cases IOError gen det now cfg topic
                calls elapsed evals checkpointDir resolve save load write
                None outputPath freshId) as H.
  destruct (OrchestratorIO.runDebate _ _ _ _ _ _ _ _ _ _ _ _ _ _ _ _ _)
    as [out|e]; [|exact H].
  destruct H as (s0 & s & St & E & ->).
  cbn in St; inversion St; subst s0.
  destruct (OrchestratorFacts.runPhases_spec gen det now cfg calls elapsed evals
              (Orchestrator.newSession cfg freshId topic))
    as (s' & E' & _ & _ & _ & _ & _ & C & V).
  rewrite E in E'; inversion E'; subst s'; simpl in *.
  split; [exact (C eq_refl)|].
  destruct (V eq_refl eq_refl) as [V1 V2].
  split.
  - intros H; destruct (V1 H) as (v & -> & Hv); exact Hv.
  - intros H; destruct (finalVerdict s) as [v|] eqn:Ev;
      [exact (V2 H v eq_refl)|reflexivity].
Qed.

Module JudgeFacts2.
Import JudgeFacts.

(** The shared prefix of [detectJudgeConsensus]: with eligible
    evaluations, the result is the final [if] applied to a winner [W] and
    a vote count [mx] that is the number of eligible evaluations selecting
    [W] when [W] is a position. *)
Lemma detect_winner (evals : list JudgeEvaluation)
    (positions : list (string * string)) (thr minc : Q) :
  filter is_eligible evals <> [] ->
  exists W mx,
    (forall w, W = Some w -> mx = List.length (filter (selects w) (filter is_eligible evals))) /\
    detectJudgeConsensus evals positions thr minc =
    let eligible := filter is_eligible evals in
    if negb (truthy W) || Z.ltb (Z.of_nat mx)
                            (AgentConsensus.ceil_mul (List.length eligible) thr) then
      {| jc_reached := false; jc_positionId := W;
         jc_positionText :=
           if truthy W then
             match W with Some w => map_get positions w | None => None end
           else None;
         jc_confidence := 0;
         dissents := map judgeId eligible |}
    else
      let w := match W with Some w => w | None => "" end in
      let avgConfidence := mean_confidence (filter (selects w) eligible) in
      let others := map judgeId (filter (fun e => negb (selects w e)) eligible) in
      if Qltb avgConfidence minc then
        {| jc_reached := false; jc_positionId := W;
           jc_positionText := map_get positions w;
           jc_confidence := avgConfidence; dissents := others |}
      else
        {| jc_reached := true; jc_positionId := W;
           jc_positionText := map_get positions w;
           jc_confidence := avgConfidence; dissents := others |}.
Proof.
  intros Hne.
  unfold detectJudgeConsensus; cbv zeta.
  destruct (filter is_eligible evals) as [|e0 el0] eqn:Hel; [contradiction|].
  set (el := e0 :: el0).
  change (fold_left ?f el []) with (fold_left vote_step el []).
  set (votes := fold_left vote_step el []).
  set (sv := AgentConsensus.sort_by _ votes).
  match goal with
  | |- context [fold_left ?f sv (None, 0%nat)] =>
      destruct (fold_left f sv (None, 0%nat)) as [w1 mx] eqn:F1
  end.
  apply first_loop in F1.
  assert (Hcount : forall id, In (id, mx) sv ->
                   mx = List.length (filter (selects id) el)).
  { intros id Hin.
    apply AgentConsensusFacts.In_sort_by in Hin.
    apply map_get_In in Hin; [|apply nodup_fold; constructor].
    pose proof (cnt_fold el [] id) as C.
    unfold cnt in C at 1; fold votes in C; rewrite Hin in C.
    exact C. }
  assert (Hwin : forall W, (W = w1 \/ exists id c, W = Some id /\
                    In (id, c) (filter (fun '(_, count) => Nat.eqb count mx) sv)) ->
                 forall w, W = Some w -> mx = List.length (filter (selects w) el)).
  { intros W [->|(id & c & -> & Hin)] w HW.
    - destruct F1 as [[-> _]|(id & -> & Hin)]; [discriminate|].
      inversion HW; subst; apply Hcount; exact Hin.
    - inversion HW; subst id.
      apply filter_In in Hin; destruct Hin as (Hin & Hc).
      apply Nat.eqb_eq in Hc; subst c; apply Hcount; exact Hin. }
  match goal with
  | |- context [if Nat.ltb 1 ?n then fst (fold_left ?g ?t (w1, ?b)) else w1] =>
      assert (HW : let W := if Nat.ltb 1 n then fst (fold_left g t (w1, b)) else w1 in
                   W = w1 \/ exists id c, W = Some id /\
                     In (id, c) (filter (fun '(_, count) => Nat.eqb count mx) sv))
        by (cbv zeta; destruct (Nat.ltb 1 n);
            [apply fold_pick; intros w' b' id c;
             simpl; destruct (Qltb _ _); [right|left]; reflexivity
            |left; reflexivity]);
      exists (if Nat.ltb 1 n then fst (fold_left g t (w1, b)) else w1), mx;
      split; [exact (Hwin _ HW)|reflexivity]
  end.
Qed.

End JudgeFacts2.

(** When [detectJudgeConsensus] reports consensus, the winning position is
    a non-empty id [w], at least [requiredVotes = ceil(eligible *
    majorityThreshold)] eligible judges selected it, the confidence is the
    mean confidence of those judges and is at least [minConfidence], the
    text is [w]'s text in [positions], and the dissenters are exactly the
    eligible judges that selected another position. *)
Theorem detectJudgeConsensus_sound (evals : list JudgeEvaluation)
    (positions : list (string * string)) (thr minc : Q) :
  let r := detectJudgeConsensus evals positions thr minc in
  let eligible := filter is_eligible evals in
  jc_reached r = true ->
  exists w,
    jc_positionId r = Some w /\ w <> "" /\
    (AgentConsensus.ceil_mul (List.length eligible) thr
       <= Z.of_nat (List.length (filter (selects w) eligible)))%Z /\
    jc_confidence r = mean_confidence (filter (selects w) eligible) /\
    (minc <= jc_confidence r)%Q /\
    jc_positionText r = map_get positions w /\
    dissents r = map judgeId (filter (fun e => negb (selects w e)) eligible).
Proof.
  cbv zeta; intros Hr.
  destruct (filter is_eligible evals) eqn:Hel.
  - unfold detectJudgeConsensus in Hr; rewrite Hel in Hr; discriminate.
  - rewrite <- Hel in *; revert Hr.
    destruct (JudgeFacts2.detect_winner evals positions thr minc)
      as (W & mx & Hmx & ->); [rewrite Hel; discriminate|].
    cbv zeta.
    destruct (negb (truthy W) || Z.ltb (Z.of_nat mx) _) eqn:Ec;
      [discriminate|].
    destruct (Qltb _ minc) eqn:Eq; [discriminate|]; intros _.
    apply orb_false_iff in Ec; destruct Ec as [Ew Ec].
    destruct W as [w|]; [|discriminate].
    exists w; cbn [jc_positionId jc_confidence jc_positionText dissents].
    split; [reflexivity|]; split.
    { intros H; rewrite H in Ew; discriminate. }
    rewrite <- (Hmx w eq_refl); apply Z.ltb_ge in Ec.
    split; [exact Ec|]; split; [reflexivity|]; split; [|split; reflexivity].
    unfold Qltb in Eq; apply negb_false_iff, Qle_bool_iff in Eq; exact Eq.
Qed.

Lemma detectJudgeConsensus_sound_witness :
  let evals := [Scenarios.judge_eval "judge-1" "P1" (9 # 10);
                Scenarios.judge_eval "judge-2" "P1" (8 # 10);
                Scenarios.judge_eval "judge-3" "P2" (7 # 10)] in
  let positions := [("P1", "Use Postgres"); ("P2", "Use MySQL")] in
  jc_reached (detectJudgeConsensus evals positions (6 # 10) (7 # 10)) = true /\
  exists w,
    jc_positionId (detectJudgeConsensus evals positions (6 # 10) (7 # 10)) = Some w /\
    w <> "" /\
    (AgentConsensus.ceil_mul (List.length (filter is_eligible evals)) (6 # 10)
       <= Z.of_nat (List.length (filter (selects w) (filter is_eligible evals))))%Z /\
    jc_confidence (detectJudgeConsensus evals positions (6 # 10) (7 # 10))
      = mean_confidence (filter (selects w) (filter is_eligible evals)) /\
    (7 # 10 <= jc_confidence (detectJudgeConsensus evals positions (6 # 10) (7 # 10)))%Q /\
    jc_positionText (detectJudgeConsensus evals positions (6 # 10) (7 # 10))
      = map_get positions w /\
    dissents (detectJudgeConsensus evals positions (6 # 10) (7 # 10))
      = map judgeId (filter (fun e => negb (selects w e)) (filter is_eligible evals)).
Proof.
  intros evals positions.
  split; [vm_compute; reflexivity|].
  apply (detectJudgeConsensus_sound evals positions (6 # 10) (7 # 10)).
  vm_compute; reflexivity.
Defined.

Module PositionsFacts.
Import Orchestrator.

Lemma map_get_snoc {A} (m : list (string * A)) k v p :
  map_get (m ++ [(k, v)]) p =
  match map_get m p with
  | Some t => Some t
  | None => if String.eqb k p then Some v else None
  end.
Proof.
  induction m as [|[k' v'] m IH]; simpl; [reflexivity|].
  destruct (String.eqb k' p); [reflexivity|exact IH].
Qed.

Lemma map_get_None_notin {A} (m : list (string * A)) p :
  map_get m p = None -> ~ In p (map fst m).
Proof.
  induction m as [|[k v] m IH]; simpl; [tauto|].
  destruct (String.eqb k p) eqn:E; [discriminate|].
  intros H [->|Hin]; [rewrite String.eqb_refl in E; discriminate|].
  exact (IH H Hin).
Qed.

Lemma find_app {A} (f : A -> bool) l1 l2 :
  find f (l1 ++ l2) = match find f l1 with Some x => Some x | None => find f l2 end.
Proof.
  induction l1 as [|a l1 IH]; simpl; [reflexivity|].
  destruct (f a); [reflexivity|exact IH].
Qed.

Definition resp_step (positions : list (string * string)) (resp : AgentResponse) :=
  match positionId resp with
  | Some p =>
    if status_eqb (status resp) status_ok && negb (String.eqb p "")
       && negb (String.eqb (positionText resp) "") then
      match map_get positions p with
      | Some _ => positions
      | None => positions ++ [(p, positionText resp)]
      end
    else positions
  | None => positions
  end.

Lemma resp_fold_get (resps : list AgentResponse) acc p :
  map_get (fold_left resp_step resps acc) p =
  match map_get acc p with
  | Some t => Some t
  | None => option_map positionText (find (offers p) resps)
  end.
Proof.
  revert acc; induction resps as [|resp resps IH]; intros acc; simpl.
  - destruct (map_get acc p); reflexivity.
  - rewrite IH; unfold resp_step, offers.
    destruct (positionId resp) as [q|]; simpl;
      [|destruct (map_get acc p); reflexivity].
    destruct (String.eqb q p) eqn:Eqp.
    + apply String.eqb_eq in Eqp; subst q.
      destruct (status_eqb _ _ && _ && _) eqn:C; simpl.
      * destruct (map_get acc p) eqn:M; [rewrite M; reflexivity|].
        rewrite map_get_snoc, M, String.eqb_refl, C; reflexivity.
      * rewrite C; reflexivity.
    + destruct (status_eqb _ _ && _ && _); simpl; [|reflexivity].
      destruct (map_get acc q); [reflexivity|].
      rewrite map_get_snoc, Eqp; destruct (map_get acc p); reflexivity.
Qed.

Lemma resp_fold_nodup (resps : list AgentResponse) acc :
  NoDup (map fst acc) -> NoDup (map fst (fold_left resp_step resps acc)).
Proof.
  revert acc; induction resps as [|resp resps IH]; intros acc H; simpl; [exact H|].
  apply IH; unfold resp_step.
  destruct (positionId resp) as [q|]; [|exact H].
  destruct (_ && _ && _); [|exact H].
  destruct (map_get acc q) eqn:M; [exact H|].
  rewrite map_app; simpl; apply NoDup_app; [exact H|repeat constructor; simpl; tauto|].
  intros x Hx [<-|[]]; exact (map_get_None_notin acc q M Hx).
Qed.

Lemma rounds_fold_get (rounds : list RoundResult) acc p :
  map_get (fold_left (fun positions r => fold_left resp_step (responses r) positions)
             rounds acc) p =
  match map_get acc p with
  | Some t => Some t
  | None => option_map positionText (find (offers p) (List.concat (map responses rounds)))
  end.
Proof.
  revert acc; induction rounds as [|r rounds IH]; intros acc; simpl.
  - destruct (map_get acc p); reflexivity.
  - rewrite IH, resp_fold_get, find_app.
    destruct (map_get acc p); [reflexivity|].
    destruct (find (offers p) (responses r)); reflexivity.
Qed.

Lemma rounds_fold_nodup (rounds : list RoundResult) acc :
  NoDup (map fst acc) ->
  NoDup (map fst (fold_left (fun positions r => fold_left resp_step (responses r) positions)
                    rounds acc)).
Proof.
  revert acc; induction rounds as [|r rounds IH]; intros acc H; simpl; [exact H|].
  apply IH, resp_fold_nodup, H.
Qed.

End PositionsFacts.

(** [collectPositions] maps each position id to the text of the first
    response that offers it (status ok, non-empty id and text): over all
    rounds with scope [all_rounds], over the last round only with scope
    [last_round]; ids no such response offers are absent, and no id
    appears twice. *)
Theorem collectPositions_first (rounds : list RoundResult) (last : RoundResult)
    (p : string) :
  map_get (Orchestrator.collectPositions rounds all_rounds) p
  = option_map positionText
      (find (offers p) (List.concat (map responses rounds))) /\
  map_get (Orchestrator.collectPositions (rounds ++ [last]) last_round) p
  = option_map positionText (find (offers p) (responses last)) /\
  Orchestrator.collectPositions [] last_round = [] /\
  (forall scope, NoDup (map fst (Orchestrator.collectPositions rounds scope))).
Proof.
  unfold Orchestrator.collectPositions.
  change (fun positions r => fold_left ?f (responses r) positions)
    with (fun positions r => fold_left PositionsFacts.resp_step (responses r) positions).
  split; [|split; [|split]].
  - rewrite PositionsFacts.rounds_fold_get; reflexivity.
  - rewrite rev_app_distr; simpl.
    rewrite PositionsFacts.resp_fold_get; reflexivity.
  - reflexivity.
  - intros scope; apply PositionsFacts.rounds_fold_nodup; constructor.
Qed.

Module EngineFacts2.
Import Engine.

Lemma validate_ok (v : Json.json) (d : AgentOutput) :
  validateAgentResponse v = inr d ->
  (0 <= o_confidence d /\ o_confidence d <= 1)%Q /\
  1 <= String.length (o_reasoning d) <= 8000 /\
  (forall t, targetPositionId d = Some t -> String.length t = 12) /\
  (forall t, newPositionText d = Some t -> 1 <= String.length t <= 4000) /\
  (o_vote d = yes -> targetPositionId d <> None) /\
  (o_vote d = no -> newPositionText d <> None).
Proof.
  intros H; unfold validateAgentResponse in H.
  destruct v; try discriminate; cbv zeta in H.
  repeat match type of H with
    | (match ?X with Some _ => _ | None => _ end) = _ =>
        let E := fresh "E" in destruct X eqn:E; [cbv beta iota in H|discriminate]
    end.
  rename E into Ev, E0 into Et, E1 into En, E2 into Er, E3 into Ec.
  assert (Hq : (0 <= q /\ q <= 1)%Q).
  { destruct (map_get l "confidence") as [j|]; [destruct j|]; try discriminate.
    match type of Ec with (if ?c then _ else _) = _ => destruct c eqn:C end;
      [|discriminate].
    injection Ec as <-; apply andb_true_iff in C as [C1 C2].
    apply Qle_bool_iff in C1, C2; auto. }
  assert (Hs : 1 <= String.length s <= 8000).
  { destruct (map_get l "reasoning") as [j|]; [destruct j|]; try discriminate.
    match type of Er with (if ?c then _ else _) = _ => destruct c eqn:C end;
      [|discriminate].
    injection Er as <-; unfold str_len_between in C.
    apply andb_true_iff in C as [C1 C2]; apply Nat.leb_le in C1, C2; auto. }
  assert (Ho : forall t, o = Some t -> String.length t = 12).
  { intros t ->; destruct (map_get l "targetPositionId") as [j|]; [destruct j|];
      try discriminate.
    destruct (String.length _ =? 12) eqn:C; [|discriminate].
    injection Et as <-; apply Nat.eqb_eq in C; exact C. }
  assert (Hn : forall t, o0 = Some t -> 1 <= String.length t <= 4000).
  { intros t ->; destruct (map_get l "newPositionText") as [j|]; [destruct j|];
      try discriminate.
    match type of En with (if ?c then _ else _) = _ => destruct c eqn:C end;
      [|discriminate].
    injection En as <-; unfold str_len_between in C.
    apply andb_true_iff in C as [C1 C2]; apply Nat.leb_le in C1, C2; auto. }
  destruct v, o, o0; try discriminate H; inversion H; subst; cbn;
    repeat split; try apply Hq; try apply Hs; auto; try discriminate;
    match goal with Ht : Some _ = Some ?t |- _ => pose proof (Hn t Ht); lia end.
Qed.

End EngineFacts2.

(** Every response [runAgent] returns has a confidence in [0, 1]. An ok
    response carries no error and a reasoning of 1 to 8000 characters; a
    [yes] names a 12-character position id and takes the candidate's text;
    a [no] proposes the position [generatePositionId(t)] with text [t] of
    1 to 4000 characters; an [abstain] proposes such a position or none. *)
Theorem runAgent_response (gen : string -> string) (det : bool) (a : string)
    (round : nat) (cand : option string) (o : Engine.CallOutcome) (el : nat) :
  let r := Engine.runAgent gen det a round cand o el in
  (0 <= confidence r /\ confidence r <= 1)%Q /\
  (status r = status_ok ->
   error r = None /\ 1 <= String.length (reasoning r) <= 8000 /\
   (vote r = yes -> exists t, positionId r = Some t /\ String.length t = 12 /\
      positionText r = match cand with Some c => c | None => "" end) /\
   (vote r = no -> exists t, positionId r = Some (gen t) /\ positionText r = t /\
      1 <= String.length t <= 4000) /\
   (vote r = abstain -> (positionId r = None /\ positionText r = "") \/
      exists t, positionId r = Some (gen t) /\ positionText r = t /\
      1 <= String.length t <= 4000)).
Proof.
  assert (Z01 : (0 <= 0 /\ 0 <= 1)%Q) by (split; unfold Qle; simpl; lia).
  cbv zeta; unfold Engine.runAgent.
  destruct o as [msg|content usage lat];
    [cbn; split; [exact Z01|discriminate]|].
  destruct (Json.parseJsonWithRepair content (negb det)) as [data|e x];
    [|cbn; split; [exact Z01|discriminate]].
  destruct (Engine.validateAgentResponse data) as [msg|d] eqn:V;
    [cbn; split; [exact Z01|discriminate]|].
  apply EngineFacts2.validate_ok in V as (Hq & Hs & Ht & Hn & Hy & Hno).
  destruct (Engine.o_vote d) eqn:Vt;
    destruct (Engine.targetPositionId d) as [t|] eqn:T;
    destruct (Engine.newPositionText d) as [u|] eqn:N; cbn;
    try (destruct (String.eqb t "") eqn:Et);
    try (destruct (String.eqb u "") eqn:Eu); cbn.
  all: split; [exact Hq|]; intros _; split; [reflexivity|]; split; [exact Hs|].
  all: repeat split; intros HH; try discriminate HH.
  all: try (exists t; split; [reflexivity|]; split; [apply Ht; reflexivity|reflexivity]).
  all: try (exists u; split; [reflexivity|]; split; [reflexivity|apply Hn; reflexivity]).
  all: try (right; exists u; split; [reflexivity|]; split; [reflexivity|apply Hn; reflexivity]).
  all: try (left; split; reflexivity).
  all: try (exfalso; apply String.eqb_eq in Et; subst t; specialize (Ht "" eq_refl);
            discriminate).
  all: try (exfalso; apply String.eqb_eq in Eu; subst u; specialize (Hn "" eq_refl);
            simpl in Hn; lia).
  all: try (exfalso; exact (Hy eq_refl eq_refl)).
  all: exfalso; exact (Hno eq_refl eq_refl).
Qed.

Module RepairFacts.
Import Json.

Lemma fix_in (i e : bool) (s : list ascii) (c : ascii) :
  In c (fixUnescapedNewlines_from i e s) -> In c s \/ c = bslash \/ c = "n"%char.
Proof.
  revert i e; induction s as [|d s IH]; intros i e H; simpl in H; [contradiction|].
  destruct e; [destruct H as [->|H]; [left; left; reflexivity|]|].
  { destruct (IH _ _ H) as [H'|H']; [left; right; exact H'|right; exact H']. }
  destruct (Ascii.eqb d bslash);
    [destruct H as [->|H]; [left; left; reflexivity|]
    |destruct (Ascii.eqb d dquote);
      [destruct H as [->|H]; [left; left; reflexivity|]
      |destruct (i && (code d =? 10)%nat);
        [destruct H as [->|[->|H]]; [right; left; reflexivity|right; right; reflexivity|]
        |destruct (i && (code d =? 13)%nat);
          [|destruct H as [->|H]; [left; left; reflexivity|]]]]].
  all: destruct (IH _ _ H) as [H'|H']; [left; right; exact H'|right; exact H'].
Qed.

Lemma fix_id (i e : bool) (s : list ascii) :
  (forall c, In c s -> c <> dquote) \/
  (forall c, In c s -> code c <> 10 /\ code c <> 13) ->
  i = false \/ (forall c, In c s -> code c <> 10 /\ code c <> 13) ->
  fixUnescapedNewlines_from i e s = s.
Proof.
  revert i e; induction s as [|d s IH]; intros i e H Hi; simpl; [reflexivity|].
  assert (H' : (forall c, In c s -> c <> dquote) \/
               (forall c, In c s -> code c <> 10 /\ code c <> 13))
    by (destruct H as [H|H]; [left|right]; intros c Hc; apply H; right; exact Hc).
  destruct e; [f_equal; apply IH; [exact H'|]|].
  { destruct Hi as [->|Hi]; [left; reflexivity|right; intros c Hc; apply Hi; right; exact Hc]. }
  destruct (Ascii.eqb d bslash); [f_equal; apply IH; [exact H'|]|].
  { destruct Hi as [->|Hi]; [left; reflexivity|right; intros c Hc; apply Hi; right; exact Hc]. }
  destruct (Ascii.eqb d dquote) eqn:Ed.
  { apply Ascii.eqb_eq in Ed; subst d.
    destruct H as [H|H]; [exfalso; exact (H dquote (or_introl eq_refl) eq_refl)|].
    f_equal; apply IH; [right; intros c Hc; apply H; right; exact Hc|].
    right; intros c Hc; apply H; right; exact Hc. }
  assert (Hd : i = false \/ code d <> 10 /\ code d <> 13)
    by (destruct Hi as [Hi|Hi]; [left; exact Hi|right; apply Hi; left; reflexivity]).
  assert (Hs : i = false \/ (forall c, In c s -> code c <> 10 /\ code c <> 13))
    by (destruct Hi as [Hi|Hi]; [left; exact Hi|right; intros c Hc; apply Hi; right; exact Hc]).
  destruct Hd as [->|[D1 D2]].
  - simpl; f_equal; apply IH; [exact H'|exact Hs].
  - apply Nat.eqb_neq in D1, D2; rewrite D1, D2, !andb_false_r.
    f_equal; apply IH; [exact H'|exact Hs].
Qed.

End RepairFacts.

(** The text [repairJson] returns holds no control character other than
    tab, line feed and carriage return: every character has code 9, 10, 13
    or at least 32. *)
Theorem repairJson_no_controls (raw : string) (c : ascii) :
  In c (list_ascii_of_string (Json.repairJson raw)) ->
  Json.code c = 9 \/ Json.code c = 10 \/ Json.code c = 13 \/ 32 <= Json.code c.
Proof.
  unfold Json.repairJson, Json.repairJson_list, Json.fixUnescapedNewlines.
  rewrite list_ascii_of_string_of_list_ascii; cbv zeta.
  intros H; apply RepairFacts.fix_in in H.
  destruct H as [H | [-> | ->]]; [|vm_compute; lia|vm_compute; lia].
  unfold Json.strip_controls in H; apply filter_In in H as [_ H].
  apply negb_true_iff in H.
  repeat rewrite orb_false_iff in H.
  destruct H as [[[H1 H2] H3] H4].
  apply Nat.leb_gt in H1; apply Nat.eqb_neq in H2, H3.
  apply andb_false_iff in H4 as [H4|H4]; [apply Nat.leb_gt in H4|apply Nat.leb_gt in H4];
    lia.
Qed.

Lemma repairJson_no_controls_witness :
  let raw := String "{"%char (String (ascii_of_nat 7)
               (String (ascii_of_nat 10) (String "}"%char EmptyString))) in
  list_ascii_of_string (Json.repairJson raw) = ["{"%char; ascii_of_nat 10; "}"%char] /\
  (Json.code (ascii_of_nat 10) = 9 \/ Json.code (ascii_of_nat 10) = 10 \/
   Json.code (ascii_of_nat 10) = 13 \/ 32 <= Json.code (ascii_of_nat 10)).
Proof.
  intros raw; split; [vm_compute; reflexivity|].
  apply (repairJson_no_controls raw (ascii_of_nat 10)).
  vm_compute; right; left; reflexivity.
Defined.

(** [fixUnescapedNewlines], the last step of [repairJson], changes nothing
    in a text with no double quote (no string is ever entered) nor in a
    text with no line feed and no carriage return. *)
Theorem fixUnescapedNewlines_id (s : list ascii) :
  (forall c, In c s -> c <> Json.dquote) \/
  (forall c, In c s -> Json.code c <> 10 /\ Json.code c <> 13) ->
  Json.fixUnescapedNewlines s = s.
Proof.
  intros H; apply RepairFacts.fix_id; [exact H|left; reflexivity].
Qed.

Lemma fixUnescapedNewlines_id_witness :
  let s := ["{"%char; ascii_of_nat 10; ascii_of_nat 13; "}"%char] in
  Json.fixUnescapedNewlines s = s.
Proof.
  intros s; apply (fixUnescapedNewlines_id s); left.
  intros c Hc; simpl in Hc.
  destruct Hc as [<- | [<- | [<- | [<- | []]]]]; vm_compute; discriminate.
Defined.

(** A checkpoint saved with no HMAC key (unset or empty) is stored with a
    null [hmac] and loads back under any HMAC key configured at load time:
    the HMAC check is skipped for it. *)
Theorem checkpoint_unkeyed_loads_under_any_key (Text : Type)
    (stringify : Json.json -> Text) (parse : Text -> option Json.json)
    (sha256 : string -> string) (hmacSha256 : string -> string -> string)
    (saveKey loadKey : option string)
    (configSchema roundSchema judgeRoundSchema : Json.json -> option Json.json)
    (isDatetime : string -> bool) (now : string) (S : Checkpoint.CheckpointData)
    (Hparse : forall v, parse (stringify v) = Some v)
    (Hsha : forall x, String.length (sha256 x) = 64)
    (Hnow : isDatetime now = true)
    (Hcfg : configSchema (Checkpoint.cd_config S) = Some (Checkpoint.cd_config S))
    (Hars : Forall (fun r => roundSchema r = Some r) (Checkpoint.cd_agentRounds S))
    (Hjrs : Forall (fun r => judgeRoundSchema r = Some r)
              (Checkpoint.cd_judgeRounds S))
    (Hkey : Checkpoint.truthy_key saveKey = None) :
  Checkpoint.loadCheckpoint Text parse sha256 hmacSha256 loadKey configSchema
    roundSchema judgeRoundSchema isDatetime
    (Checkpoint.saveCheckpoint Text stringify sha256 hmacSha256 saveKey now S)
  = Checkpoint.loaded S.
Proof.
  destruct S as [sid ph cfg ars jrs]; simpl in *.
  unfold Checkpoint.loadCheckpoint, Checkpoint.saveCheckpoint.
  rewrite Hparse, Hkey.
  lazymatch goal with
  | |- context [Checkpoint.checkpointSchema ?a ?b ?c ?d ?x] =>
      assert (HS : Checkpoint.checkpointSchema a b c d x = Some x)
  end.
  { unfold Checkpoint.checkpointSchema; cbn -[Checkpoint.canonicalizeJson].
    rewrite Hcfg, !Hsha, Hnow, CheckpointFacts.phase_of_name_phase_name,
      (CheckpointFacts.all_some_id _ _ Hars),
      (CheckpointFacts.all_some_id _ _ Hjrs); reflexivity. }
  rewrite HS; cbn -[Checkpoint.canonicalizeJson].
  rewrite ?String.eqb_refl, CheckpointFacts.phase_of_name_phase_name;
    cbn -[Checkpoint.canonicalizeJson].
  destruct (Checkpoint.truthy_key loadKey); reflexivity.
Qed.

Lemma checkpoint_unkeyed_loads_under_any_key_witness :
  let S0 := {| Checkpoint.cd_sessionId := "session-1";
               Checkpoint.cd_phase := State.agent_debate;
               Checkpoint.cd_config :=
                 Json.JObj [("topic", Json.JStr "Which database?")];
               Checkpoint.cd_agentRounds := [];
               Checkpoint.cd_judgeRounds := [] |} in
  Checkpoint.loadCheckpoint Json.json Some (fun _ => Checkpoint.zeros 64)
    (fun _ _ => Checkpoint.zeros 64) (Some "secret") Some Some Some
    (fun _ => true)
    (Checkpoint.saveCheckpoint Json.json (fun v => v) (fun _ => Checkpoint.zeros 64)
       (fun _ _ => Checkpoint.zeros 64) None Scenarios.now S0)
  = Checkpoint.loaded S0.
Proof.
  intros S0.
  apply (checkpoint_unkeyed_loads_under_any_key Json.json (fun v => v) Some
           (fun _ => Checkpoint.zeros 64) (fun _ _ => Checkpoint.zeros 64)
           None (Some "secret") Some Some Some (fun _ => true) Scenarios.now S0).
  - intros v; reflexivity.
  - intros x; reflexivity.
  - reflexivity.
  - reflexivity.
  - constructor.
  - constructor.
  - reflexivity.
Defined.

(** A checkpoint saved under an HMAC key [k1] is rejected with
    [CheckpointIntegrityError("Checkpoint HMAC verification failed")] when
    it is loaded under a key [k2] whose HMAC of the checkpoint's content
    hash differs from [k1]'s (the digests being 64-character hex
    strings). *)
Theorem checkpoint_wrong_key_rejected (Text : Type)
    (stringify : Json.json -> Text) (parse : Text -> option Json.json)
    (sha256 : string -> string) (hmacSha256 : string -> string -> string)
    (saveKey loadKey : option string) (k1 k2 : string)
    (configSchema roundSchema judgeRoundSchema : Json.json -> option Json.json)
    (isDatetime : string -> bool) (now : string) (S : Checkpoint.CheckpointData)
    (Hparse : forall v, parse (stringify v) = Some v)
    (Hsha : forall x, String.length (sha256 x) = 64)
    (Hhmac : forall x k, String.length (hmacSha256 x k) = 64)
    (Hnow : isDatetime now = true)
    (Hcfg : configSchema (Checkpoint.cd_config S) = Some (Checkpoint.cd_config S))
    (Hars : Forall (fun r => roundSchema r = Some r) (Checkpoint.cd_agentRounds S))
    (Hjrs : Forall (fun r => judgeRoundSchema r = Some r)
              (Checkpoint.cd_judgeRounds S))
    (Hk1 : Checkpoint.truthy_key saveKey = Some k1)
    (Hk2 : Checkpoint.truthy_key loadKey = Some k2)
    (Hdiff : hmacSha256 (Checkpoint.savedContentHash sha256 now S) k1
             <> hmacSha256 (Checkpoint.savedContentHash sha256 now S) k2) :
  Checkpoint.loadCheckpoint Text parse sha256 hmacSha256 loadKey configSchema
    roundSchema judgeRoundSchema isDatetime
    (Checkpoint.saveCheckpoint Text stringify sha256 hmacSha256 saveKey now S)
  = Checkpoint.load_error
      (Checkpoint.CheckpointIntegrityError "Checkpoint HMAC verification failed").
Proof.
  destruct S as [sid ph cfg ars jrs]; simpl in *.
  unfold Checkpoint.loadCheckpoint, Checkpoint.saveCheckpoint.
  rewrite Hparse, Hk1.
  lazymatch goal with
  | |- context [Checkpoint.checkpointSchema ?a ?b ?c ?d ?x] =>
      assert (HS : Checkpoint.checkpointSchema a b c d x = Some x)
  end.
  { unfold Checkpoint.checkpointSchema; cbn -[Checkpoint.canonicalizeJson].
    rewrite Hcfg, !Hsha, Hhmac, Hnow, CheckpointFacts.phase_of_name_phase_name,
      (CheckpointFacts.all_some_id _ _ Hars),
      (CheckpointFacts.all_some_id _ _ Hjrs); reflexivity. }
  rewrite HS; cbn -[Checkpoint.canonicalizeJson].
  rewrite ?String.eqb_refl; cbn -[Checkpoint.canonicalizeJson].
  rewrite Hk2.
  match goal with
  | |- context [String.eqb (hmacSha256 ?x k1) ""] =>
      destruct (String.eqb (hmacSha256 x k1) "") eqn:E;
      [apply String.eqb_eq in E; pose proof (Hhmac x k1) as L;
       rewrite E in L; discriminate|];
      destruct (String.eqb (hmacSha256 x k1) (hmacSha256 x k2)) eqn:E2;
      [apply String.eqb_eq in E2; exfalso; exact (Hdiff E2)|reflexivity]
  end.
Qed.

Lemma checkpoint_wrong_key_rejected_witness :
  let S0 := {| Checkpoint.cd_sessionId := "session-1";
               Checkpoint.cd_phase := State.agent_debate;
               Checkpoint.cd_config :=
                 Json.JObj [("topic", Json.JStr "Which database?")];
               Checkpoint.cd_agentRounds := [];
               Checkpoint.cd_judgeRounds := [] |} in
  let hmac := fun (_ k : string) =>
    if String.eqb k "key-1" then Checkpoint.zeros 64
    else String "1"%char (Checkpoint.zeros 63) in
  Checkpoint.loadCheckpoint Json.json Some (fun _ => Checkpoint.zeros 64)
    hmac (Some "key-2") Some Some Some (fun _ => true)
    (Checkpoint.saveCheckpoint Json.json (fun v => v) (fun _ => Checkpoint.zeros 64)
       hmac (Some "key-1") Scenarios.now S0)
  = Checkpoint.load_error
      (Checkpoint.CheckpointIntegrityError "Checkpoint HMAC verification failed").
Proof.
  intros S0 hmac.
  apply (checkpoint_wrong_key_rejected Json.json (fun v => v) Some
           (fun _ => Checkpoint.zeros 64) hmac (Some "key-1") (Some "key-2")
           "key-1" "key-2" Some Some Some (fun _ => true) Scenarios.now S0).
  - intros v; reflexivity.
  - intros x; reflexivity.
  - intros x k; unfold hmac; destruct (String.eqb k "key-1"); reflexivity.
  - reflexivity.
  - reflexivity.
  - constructor.
  - constructor.
  - reflexivity.
  - reflexivity.
  - vm_compute; discriminate.
Defined.
